(** * Deployment orchestrator and ledger of deploy/utils.ts

    A shallow embedding of [createOrGetDeployLog], [getProvider],
    [getWallet], [verifyEnoughBalance], [verifyContract], [deployContract]
    and [upgradeContract].  The asynchronous functions run sequentially
    (every call is awaited), so each is a function in a state-and-exception
    monad over

    - the log directory and the ledger files ([files], [dirs]),
    - the state of the external services (artifact resolver, chain gateway,
      verification service), kept abstract,
    - the console, and
    - the trace of calls made to the external services.

    The ledger object ([deployLog], a JS object used as a map from contract
    names to address strings) is a [gmap string string] of its own entries,
    read and assigned as JavaScript reads and assigns the properties of a
    plain object: a name without an entry is looked up in
    [Object.prototype], and an assignment to [__proto__] reaches the setter
    of the prototype. *)

From Stdlib Require Import ZArith String Ascii List Lia DecimalString.
From stdpp Require Import base option gmap strings.

Open Scope string_scope.

(** ** JavaScript values that the code throws, tests and prints *)

(** A thrown value: the code throws template strings ([throw `...`]) and
    [Error] objects ([throw new Error(...)]); the external libraries throw
    [Error] objects, or any other value, which has no [message]. *)
Inductive JsValue :=
| JsString (s : string)
| JsError (message : string)
| JsOpaque (tag : N).

(** [error?.message] *)
Definition message_of (error : JsValue) : option string :=
  match error with
  | JsError m => Some m
  | JsString _ | JsOpaque _ => None
  end.

(** How a call completes: it returns a value, or it throws. *)
Inductive Completion (A : Type) :=
| Normal (a : A)
| Throw (e : JsValue).
Arguments Normal {A} a.
Arguments Throw {A} e.

(** Truthiness of an optional boolean and of an optional string: [undefined],
    [false] and the empty string are falsy. *)
Definition truthy_bool (b : option bool) : bool :=
  match b with
  | Some true => true
  | _ => false
  end.

Definition truthy_string (s : option string) : bool :=
  match s with
  | Some EmptyString | None => false
  | Some _ => true
  end.

(** [String.prototype.includes] *)
Fixpoint includes (needle hay : string) : bool :=
  String.prefix needle hay ||
  match hay with
  | EmptyString => false
  | String _ rest => includes needle rest
  end.

(** [BigInt.prototype.toString], as string concatenation calls it. *)
Definition bigint_toString (z : Z) : string :=
  NilZero.string_of_int (Z.to_int z).

(** The characters that a Rocq string literal cannot hold directly. *)
Definition dq : string := String (ascii_of_nat 34) EmptyString.
Definition nl : string := String (ascii_of_nat 10) EmptyString.

(** ** The values that the scripts throw

    The code throws template strings and one [Error]; they are named here
    after the error kinds of the design. *)

(** [verifyEnoughBalance]: the required and the available amount, both
    already formatted. *)
Definition InsufficientBalance (required address available : string)
    : JsValue :=
  JsString
    ("⛔️ Wallet balance is too low! Required " +:+ required
     +:+ " ETH, but current " +:+ address +:+ " balance is " +:+ available
     +:+ " ETH").

(** [deployContract], on an artifact that is not found. *)
Definition ArtifactNotFound_deploy : JsValue :=
  JsString
    "⛔️ Please make sure you have compiled your contracts or specified the correct contract name!".

(** [upgradeContract], on an artifact that is not found. *)
Definition ArtifactNotFound_upgrade : JsValue :=
  JsString
    "Please make sure you have compiled your contracts or specified the correct contract name!".

Definition ProxyNotFound : JsValue :=
  JsError "⛔️ Proxy address not found! Please deploy the contract first.".

Definition UpgradeRequiresUpgradableFlag : JsValue :=
  JsString "⛔️ Upgrade contract must be upgradable!".

(** ** Data of the deployment scripts *)

(** A constructor or initializer argument ([any[]]). *)
Inductive Arg :=
| ArgString (s : string)
| ArgBigInt (z : Z)
| ArgBool (b : bool).

Definition Abi := string.
Definition Provider := string.

Record Artifact := {
  contractName : string;
  sourceName : string;
  abi : Abi;
  bytecode : string;
}.

Record Wallet := {
  wallet_address : string;
  wallet_provider : Provider;
}.

(** A contract handle: [getAddress()] and [interface]. *)
Record Contract := {
  contract_address : string;
  contract_interface : Abi;
}.

Inductive ProxyKind := uups | transparent | beacon.

Inductive UnsafeAllow :=
| ua_constructor
| ua_delegatecall
| ua_selfdestruct
| ua_state_variable_assignment
| ua_state_variable_immutable
| ua_external_library_linking
| ua_struct_definition
| ua_enum_definition
| ua_missing_public_upgradeto.

(** [DeployContractOptions]; every field is optional. *)
Record DeployContractOptions := {
  silent : option bool;
  noVerify : option bool;
  wallet : option Wallet;
  upgradable : option bool;
  kind : option ProxyKind;
  unsafeAllow : option (list UnsafeAllow);
}.

(** The options object handed to [zkUpgrades.deployProxy]. *)
Record DeployProxyOptions := {
  dp_initializer : string;
  dp_kind : option ProxyKind;
  dp_unsafeAllow : option (list UnsafeAllow);
  dp_constructorArgs : option (list Arg);
}.

(** The options object handed to [zkUpgrades.upgradeProxy]. *)
Record UpgradeProxyOptions := {
  up_unsafeAllow : option (list UnsafeAllow);
  up_constructorArgs : option (list Arg);
}.

(** The task arguments of ['verify:verify']. *)
Record VerifyArgs := {
  v_address : string;
  v_contract : string;
  v_constructorArguments : string;
  v_bytecode : string;
  v_noCompile : bool;
}.

(** The deployment ledger: [deployLog]. *)
Abbreviation Ledger := (gmap string string).

(** The key of the companion entry of a proxy. *)
Definition implementation_key (name : string) : string :=
  name +:+ "_Implementation".

(** The ledger is a plain object, [{}] or the result of [JSON.parse]: it
    inherits the members of [Object.prototype], all of them functions but
    the accessor [__proto__]. *)
Definition Object_prototype : list string :=
  ["constructor"; "__defineGetter__"; "__defineSetter__"; "hasOwnProperty";
   "__lookupGetter__"; "__lookupSetter__"; "isPrototypeOf";
   "propertyIsEnumerable"; "toString"; "valueOf"; "__proto__";
   "toLocaleString"].

Definition inherited (name : string) : bool :=
  existsb (String.eqb name) Object_prototype.

(** What [deployLog[name]] evaluates to, and what the code then passes on
    as the proxy address: the address string of an entry, the member of
    [Object.prototype] of that name, or [undefined]. *)
Inductive Target :=
| Address (a : string)
| Inherited (member : string)
| Undefined.

Coercion Address : string >-> Target.

(** [deployLog[name]] *)
Definition property (deployLog : Ledger) (name : string) : Target :=
  match deployLog !! name with
  | Some a => Address a
  | None => if inherited name then Inherited name else Undefined
  end.

(** Truthiness of such a value: the empty string and [undefined] are
    falsy, a function or an object is truthy. *)
Definition truthy_target (v : Target) : bool :=
  match v with
  | Address EmptyString | Undefined => false
  | Address _ | Inherited _ => true
  end.

(** [deployLog[name] = value], with a string as the value.  The members of
    [Object.prototype] are writable data properties, which the assignment
    shadows by an entry of the ledger; [__proto__] is an accessor, whose
    setter ignores a value that is neither an object nor [null], unless
    the ledger has an entry of that name already (from [JSON.parse]). *)
Definition assign (name value : string) (deployLog : Ledger) : Ledger :=
  if String.eqb name "__proto__" && bool_decide (deployLog !! name = None)
  then deployLog
  else <[name := value]> deployLog.

(** ** The host: pure library functions and the Hardhat configuration *)

Record Host := {
  (** [path.resolve(__dirname, '..')] *)
  zkLinkRoot : string;
  path_dirname : string -> string;
  (** [JSON.parse] of a ledger file; it throws on text that is not JSON. *)
  JSON_parse : string -> Completion Ledger;
  (** [JSON.stringify(deployLog, null, 2)] *)
  JSON_stringify : Ledger -> string;
  (** [JSON.stringify(constructorArguments, null, 2)], inside a template
      string; it throws on a bigint. *)
  JSON_stringify_args : option (list Arg) -> Completion string;
  (** [ethers.formatEther] *)
  formatEther : Z -> string;
  (** [contract.interface.encodeDeploy]; it throws when the arguments do
      not fit the constructor. *)
  encodeDeploy : Abi -> option (list Arg) -> Completion string;
  (** [new Wallet(privateKey, provider)]; it throws on a malformed key. *)
  Wallet_new : string -> Provider -> Completion Wallet;
  (** [hre.network.name], [hre.network.config.url],
      [hre.network.config.verifyURL] *)
  network_name : string;
  network_url : option string;
  network_verifyURL : option string;
  (** [process.env.WALLET_PRIVATE_KEY] *)
  env_WALLET_PRIVATE_KEY : option string;
  (** What [console.log] prints for a member of [Object.prototype]. *)
  inspect_member : string -> string;
  (** [contract.getAddress()] on a handle that [getContractAt] was asked to
      build on a value that is no address string: the library decides, and
      it may throw. *)
  getAddress_of : Target -> Completion string;
}.

(** ** The external services

    The artifact resolver, the chain gateway and the verification service
    answer from a state of their own, of a type [Remote] that the
    orchestrator never inspects; every call may throw. *)
Record Services := {
  Remote : Type;
  loadArtifact : string -> Remote -> Completion Artifact * Remote;
  estimateDeployFee :
    Wallet -> Artifact -> list Arg -> Remote -> Completion Z * Remote;
  getBalance : Wallet -> Remote -> Completion Z * Remote;
  deploy :
    Wallet -> Artifact -> option (list Arg) -> Remote ->
    Completion Contract * Remote;
  deployProxy :
    Wallet -> Artifact -> option (list Arg) -> DeployProxyOptions ->
    Remote -> Completion Contract * Remote;
  upgradeProxy :
    Wallet -> Target -> Artifact -> UpgradeProxyOptions -> Remote ->
    Completion unit * Remote;
  getImplementationAddress :
    Provider -> Target -> Remote -> Completion string * Remote;
  (** [hre.ethers.getContractAt(abi, address)] builds
      [new Contract(address, abi, signer)]: when it does not throw, the
      handle is bound to the address and the interface it was given. *)
  getContractAt : Abi -> Target -> Remote -> Completion unit * Remote;
  (** [hre.run('verify:verify', args)] *)
  run_verify : VerifyArgs -> Remote -> Completion Z * Remote;
  (** What the services become while the script sleeps for some
      milliseconds. *)
  elapse : Z -> Remote -> Remote;
}.

(** A call to an external service, as the trace records it. *)
Inductive Event :=
| EvLoadArtifact (name : string)
| EvEstimateDeployFee (a : Artifact)
| EvGetBalance (w : Wallet)
| EvDeploy (a : Artifact)
| EvDeployProxy (a : Artifact)
| EvUpgradeProxy (proxyAddress : Target) (a : Artifact)
| EvGetImplementationAddress (address : Target)
| EvGetContractAt (address : Target)
| EvVerify (args : VerifyArgs)
| EvSleep (ms : Z).

(** The calls that submit a transaction. *)
Definition is_submission (e : Event) : bool :=
  match e with
  | EvDeploy _ | EvDeployProxy _ | EvUpgradeProxy _ _ => true
  | _ => false
  end.

(** The calls that reach the chain gateway or the verification service:
    all but artifact resolution and the settling delay. *)
Definition is_chain_call (e : Event) : bool :=
  match e with
  | EvLoadArtifact _ | EvSleep _ => false
  | _ => true
  end.

Inductive ConsoleLine :=
| StdOut (s : string)
| StdErr (s : string).

Section Orchestrator.

Variable host : Host.
Variable svc : Services.

(** ** State and monad *)

(** [console] and [trace] hold the most recent entry first. *)
Record State := {
  files : gmap string string;
  dirs : gset string;
  remote : Remote svc;
  console : list ConsoleLine;
  trace : list Event;
}.

Definition M (A : Type) : Type := State -> Completion A * State.

Definition ret {A} (a : A) : M A := fun s => (Normal a, s).

Definition throw {A} (e : JsValue) : M A := fun s => (Throw e, s).

Definition bind {A B} (m : M A) (k : A -> M B) : M B :=
  fun s =>
    match m s with
    | (Normal a, s') => k a s'
    | (Throw e, s') => (Throw e, s')
    end.

(** [promise.catch(handler)] *)
Definition catch {A} (m : M A) (handler : JsValue -> M A) : M A :=
  fun s =>
    match m s with
    | (Normal a, s') => (Normal a, s')
    | (Throw e, s') => handler e s'
    end.

(** A pure library call that may throw. *)
Definition lift {A} (c : Completion A) : M A := fun s => (c, s).

(** [const x = await m; k] and its destructuring form. *)
Notation "'do' x <- m ; k" := (bind m (fun x => k))
  (at level 60, x name, m at next level, right associativity).
Notation "'do' ' p <- m ; k" :=
  (bind m (fun v => match v with p => k end))
  (at level 60, p pattern, m at next level, right associativity).

Definition console_log (message : string) : M unit :=
  fun s =>
    (Normal tt,
     {| files := files s; dirs := dirs s; remote := remote s;
        console := StdOut message :: console s; trace := trace s |}).

Definition console_error (message : string) : M unit :=
  fun s =>
    (Normal tt,
     {| files := files s; dirs := dirs s; remote := remote s;
        console := StdErr message :: console s; trace := trace s |}).

(** An awaited call to an external service. *)
Definition external {A} (ev : Event)
    (call : Remote svc -> Completion A * Remote svc) : M A :=
  fun s =>
    let (r, remote') := call (remote s) in
    (r,
     {| files := files s; dirs := dirs s; remote := remote';
        console := console s; trace := ev :: trace s |}).

(** ** The file system

    I/O errors are not modelled, and a path names a file or a directory,
    never both: the ledger path is tested and read as a file. *)

Definition existsSync (p : string) (s : State) : bool :=
  bool_decide (p ∈ dirs s) || bool_decide (is_Some (files s !! p)).

(** The directory [p] and its parents, as [path.dirname] gives them one
    after the other until it stops at the root. *)
Fixpoint parents (fuel : nat) (p : string) : list string :=
  p :: match fuel with
       | O => []
       | S fuel' =>
           let parent := path_dirname host p in
           if String.eqb parent p then [] else parents fuel' parent
       end.

(** [fs.mkdirSync(p, { recursive: true })]: the directory and every parent
    that is missing. *)
Definition mkdirSync (p : string) : M unit :=
  fun s =>
    (Normal tt,
     {| files := files s;
        dirs := list_to_set (parents (String.length p) p) ∪ dirs s;
        remote := remote s; console := console s; trace := trace s |}).

Definition writeFileSync (p data : string) : M unit :=
  fun s =>
    (Normal tt,
     {| files := <[p := data]> (files s); dirs := dirs s;
        remote := remote s; console := console s; trace := trace s |}).

(** ** deploy/utils.ts *)

Definition createOrGetDeployLog (networkName : string)
    : M (string * Ledger) :=
  let deployLogPath :=
    zkLinkRoot host +:+ "/log/" +:+ networkName +:+ ".log" in
  do _ <- console_log ("deploy log path " +:+ deployLogPath);
  let logPath := path_dirname host deployLogPath in
  do _ <- (fun s => if existsSync logPath s then ret tt s else mkdirSync logPath s);
  fun s =>
    match files s !! deployLogPath with
    | Some data =>
        (do deployLog <- lift (JSON_parse host data);
         ret (deployLogPath, deployLog)) s
    | None => ret (deployLogPath, ∅) s
    end.

(** [getProvider] and [getWallet] are synchronous and only read the
    configuration: they complete without touching the state. *)
Definition getProvider : Completion Provider :=
  let rpcUrl := network_url host in
  if negb (truthy_string rpcUrl) then
    Throw (JsString
      ("⛔️ RPC URL wasn't found in " +:+ dq +:+ network_name host +:+ dq
       +:+ "! Please add a " +:+ dq +:+ "url" +:+ dq
       +:+ " field to the network config in hardhat.config.ts"))
  else Normal (default "" rpcUrl).

Definition getWallet (privateKey : option string) : Completion Wallet :=
  if negb (truthy_string privateKey)
     && negb (truthy_string (env_WALLET_PRIVATE_KEY host)) then
    Throw (JsString "⛔️ Wallet private key wasn't found in .env file!")
  else
    match getProvider with
    | Normal provider =>
        Wallet_new host
          (match privateKey with
           | Some k => k
           | None => default "" (env_WALLET_PRIVATE_KEY host)
           end)
          provider
    | Throw e => Throw e
    end.

Definition verifyEnoughBalance (w : Wallet) (amount : Z) : M unit :=
  do balance <- external (EvGetBalance w) (getBalance svc w);
  do _ <- console_log ("Balance of Wallet: " +:+ bigint_toString balance);
  if (balance <? amount)%Z then
    throw (InsufficientBalance (formatEther host amount) (wallet_address w)
             (formatEther host balance))
  else ret tt.

Definition verifyContract (address contract constructorArguments
    bytecode_ : string) : M Z :=
  let args :=
    {| v_address := address; v_contract := contract;
       v_constructorArguments := constructorArguments;
       v_bytecode := bytecode_; v_noCompile := true |} in
  do verificationRequestId <- external (EvVerify args) (run_verify svc args);
  ret verificationRequestId.

(** [error?.message?.includes(`Artifact for contract "${name}" not found.`)] *)
Definition artifact_not_found (contractArtifactName : string)
    (error : JsValue) : bool :=
  match message_of error with
  | Some m =>
      includes
        ("Artifact for contract " +:+ dq +:+ contractArtifactName +:+ dq
         +:+ " not found.") m
  | None => false
  end.

(** The local [log] of both functions: [if (!options?.silent)
    console.log(message)]. *)
Definition log (options : option DeployContractOptions) (message : string)
    : M unit :=
  if negb (truthy_bool (options ≫= silent)) then console_log message
  else ret tt.

(** [options?.wallet ?? getWallet()] *)
Definition wallet_of (options : option DeployContractOptions)
    : Completion Wallet :=
  match options ≫= wallet with
  | Some w => Normal w
  | None => getWallet None
  end.

(** What [console.log] prints for the value of [deployLog[name]]. *)
Definition inspect (v : Target) : string :=
  match v with
  | Address a => a
  | Inherited member => inspect_member host member
  | Undefined => "undefined"
  end.

(** [await contract.getAddress()] on the handle that [getContractAt] built:
    the address string that it was given, when it was given one. *)
Definition getAddress (target : Target) : Completion string :=
  match target with
  | Address a => Normal a
  | _ => getAddress_of host target
  end.

Definition deployContract (contractArtifactName : string)
    (constructorArguments : option (list Arg))
    (options : option DeployContractOptions)
    (initializerArguments : option (list Arg)) : M Contract :=
  let log := log options in
  do '(deployLogPath, deployLog) <- createOrGetDeployLog (network_name host);
  do _ <- log (nl +:+ "Starting deployment process of " +:+ dq
               +:+ contractArtifactName +:+ dq +:+ "...");
  do wallet <- lift (wallet_of options);
  do artifact <-
    catch
      (external (EvLoadArtifact contractArtifactName)
         (loadArtifact svc contractArtifactName))
      (fun error =>
         if artifact_not_found contractArtifactName error then
           do _ <- console_error (default "" (message_of error));
           throw ArtifactNotFound_deploy
         else throw error);
  do _ <- log (nl +:+ "Artifact found! Deploying contract...");
  let contractName := contractName artifact in
  do deploymentFee <-
    external (EvEstimateDeployFee artifact)
      (estimateDeployFee svc wallet artifact
         (default [] constructorArguments));
  do _ <- log ("Estimated deployment cost: "
               +:+ formatEther host deploymentFee +:+ " ETH");
  do _ <- verifyEnoughBalance wallet deploymentFee;
  do _ <- log (nl +:+ "Deploying contract...");
  do argsText <- lift (JSON_stringify_args host constructorArguments);
  do _ <- log (nl +:+ "Constructor arguments: " +:+ argsText);
  do contract <-
    (if truthy_bool (options ≫= upgradable) then
       external (EvDeployProxy artifact)
         (deployProxy svc wallet artifact initializerArguments
            {| dp_initializer := "initialize";
               dp_kind := options ≫= kind;
               dp_unsafeAllow := options ≫= unsafeAllow;
               dp_constructorArgs := constructorArguments |})
     else
       external (EvDeploy artifact)
         (deploy svc wallet artifact constructorArguments));
  do _ <- log (nl +:+ "Contract deployed!");
  let address := contract_address contract in
  do constructorArgs <-
    lift (encodeDeploy host (contract_interface contract)
            constructorArguments);
  let fullContractSource := sourceName artifact +:+ ":" +:+ contractName in
  let deployLog1 := assign contractName address deployLog in
  do deployLog2 <-
    (if truthy_bool (options ≫= upgradable) then
       do provider <- lift getProvider;
       do implementationAddress <-
         external (EvGetImplementationAddress address)
           (getImplementationAddress svc provider address);
       ret (assign (implementation_key contractName) implementationAddress
              deployLog1)
     else ret deployLog1);
  do _ <- writeFileSync deployLogPath (JSON_stringify host deployLog2);
  do _ <- log (nl +:+ dq +:+ contractName +:+ dq
               +:+ " was successfully deployed:");
  do _ <- log (" - Contract address: " +:+ address);
  do _ <- log (" - Contract source: " +:+ fullContractSource);
  do _ <- log (" - Encoded constructor arguments: " +:+ constructorArgs
               +:+ nl);
  do _ <-
    (if negb (truthy_bool (options ≫= noVerify))
        && truthy_string (network_verifyURL host) then
       do _ <- log "Requesting contract verification...";
       do _ <- verifyContract address fullContractSource constructorArgs
                 (bytecode artifact);
       ret tt
     else ret tt);
  ret contract.

Definition upgradeContract (contractArtifactName : string)
    (constructorArguments : option (list Arg))
    (options : option DeployContractOptions) : M Contract :=
  let log := log options in
  do '(deployLogPath, deployLog) <- createOrGetDeployLog (network_name host);
  do _ <- log (nl +:+ "Starting upgrade process of " +:+ dq
               +:+ contractArtifactName +:+ dq +:+ "...");
  do wallet <- lift (wallet_of options);
  do artifact <-
    catch
      (external (EvLoadArtifact contractArtifactName)
         (loadArtifact svc contractArtifactName))
      (fun error =>
         if artifact_not_found contractArtifactName error then
           do _ <- console_error (default "" (message_of error));
           throw ArtifactNotFound_upgrade
         else throw error);
  do _ <- log (nl +:+ "Artifact found! Deploying contract...");
  let contractName := contractName artifact in
  do deploymentFee <-
    external (EvEstimateDeployFee artifact)
      (estimateDeployFee svc wallet artifact
         (default [] constructorArguments));
  do _ <- log ("Estimated deployment cost: "
               +:+ formatEther host deploymentFee +:+ " ETH");
  do _ <- verifyEnoughBalance wallet deploymentFee;
  do _ <- log (nl +:+ "Deploying new implementation contract...");
  do argsText <- lift (JSON_stringify_args host constructorArguments);
  do _ <- log (nl +:+ "Constructor arguments: " +:+ argsText);
  do deployLog' <-
    (if truthy_bool (options ≫= upgradable) then
       let proxyAddress := property deployLog contractName in
       do _ <- console_log ("proxyAddress " +:+ inspect proxyAddress);
       if negb (truthy_target proxyAddress) then
         throw ProxyNotFound
       else
         do _ <-
           external (EvUpgradeProxy proxyAddress artifact)
             (upgradeProxy svc wallet proxyAddress artifact
                {| up_unsafeAllow := options ≫= unsafeAllow;
                   up_constructorArgs := constructorArguments |});
         do _ <- external (EvSleep 2000)
                   (fun r => (Normal tt, elapse svc 2000 r));
         do provider <- lift getProvider;
         do implementationAddress <-
           external (EvGetImplementationAddress proxyAddress)
             (getImplementationAddress svc provider proxyAddress);
         do _ <- log (nl +:+ "New implementation address: "
                      +:+ implementationAddress);
         let deployLog' :=
           assign (implementation_key contractName) implementationAddress
             deployLog in
         do _ <- writeFileSync deployLogPath
                   (JSON_stringify host deployLog');
         ret deployLog'
     else throw UpgradeRequiresUpgradableFlag);
  do _ <- log (nl +:+ "Contract upgraded!");
  let target := property deployLog' contractName in
  do _ <- external (EvGetContractAt target)
            (getContractAt svc (abi artifact) target);
  do address <- lift (getAddress target);
  let contract :=
    {| contract_address := address; contract_interface := abi artifact |} in
  do constructorArgs <-
    lift (encodeDeploy host (contract_interface contract)
            constructorArguments);
  let fullContractSource := sourceName artifact +:+ ":" +:+ contractName in
  do _ <- log (nl +:+ dq +:+ contractName +:+ dq
               +:+ " was successfully deployed:");
  do _ <- log (" - Contract address: " +:+ address);
  do _ <- log (" - Contract source: " +:+ fullContractSource);
  do _ <- log (" - Encoded constructor arguments: " +:+ constructorArgs
               +:+ nl);
  do _ <-
    (if negb (truthy_bool (options ≫= noVerify))
        && truthy_string (network_verifyURL host) then
       do _ <- log "Requesting contract verification...";
       do _ <- verifyContract address fullContractSource constructorArgs
                 (bytecode artifact);
       ret tt
     else ret tt);
  ret contract.

(** ** Reading the model *)

(** The path of the ledger file of a network: [deployLogPath]. *)
Definition deployLogPath_of (networkName : string) : string :=
  zkLinkRoot host +:+ "/log/" +:+ networkName +:+ ".log".

(** The ledger that [createOrGetDeployLog] loads from the files [fs]. *)
Definition read_ledger (networkName : string) (fs : gmap string string)
    : Completion Ledger :=
  match fs !! deployLogPath_of networkName with
  | Some data => JSON_parse host data
  | None => Normal ∅
  end.

(** The ledger file of the configured network and the ledger that a call
    starting in state [s] loads from it. *)
Definition ledger_path : string := deployLogPath_of (network_name host).

Definition stored_ledger (s : State) : Completion Ledger :=
  read_ledger (network_name host) (files s).

(** The calls that a run from [s] to [s'] added to the trace, the latest
    first. *)
Definition calls_between (s s' : State) (evs : list Event) : Prop :=
  trace s' = (evs ++ trace s)%list.

(** The trace [t'] extends [t] by calls that all fall outside [kind]. *)
Definition grows_without (kind : Event -> bool) (t t' : list Event)
    : Prop :=
  exists evs,
    t' = (evs ++ t)%list /\ forallb (fun e => negb (kind e)) evs = true.

(** Between [s] and [s'] no transaction was submitted. *)
Definition no_submission (s s' : State) : Prop :=
  grows_without is_submission (trace s) (trace s').

(** Between [s] and [s'] neither the chain gateway nor the verification
    service was called. *)
Definition no_chain_call (s s' : State) : Prop :=
  grows_without is_chain_call (trace s) (trace s').

(** A postcondition reads the completion and what can be observed of the
    final state: the files, the external services and the trace.  The
    console and the directories are left out: no branch of the scripts
    depends on them beyond the creation of the log directory. *)
Definition Post (A : Type) : Type :=
  Completion A -> gmap string string -> Remote svc -> list Event -> Prop.

(** [wpo m Q fs rm t]: from every state with files [fs], services [rm] and
    trace [t], the run of [m] ends in [Q]. *)
Definition wpo {A} (m : M A) (Q : Post A) (fs : gmap string string)
    (rm : Remote svc) (t : list Event) : Prop :=
  forall s, files s = fs -> remote s = rm -> trace s = t ->
    Q (m s).1 (files (m s).2) (remote (m s).2) (trace (m s).2).

(** The postcondition of [do x <- m; k x], read after [m]. *)
Definition after {A B} (k : A -> M B) (Q : Post B) : Post A :=
  fun r fs rm t =>
    match r with
    | Normal a => wpo (k a) Q fs rm t
    | Throw e => Q (Throw e) fs rm t
    end.

(** The postcondition of [m.catch(handler)], read after [m]. *)
Definition handled {A} (handler : JsValue -> M A) (Q : Post A) : Post A :=
  fun r fs rm t =>
    match r with
    | Normal a => Q (Normal a) fs rm t
    | Throw e => wpo (handler e) Q fs rm t
    end.

(** The files [fs'] are [fs] with the ledger file rewritten to hold [l']. *)
Definition ledger_written (fs : gmap string string) (l' : Ledger)
    (fs' : gmap string string) : Prop :=
  fs' = <[ledger_path := JSON_stringify host l']> fs.

(** The first steps shared by [deployContract] and [upgradeContract], when
    all succeed: the call loads the ledger [l], signs with [w], resolves
    the artifact [a], is quoted the fee [fee], finds a balance that covers
    it and prints the arguments; the services are then in [rm]. *)
Definition prepared (contractArtifactName : string)
    (constructorArguments : option (list Arg))
    (options : option DeployContractOptions) (s : State)
    (l : Ledger) (w : Wallet) (a : Artifact) (rm : Remote svc) : Prop :=
  exists fee balance argsText rm1 rm2,
    stored_ledger s = Normal l /\
    wallet_of options = Normal w /\
    loadArtifact svc contractArtifactName (remote s) = (Normal a, rm1) /\
    estimateDeployFee svc w a (default [] constructorArguments) rm1
    = (Normal fee, rm2) /\
    getBalance svc w rm2 = (Normal balance, rm) /\
    (fee <= balance)%Z /\
    JSON_stringify_args host constructorArguments = Normal argsText.

(** A deployment that succeeds up to the write of the ledger: the chain
    returns the handle [c], whose constructor arguments encode to
    [encoded], and the ledger [l'] is written; the services are then in
    [rm]. *)
Definition deployment (contractArtifactName : string)
    (constructorArguments : option (list Arg))
    (options : option DeployContractOptions)
    (initializerArguments : option (list Arg)) (s : State)
    (l : Ledger) (a : Artifact) (c : Contract) (encoded : string)
    (l' : Ledger) (rm : Remote svc) : Prop :=
  exists w rm3,
    prepared contractArtifactName constructorArguments options s l w a rm3
    /\
    encodeDeploy host (contract_interface c) constructorArguments
    = Normal encoded /\
    if truthy_bool (options ≫= upgradable) then
      exists provider implementationAddress rm4,
        deployProxy svc w a initializerArguments
          {| dp_initializer := "initialize";
             dp_kind := options ≫= kind;
             dp_unsafeAllow := options ≫= unsafeAllow;
             dp_constructorArgs := constructorArguments |} rm3
        = (Normal c, rm4) /\
        getProvider = Normal provider /\
        getImplementationAddress svc provider (contract_address c) rm4
        = (Normal implementationAddress, rm) /\
        l' = assign (implementation_key (contractName a))
               implementationAddress
               (assign (contractName a) (contract_address c) l)
    else
      deploy svc w a constructorArguments rm3 = (Normal c, rm) /\
      l' = assign (contractName a) (contract_address c) l.

(** An upgrade that succeeds up to the write of the ledger: the ledger
    [l], read at the name of the contract, gives the truthy value
    [proxyAddress] (the address of an entry that is not empty, or a member
    of [Object.prototype]), the chain rewires it, and after the settling
    delay its implementation resolves to [implementationAddress]; the
    services are then in [rm]. *)
Definition upgrade (contractArtifactName : string)
    (constructorArguments : option (list Arg))
    (options : option DeployContractOptions) (s : State)
    (l : Ledger) (a : Artifact) (proxyAddress : Target)
    (implementationAddress : string) (rm : Remote svc) : Prop :=
  exists w provider rm3 rm4,
    prepared contractArtifactName constructorArguments options s l w a rm3
    /\
    truthy_bool (options ≫= upgradable) = true /\
    property l (contractName a) = proxyAddress /\
    truthy_target proxyAddress = true /\
    upgradeProxy svc w proxyAddress a
      {| up_unsafeAllow := options ≫= unsafeAllow;
         up_constructorArgs := constructorArguments |} rm3
    = (Normal tt, rm4) /\
    getProvider = Normal provider /\
    getImplementationAddress svc provider proxyAddress (elapse svc 2000 rm4)
    = (Normal implementationAddress, rm).

(** Whether the call requests the verification:
    [!options?.noVerify && hre.network.config.verifyURL]. *)
Definition verification_requested (options : option DeployContractOptions)
    : bool :=
  negb (truthy_bool (options ≫= noVerify))
  && truthy_string (network_verifyURL host).

(** [name_Implementation] is present only when [name] is. *)
Definition implementation_only_with_proxy (name : string) (l : Ledger)
    : Prop :=
  is_Some (l !! implementation_key name) -> is_Some (l !! name).

(** A call on [contractArtifactName] from state [s] that leaves the files
    [fs'] has kept the invariant: either it left the files as they were, or
    it wrote a ledger [l'] in which the name of the contract is present,
    unless the name is one of those that [slips] marks (names for which the
    ledger object does not behave as a map); every other name [n] that had
    the invariant in the loaded ledger keeps it, unless the contract is
    itself named [n_Implementation]. *)
Definition invariant_kept (slips : string -> bool)
    (contractArtifactName : string) (s : State)
    (fs' : gmap string string) : Prop :=
  fs' = files s \/
  exists l a l',
    stored_ledger s = Normal l /\
    (exists rm1,
       loadArtifact svc contractArtifactName (remote s) = (Normal a, rm1)) /\
    ledger_written (files s) l' fs' /\
    (slips (contractName a) = false ->
     is_Some (l' !! contractName a) /\
     implementation_only_with_proxy (contractName a) l') /\
    forall n,
      n <> contractName a ->
      contractName a <> implementation_key n ->
      implementation_only_with_proxy n l ->
      implementation_only_with_proxy n l'.

(** A call on [contractArtifactName] from state [s] that leaves the files
    [fs'] has written a ledger [l'] that agrees with the loaded one outside
    the two keys of the contract. *)
Definition other_entries_kept (contractArtifactName : string) (s : State)
    (fs' : gmap string string) : Prop :=
  exists l a l',
    stored_ledger s = Normal l /\
    (exists rm1,
       loadArtifact svc contractArtifactName (remote s) = (Normal a, rm1)) /\
    ledger_written (files s) l' fs' /\
    forall k,
      k <> contractName a -> k <> implementation_key (contractName a) ->
      l' !! k = l !! k.

End Orchestrator.

Arguments files {svc} s.
Arguments dirs {svc} s.
Arguments remote {svc} s.
Arguments console {svc} s.
Arguments trace {svc} s.
Arguments ret {svc A} a s.
Arguments throw {svc A} e s.
Arguments bind {svc A B} m k s.
Arguments catch {svc A} m handler s.
Arguments lift {svc A} c s.
Arguments console_log {svc} message s.
Arguments console_error {svc} message s.
Arguments external {svc A} ev call s.
Arguments writeFileSync {svc} p data s.
Arguments log {svc} options message s.
Arguments stored_ledger host {svc} s.
Arguments calls_between {svc} s s' evs.
Arguments no_submission {svc} s s'.
Arguments no_chain_call {svc} s s'.
Arguments wpo {svc A} m Q fs rm t.
Arguments after {svc A B} k Q.
Arguments handled {svc A} handler Q.

(** ** A reference host and a simulated chain, to run the scripts on

    Closed examples run the orchestrator on a host whose JSON functions
    print and parse flat objects of strings, and on a small chain simulator
    that hands out addresses from a supply. *)

Module Ref.

(** [LOCAL_RICH_WALLETS]: address and private key. *)
Definition LOCAL_RICH_WALLETS : list (string * string) :=
  [ ("0x36615Cf349d7F6344891B1e7CA7C72883F5dc049",
     "0x7726827caac94a7f9e1b160f7ea819f172f7b6f9d2a97f992c38edeab82d4110");
    ("0xa61464658AfeAf65CccaaFD3a512b69A83B77618",
     "0xac1e735be8536c6534bb4f17f06f6afc73b2b5ba84ac2cfb12f7461b20c0bbe3");
    ("0x0D43eB5B8a47bA8900d84AA36656c92024e9772e",
     "0xd293c684d884d56f8d6abd64fc76757d3664904e309a0645baf8522ab6366d9e");
    ("0xA13c10C0D5bd6f79041B9835c63f91de35A15883",
     "0x850683b40d4a740aa6e745f889a6fdc8327be76e122f5aba645a5b02d0248db8");
    ("0x8002cD98Cfb563492A6fB3E7C8243b7B9Ad4cc92",
     "0xf12e28c0eb1ef4ff90478f6805b68d63737b7f33abfa091601140805da450d93");
    ("0x4F9133D1d3F50011A6859807C837bdCB31Aaab13",
     "0xe667e57a9b8aaa6709e51ff7d093f1c5b73b63f9987e4ab4aa9a5c699e024ee8");
    ("0xbd29A1B981925B94eEc5c4F1125AF02a2Ec4d1cA",
     "0x28a574ab2de8a00364d5dd4b07c4f2f574ef7fcc2a86a197f65abaec836d1959");
    ("0xedB6F5B4aab3dD95C7806Af42881FF12BE7e9daa",
     "0x74d8b3a188f7260f67698eb44da07397a298df5427df681ef68c45b34b61f998");
    ("0xe706e60ab5Dc512C36A4646D719b889F398cbBcB",
     "0xbe79721778b48bcc679b78edac0ce48306a8578186ffcb9f2ee455ae6efeace1");
    ("0xE90E12261CCb0F3F7976Ae611A29e84a6A85f424",
     "0x3eb15da85647edd9a1159a4a13b9e7c56877c4eb33f614546d4db06a51868b1c") ].

(** The wallet of a known private key; any other key is refused. *)
Definition open_wallet (privateKey : string) (provider : Provider)
    : Completion Wallet :=
  match List.find (fun w => String.eqb (snd w) privateKey)
          LOCAL_RICH_WALLETS with
  | Some (address, _) =>
      Normal {| wallet_address := address; wallet_provider := provider |}
  | None => Throw (JsError "invalid private key")
  end.

(** Everything before the last slash. *)
Fixpoint before_last_slash (p : string) : string :=
  match p with
  | EmptyString => EmptyString
  | String c rest =>
      if includes "/" rest then String c (before_last_slash rest)
      else EmptyString
  end.

(** [path.dirname] of a POSIX path without trailing slash: the root for a
    path right under it, the current directory for a bare name. *)
Definition dirname (p : string) : string :=
  match before_last_slash p with
  | EmptyString => if String.prefix "/" p then "/" else "."
  | parent => parent
  end.

Definition quoted (s : string) : string := dq +:+ s +:+ dq.

(** [JSON.stringify(deployLog, null, 2)] for names and addresses free of
    quotes, backslashes and control characters; the keys come in the order
    of the map. *)
Definition print_ledger (deployLog : Ledger) : string :=
  match map_to_list deployLog with
  | [] => "{}"
  | entries =>
      "{" +:+ nl
      +:+ String.concat ("," +:+ nl)
            (List.map (fun kv => "  " +:+ quoted (fst kv) +:+ ": "
                                 +:+ quoted (snd kv)) entries)
      +:+ nl +:+ "}"
  end.

(** Where the parser of flat objects stands. *)
Inductive ParseState :=
| POpen
| PFirstKey
| PKey (k : string)
| PColon (k : string)
| PValue (k : string)
| PVal (k v : string)
| PNext
| PNextKey
| PClosed.

Definition is_space (c : ascii) : bool :=
  let n := nat_of_ascii c in
  (n =? 32)%nat || (n =? 10)%nat || (n =? 13)%nat || (n =? 9)%nat.

Definition is_char (c : ascii) (s : string) : bool :=
  String.eqb (String c EmptyString) s.

Definition snoc (s : string) (c : ascii) : string :=
  s +:+ String c EmptyString.

Fixpoint parse_from (st : ParseState) (acc : Ledger) (text : string)
    : option Ledger :=
  match text with
  | EmptyString =>
      match st with
      | PClosed => Some acc
      | _ => None
      end
  | String c rest =>
      match st with
      | POpen =>
          if is_space c then parse_from POpen acc rest
          else if is_char c "{" then parse_from PFirstKey acc rest
          else None
      | PFirstKey =>
          if is_space c then parse_from PFirstKey acc rest
          else if is_char c "}" then parse_from PClosed acc rest
          else if is_char c dq then parse_from (PKey "") acc rest
          else None
      | PKey k =>
          if is_char c dq then parse_from (PColon k) acc rest
          else if is_char c "\" then None
          else parse_from (PKey (snoc k c)) acc rest
      | PColon k =>
          if is_space c then parse_from (PColon k) acc rest
          else if is_char c ":" then parse_from (PValue k) acc rest
          else None
      | PValue k =>
          if is_space c then parse_from (PValue k) acc rest
          else if is_char c dq then parse_from (PVal k "") acc rest
          else None
      | PVal k v =>
          if is_char c dq then parse_from PNext (<[k := v]> acc) rest
          else if is_char c "\" then None
          else parse_from (PVal k (snoc v c)) acc rest
      | PNext =>
          if is_space c then parse_from PNext acc rest
          else if is_char c "," then parse_from PNextKey acc rest
          else if is_char c "}" then parse_from PClosed acc rest
          else None
      | PNextKey =>
          if is_space c then parse_from PNextKey acc rest
          else if is_char c dq then parse_from (PKey "") acc rest
          else None
      | PClosed =>
          if is_space c then parse_from PClosed acc rest else None
      end
  end.

(** [JSON.parse] on the text of a flat object of strings without escape
    sequences; on anything else, the syntax error. *)
Definition parse_ledger (text : string) : Completion Ledger :=
  match parse_from POpen ∅ text with
  | Some deployLog => Normal deployLog
  | None => Throw (JsError "Unexpected token in JSON")
  end.

Definition stringify_arg (a : Arg) : Completion string :=
  match a with
  | ArgString s => Normal (quoted s)
  | ArgBool true => Normal "true"
  | ArgBool false => Normal "false"
  | ArgBigInt _ => Throw (JsError "Do not know how to serialize a BigInt")
  end.

Fixpoint stringify_arg_list (l : list Arg) : Completion (list string) :=
  match l with
  | [] => Normal []
  | a :: rest =>
      match stringify_arg a with
      | Normal s =>
          match stringify_arg_list rest with
          | Normal ss => Normal (("  " +:+ s) :: ss)
          | Throw e => Throw e
          end
      | Throw e => Throw e
      end
  end.

(** [JSON.stringify(constructorArguments, null, 2)] in a template string. *)
Definition print_args (args : option (list Arg))
    : Completion string :=
  match args with
  | None => Normal "undefined"
  | Some [] => Normal "[]"
  | Some l =>
      match stringify_arg_list l with
      | Normal ss =>
          Normal ("[" +:+ nl +:+ String.concat ("," +:+ nl) ss +:+ nl +:+ "]")
      | Throw e => Throw e
      end
  end.

(** [ethers.formatEther] of a non-negative amount of wei: the whole part,
    and the 18 decimals without their trailing zeros. *)
Fixpoint strip_zeros (fuel : nat) (frac : Z) : Z :=
  match fuel with
  | O => frac
  | S fuel' =>
      if (frac mod 10 =? 0)%Z then strip_zeros fuel' (frac / 10)%Z else frac
  end.

Fixpoint kept_digits (fuel : nat) (frac : Z) : nat :=
  match fuel with
  | O => 18
  | S fuel' =>
      if (frac mod 10 =? 0)%Z then
        Nat.pred (kept_digits fuel' (frac / 10)%Z)
      else 18
  end.

Fixpoint zeros (n : nat) : string :=
  match n with
  | O => EmptyString
  | S n' => String "0" (zeros n')
  end.

Definition format_ether (wei : Z) : string :=
  let whole := (wei / 10 ^ 18)%Z in
  let frac := (wei mod 10 ^ 18)%Z in
  if (frac =? 0)%Z then bigint_toString whole +:+ ".0"
  else
    let digits := bigint_toString (strip_zeros 17 frac) in
    bigint_toString whole +:+ "."
    +:+ zeros (kept_digits 17 frac - String.length digits) +:+ digits.

(** [encode_no_args] of a contract whose constructor takes no argument. *)
Definition encode_no_args (_ : Abi) (args : option (list Arg))
    : Completion string :=
  match args with
  | None | Some [] => Normal "0x"
  | Some _ =>
      Throw (JsError "incorrect number of arguments to constructor")
  end.

(** The host of the examples: network [testnet]. *)
Definition host (verifyURL : option string) : Host :=
  {| zkLinkRoot := "/zklink";
     path_dirname := dirname;
     JSON_parse := parse_ledger;
     JSON_stringify := print_ledger;
     JSON_stringify_args := print_args;
     formatEther := format_ether;
     encodeDeploy := encode_no_args;
     Wallet_new := open_wallet;
     network_name := "testnet";
     network_url := Some "http://127.0.0.1:8011";
     network_verifyURL := verifyURL;
     env_WALLET_PRIVATE_KEY :=
       Some "0x7726827caac94a7f9e1b160f7ea819f172f7b6f9d2a97f992c38edeab82d4110";
     inspect_member := fun member => "[Function: " +:+ member +:+ "]";
     getAddress_of :=
       fun _ => Throw (JsError "unsupported addressable value") |}.

(** The simulated chain. *)
Record Chain := {
  compiled : list Artifact;
  fee : Z;
  balance : Z;
  supply : list string;
  implementations : gmap string string;
  explorer_up : bool;
}.

(** The error of Hardhat for a contract that was not compiled. *)
Definition HH700 (name : string) : JsValue :=
  JsError ("HH700: Artifact for contract " +:+ quoted name
           +:+ " not found. ").

Definition resolve (name : string) (ch : Chain)
    : Completion Artifact * Chain :=
  match List.find (fun a => String.eqb (contractName a) name)
          (compiled ch) with
  | Some a => (Normal a, ch)
  | None => (Throw (HH700 name), ch)
  end.

Definition spend (addresses : nat) (ch : Chain) : Chain :=
  {| compiled := compiled ch; fee := fee ch;
     balance := (balance ch - fee ch)%Z;
     supply := List.skipn addresses (supply ch);
     implementations := implementations ch;
     explorer_up := explorer_up ch |}.

Definition set_implementation (proxy impl : string) (ch : Chain) : Chain :=
  {| compiled := compiled ch; fee := fee ch; balance := balance ch;
     supply := supply ch;
     implementations := <[proxy := impl]> (implementations ch);
     explorer_up := explorer_up ch |}.

Definition deploy_plain (_ : Wallet) (a : Artifact) (_ : option (list Arg))
    (ch : Chain) : Completion Contract * Chain :=
  match supply ch with
  | address :: _ =>
      (Normal {| contract_address := address; contract_interface := abi a |},
       spend 1 ch)
  | [] => (Throw (JsError "transaction rejected"), ch)
  end.

Definition deploy_proxy (_ : Wallet) (a : Artifact) (_ : option (list Arg))
    (_ : DeployProxyOptions) (ch : Chain) : Completion Contract * Chain :=
  match supply ch with
  | impl :: proxy :: _ =>
      (Normal {| contract_address := proxy; contract_interface := abi a |},
       set_implementation proxy impl (spend 2 ch))
  | _ => (Throw (JsError "transaction rejected"), ch)
  end.

(** The chain knows address strings only: whatever else it is given is
    no proxy. *)
Definition registered (ch : Chain) (proxy : Target) : option string :=
  match proxy with
  | Address address => implementations ch !! address
  | _ => None
  end.

Definition upgrade_proxy (_ : Wallet) (proxyAddress : Target) (_ : Artifact)
    (_ : UpgradeProxyOptions) (ch : Chain) : Completion unit * Chain :=
  match proxyAddress, registered ch proxyAddress, supply ch with
  | Address address, Some _, impl :: _ =>
      (Normal tt, set_implementation address impl (spend 1 ch))
  | _, _, _ => (Throw (JsError "transaction rejected"), ch)
  end.

Definition implementation_of (_ : Provider) (address : Target)
    (ch : Chain) : Completion string * Chain :=
  match registered ch address with
  | Some impl => (Normal impl, ch)
  | None => (Throw (JsError "not an ERC1967 proxy"), ch)
  end.

Definition verify (_ : VerifyArgs) (ch : Chain) : Completion Z * Chain :=
  if explorer_up ch then (Normal 1%Z, ch)
  else (Throw (JsError "verification request failed"), ch).

Definition services : Services :=
  {| Remote := Chain;
     loadArtifact := resolve;
     estimateDeployFee := fun _ _ _ ch => (Normal (fee ch), ch);
     getBalance := fun _ ch => (Normal (balance ch), ch);
     deploy := deploy_plain;
     deployProxy := deploy_proxy;
     upgradeProxy := upgrade_proxy;
     getImplementationAddress := implementation_of;
     getContractAt := fun _ _ ch => (Normal tt, ch);
     run_verify := verify;
     elapse := fun _ ch => ch |}.

Definition Token : Artifact :=
  {| contractName := "Token"; sourceName := "contracts/Token.sol";
     abi := "[]"; bytecode := "0x00" |}.

(** A chain with [Token] compiled, a fee of 5 wei and four free addresses. *)
Definition chain (funds : Z) (explorer : bool) : Chain :=
  {| compiled := [Token]; fee := 5; balance := funds;
     supply := ["0xA1"; "0xA2"; "0xA3"; "0xA4"];
     implementations := ∅; explorer_up := explorer |}.

(** A state with the given files and nothing printed or called yet. *)
Definition state (fs : gmap string string) (ch : Chain) : State services :=
  Build_State services fs ∅ ch [] [].

(** The first rich wallet, which the host's private key opens. *)
Definition rich : Wallet :=
  {| wallet_address := "0x36615Cf349d7F6344891B1e7CA7C72883F5dc049";
     wallet_provider := "http://127.0.0.1:8011" |}.

Definition testnet_log : string := "/zklink/log/testnet.log".

(** A funded wallet and no ledger yet. *)
Definition fresh (explorer : bool) : State services :=
  state ∅ (chain 100 explorer).

(** A wallet that cannot pay the fee. *)
Definition poor : State services := state ∅ (chain 3 true).

(** The ledger and the chain after an upgradable deployment of [Token]:
    proxy [0xA2], implementation [0xA1]. *)
Definition proxy_ledger : Ledger :=
  <["Token_Implementation" := "0xA1"]> (<["Token" := "0xA2"]> ∅).

Definition with_proxy : State services :=
  state (<[testnet_log := print_ledger proxy_ledger]> ∅)
    {| compiled := [Token]; fee := 5; balance := 95;
       supply := ["0xA3"; "0xA4"];
       implementations := <["0xA2" := "0xA1"]> ∅; explorer_up := true |}.

(** The ledger after a further, plain deployment of [Token] at [0xA3]. *)
Definition redeployed_ledger : Ledger := <["Token" := "0xA3"]> proxy_ledger.

(** The ledger after an upgrade of the proxy to [0xA3]. *)
Definition upgraded_ledger : Ledger :=
  <["Token_Implementation" := "0xA3"]> proxy_ledger.

Definition explorer : option string := Some "https://explorer.test".

Definition quiet : option DeployContractOptions :=
  Some {| silent := Some true; noVerify := None; wallet := None;
          upgradable := None; kind := None; unsafeAllow := None |}.

Definition quiet_proxy : option DeployContractOptions :=
  Some {| silent := Some true; noVerify := None; wallet := None;
          upgradable := Some true; kind := Some uups; unsafeAllow := None |}.

End Ref.

(** * The rest of deploy/utils.ts *)

Section Verification.

Variable host : Host.
Variable svc : Services.

Notation "'do' x <- m ; k" := (bind m (fun x => k))
  (at level 60, x name, m at next level, right associativity).

(** [verifyContractByName]: it has no options, reads no ledger, and always
    requests the verification. *)
Definition verifyContractByName (proxyAddress contractArtifactName : string)
    (constructorArguments : option (list Arg)) : M svc unit :=
  do wallet <- lift (getWallet host None);
  do artifact <-
    catch
      (external (EvLoadArtifact contractArtifactName)
         (loadArtifact svc contractArtifactName))
      (fun error =>
         if artifact_not_found contractArtifactName error then
           do _ <- console_error (default "" (message_of error));
           throw ArtifactNotFound_upgrade
         else throw error);
  let contractName := contractName artifact in
  do _ <- console_log ("proxyAddress " +:+ proxyAddress);
  if negb (truthy_string (Some proxyAddress)) then throw ProxyNotFound
  else
    do provider <- lift (getProvider host);
    do implementationAddress <-
      external (EvGetImplementationAddress proxyAddress)
        (getImplementationAddress svc provider proxyAddress);
    do _ <- console_log (nl +:+ "New implementation address: "
                         +:+ implementationAddress);
    do _ <- external (EvGetContractAt proxyAddress)
              (getContractAt svc (abi artifact) proxyAddress);
    let contract :=
      {| contract_address := proxyAddress;
         contract_interface := abi artifact |} in
    let address := contract_address contract in
    do constructorArgs <-
      lift (encodeDeploy host (contract_interface contract)
              constructorArguments);
    let fullContractSource :=
      sourceName artifact +:+ ":" +:+ contractName in
    do _ <- console_log (nl +:+ dq +:+ contractName +:+ dq
                         +:+ " was successfully deployed:");
    do _ <- console_log (" - Contract address: " +:+ address);
    do _ <- console_log (" - Contract source: " +:+ fullContractSource);
    do _ <- console_log (" - Encoded constructor arguments: "
                         +:+ constructorArgs +:+ nl);
    do _ <- console_log "Requesting contract verification...";
    do _ <- verifyContract svc address fullContractSource constructorArgs
              (bytecode artifact);
    ret tt.

(** ** Reading the runs *)

(** The calls to the verification service. *)
Definition is_verification (e : Event) : bool :=
  match e with
  | EvVerify _ => true
  | _ => false
  end.

(** The three kinds of submission: [deployer.deploy], [deployProxy] and
    [upgradeProxy]. *)
Definition is_plain_deployment (e : Event) : bool :=
  match e with
  | EvDeploy _ => true
  | _ => false
  end.

Definition is_proxy_deployment (e : Event) : bool :=
  match e with
  | EvDeployProxy _ => true
  | _ => false
  end.

Definition is_proxy_upgrade (e : Event) : bool :=
  match e with
  | EvUpgradeProxy _ _ => true
  | _ => false
  end.

(** The options with [silent] replaced and every other field as it was. *)
Definition with_silent (b : option bool)
    (options : option DeployContractOptions)
    : option DeployContractOptions :=
  Some {| silent := b;
          noVerify := options ≫= noVerify;
          wallet := options ≫= wallet;
          upgradable := options ≫= upgradable;
          kind := options ≫= kind;
          unsafeAllow := options ≫= unsafeAllow |}.

(** Two states that differ in what was printed at most. *)
Definition same_but_console (s1 s2 : State svc) : Prop :=
  files s1 = files s2 /\ dirs s1 = dirs s2 /\
  remote s1 = remote s2 /\ trace s1 = trace s2.

(** Two scripts that, from states that differ in the console at most,
    complete alike and leave states that differ in the console at most. *)
Definition agree {A} (m1 m2 : M svc A) : Prop :=
  forall s1 s2,
    same_but_console s1 s2 ->
    (m1 s1).1 = (m2 s2).1 /\ same_but_console (m1 s1).2 (m2 s2).2.

(** The three calls that open every deployment or upgrade, the latest
    first. *)
Definition preparatory (contractArtifactName : string)
    (evs : list Event) : Prop :=
  exists w a,
    evs = [EvGetBalance w; EvEstimateDeployFee a;
           EvLoadArtifact contractArtifactName].

(** In the calls [evs] (the latest first) the latest submission, if there
    is one, comes right after the three preparatory calls and nothing
    else: it is the only submission and the balance was read before it. *)
Fixpoint submits_once_guarded (contractArtifactName : string)
    (evs : list Event) : Prop :=
  match evs with
  | [] => True
  | e :: older =>
      if is_submission e then preparatory contractArtifactName older
      else submits_once_guarded contractArtifactName older
  end.

End Verification.

Arguments same_but_console {svc} s1 s2.
Arguments agree {svc A} m1 m2.

(** * The minting scripts: deploy/interact.ts and its two siblings

    Each script file checks the contract address when it is loaded, and its
    default export then checks the key of the witness signer, builds the
    contract instance on the wallet of [getWallet], reads the balance of
    the account, and mints: one token of a random character (NovaNFT),
    twelve tokens (MysteryBoxNFT), or the four trademarks (TrademarkNFT).
    Every mint is signed by [getSignature], awaited, and followed by a
    reading of the balance. *)

Module Scripts.

(** The variables of [process.env] that the scripts read. *)
Record Env := {
  WITNESS_SINGER_PRIVATE_KEY : option string;
  CONTRACT_ADDRESS : option string;
  ACCOUNT_ADDRESS : option string;
  TRADEMARK_CONTRACT_ADDRESS : option string;
}.

(** [new ethers.Contract(address, abi, wallet)] *)
Record Instance := {
  target : string;
  interface : Abi;
  runner : Wallet;
}.

(** A submitted transaction: [transaction.hash]. *)
Record Transaction := {
  hash : string;
}.

(** The value of [(Math.random() * 4) | 0]: an index from 0 to 3. *)
Inductive Quarter := Q0 | Q1 | Q2 | Q3.

(** What the scripts are given: the environment, the host of the
    orchestrator (for [getWallet]) and the signer.  [getSignature] is
    defined in deploy/witness.ts, which is not among the sources: it is a
    parameter here, taking the account, the category and the key, and it
    may throw. *)
Record Deps := {
  env : Env;
  host : Host;
  getSignature : option string -> string -> string -> Completion string;
}.

(** The artifacts of Hardhat, the deployed contract and the source of
    randomness, with a state of their own. *)
Record Gateway := {
  Net : Type;
  (** [hre.artifacts.readArtifact] *)
  readArtifact : string -> Net -> Completion Artifact * Net;
  (** [contract.balanceOf(account)] *)
  balanceOf : Instance -> option string -> Net -> Completion Z * Net;
  (** [contract["safeMint(address,string,bytes)"](account, label, sig)] *)
  safeMint_labelled :
    Instance -> option string -> string -> string -> Net ->
    Completion Transaction * Net;
  (** [contract["safeMint(address,bytes)"](account, sig)] *)
  safeMint_plain :
    Instance -> option string -> string -> Net ->
    Completion Transaction * Net;
  (** [transaction.wait()] *)
  wait : Transaction -> Net -> Completion unit * Net;
  (** [(Math.random() * 4) | 0] *)
  random_quarter : Net -> Quarter * Net;
}.

(** A call to the gateway, as the scripts' trace records it.  A mint
    records the label it mints, if it has one, and the signature. *)
Inductive Call :=
| CReadArtifact (name : string)
| CBalanceOf (account : option string)
| CSafeMint (account : option string) (label : option string)
    (signature : string)
| CWait (transaction : Transaction).

Definition is_mint (c : Call) : bool :=
  match c with
  | CSafeMint _ _ _ => true
  | _ => false
  end.

Definition is_wait (c : Call) : bool :=
  match c with
  | CWait _ => true
  | _ => false
  end.

(** The label of a mint. *)
Definition label_of (c : Call) : option string :=
  match c with
  | CSafeMint _ label _ => label
  | _ => None
  end.

Section Run.

Variable deps : Deps.
Variable gw : Gateway.

(** [printed] and [calls] hold the most recent entry first. *)
Record World := {
  net : Net gw;
  printed : list ConsoleLine;
  calls : list Call;
}.

Definition Run (A : Type) : Type := World -> Completion A * World.

Definition pure {A} (a : A) : Run A := fun s => (Normal a, s).

Definition raise {A} (e : JsValue) : Run A := fun s => (Throw e, s).

Definition attempt {A} (c : Completion A) : Run A := fun s => (c, s).

Definition seq {A B} (m : Run A) (k : A -> Run B) : Run B :=
  fun s =>
    match m s with
    | (Normal a, s') => k a s'
    | (Throw e, s') => (Throw e, s')
    end.

Notation "'do' x <- m ; k" := (seq m (fun x => k))
  (at level 60, x name, m at next level, right associativity).

Definition print (message : string) : Run unit :=
  fun s =>
    (Normal tt,
     {| net := net s; printed := StdOut message :: printed s;
        calls := calls s |}).

(** An awaited call to the gateway. *)
Definition await {A} (c : Call)
    (call : Net gw -> Completion A * Net gw) : Run A :=
  fun s =>
    let (r, net') := call (net s) in
    (r, {| net := net'; printed := printed s; calls := c :: calls s |}).

Definition random : Run Quarter :=
  fun s =>
    let (q, net') := random_quarter gw (net s) in
    (Normal q, {| net := net'; printed := printed s; calls := calls s |}).

(** [for (let i = 0; i < n; i++) body] *)
Fixpoint times (n : nat) (body : Run unit) : Run unit :=
  match n with
  | O => pure tt
  | S n' => do _ <- body; times n' body
  end.

(** [for (let i = 0; i < items.length; i++) body(items[i])] *)
Fixpoint for_each (items : list string) (body : string -> Run unit)
    : Run unit :=
  match items with
  | [] => pure tt
  | item :: rest => do _ <- body item; for_each rest body
  end.

(** The guard that each file runs when it is loaded:
    [if (!CONTRACT_ADDRESS) throw ...]. *)
Definition module_guard (address : option string) : Completion string :=
  if negb (truthy_string address) then
    Throw (JsString "⛔️ Provide address of the contract to interact with!")
  else Normal (default "" address).

(** [`${accountAddress}`] *)
Definition show_account (account : option string) : string :=
  default "undefined" account.

(** The steps that follow every mint: print the hash, wait for the
    transaction, read and print the balance. *)
Definition settle (contract : Instance) (account : option string)
    (transaction : Transaction) : Run unit :=
  do _ <- print ("Transaction hash of setting new message: "
                 +:+ hash transaction);
  do _ <- await (CWait transaction) (wait gw transaction);
  do balance <- await (CBalanceOf account) (balanceOf gw contract account);
  do _ <- print ("The balance now is: " +:+ bigint_toString balance);
  pure tt.

(** [process.env.WITNESS_SINGER_PRIVATE_KEY || ""] *)
Definition witness_key : string :=
  default "" (WITNESS_SINGER_PRIVATE_KEY (env deps)).

Definition characters : list string := ["ISTP"; "ESFJ"; "INFJ"; "ENTP"].

Definition quarter_index (q : Quarter) : nat :=
  match q with
  | Q0 => 0
  | Q1 => 1
  | Q2 => 2
  | Q3 => 3
  end.

(** [characters[q]] *)
Definition character_at (q : Quarter) : string :=
  default "undefined" (characters !! quarter_index q).

(** deploy/interact.ts: the address of the contract and the account are
    literals. *)
Definition interact_NovaNFT : Run unit :=
  do CONTRACT_ADDRESS <-
    attempt (module_guard
               (Some "0xF2fe005206cF81C149EbB2D40A294F5Ac59D9E6D"));
  let accountAddress := Some "0xe269B18099A71599994312757fEf8DEBE7518C31" in
  do _ <- print ("Running script to interact with contract "
                 +:+ CONTRACT_ADDRESS);
  if negb (truthy_string (WITNESS_SINGER_PRIVATE_KEY (env deps))) then
    raise (JsString "⛔️ Provide WITNESS_SINGER_PRIVATE_KEY")
  else
    do contractArtifact <-
      await (CReadArtifact "NovaNFT") (readArtifact gw "NovaNFT");
    do wallet <- attempt (getWallet (host deps) None);
    let contract :=
      {| target := CONTRACT_ADDRESS; interface := abi contractArtifact;
         runner := wallet |} in
    do response <-
      await (CBalanceOf accountAddress)
        (balanceOf gw contract accountAddress);
    do _ <- print ("Current Balance is: " +:+ bigint_toString response);
    do q <- random;
    let character := character_at q in
    do _ <- print ("Minting: " +:+ character);
    do signature <-
      attempt (getSignature deps accountAddress "NOVA-SBT-1" witness_key);
    do transaction <-
      await (CSafeMint accountAddress (Some character) signature)
        (safeMint_labelled gw contract accountAddress character signature);
    settle contract accountAddress transaction.

(** The sibling script for MysteryBoxNFT: twelve mints. *)
Definition interact_MysteryBoxNFT : Run unit :=
  do CONTRACT_ADDRESS <-
    attempt (module_guard (CONTRACT_ADDRESS (env deps)));
  let accountAddress := ACCOUNT_ADDRESS (env deps) in
  do _ <- print ("Running script to interact with contract "
                 +:+ CONTRACT_ADDRESS);
  if negb (truthy_string (WITNESS_SINGER_PRIVATE_KEY (env deps))) then
    raise (JsString "⛔️ Provide WITNESS_SINGER_PRIVATE_KEY")
  else
    do contractArtifact <-
      await (CReadArtifact "MysteryBoxNFT")
        (readArtifact gw "MysteryBoxNFT");
    do wallet <- attempt (getWallet (host deps) None);
    let contract :=
      {| target := CONTRACT_ADDRESS; interface := abi contractArtifact;
         runner := wallet |} in
    do response <-
      await (CBalanceOf accountAddress)
        (balanceOf gw contract accountAddress);
    do _ <- print ("Current Balance for account "
                   +:+ show_account accountAddress +:+ " is: "
                   +:+ bigint_toString response);
    times 12
      (do signature <-
         attempt (getSignature deps accountAddress "NOVA-MYSTERY-BOX-1"
                    witness_key);
       do transaction <-
         await (CSafeMint accountAddress None signature)
           (safeMint_plain gw contract accountAddress signature);
       settle contract accountAddress transaction).

Definition trademarks : list string := ["0"; "1"; "2"; "3"].

(** The sibling script for TrademarkNFT: one mint for each trademark. *)
Definition interact_TrademarkNFT : Run unit :=
  do CONTRACT_ADDRESS <-
    attempt (module_guard (TRADEMARK_CONTRACT_ADDRESS (env deps)));
  let accountAddress := ACCOUNT_ADDRESS (env deps) in
  do _ <- print ("Running script to interact with contract "
                 +:+ CONTRACT_ADDRESS);
  if negb (truthy_string (WITNESS_SINGER_PRIVATE_KEY (env deps))) then
    raise (JsString "⛔️ Provide WITNESS_SINGER_PRIVATE_KEY")
  else
    do contractArtifact <-
      await (CReadArtifact "TrademarkNFT") (readArtifact gw "TrademarkNFT");
    do wallet <- attempt (getWallet (host deps) None);
    let contract :=
      {| target := CONTRACT_ADDRESS; interface := abi contractArtifact;
         runner := wallet |} in
    do response <-
      await (CBalanceOf accountAddress)
        (balanceOf gw contract accountAddress);
    do _ <- print ("Current Balance for account "
                   +:+ show_account accountAddress +:+ " is: "
                   +:+ bigint_toString response);
    for_each trademarks
      (fun trademark =>
         do signature <-
           attempt (getSignature deps accountAddress "NOVA-TradeMark-1"
                      witness_key);
         do transaction <-
           await (CSafeMint accountAddress (Some trademark) signature)
             (safeMint_labelled gw contract accountAddress trademark
                signature);
         settle contract accountAddress transaction).

(** ** Reading the runs *)

(** The calls that a run from [s] to [s'] made, the latest first. *)
Definition made (s s' : World) (cs : list Call) : Prop :=
  calls s' = (cs ++ calls s)%list.

(** The number of mints among the calls. *)
Definition mints (cs : list Call) : nat :=
  length (filter (fun c => is_mint c = true) cs).

(** The number of waits among the calls. *)
Definition waits (cs : list Call) : nat :=
  length (filter (fun c => is_wait c = true) cs).

(** In [cs] (the latest first) every mint that is followed by a call is
    followed by a wait. *)
Fixpoint awaited (cs : list Call) : bool :=
  match cs with
  | newer :: (older :: _) as rest =>
      (if is_mint older then is_wait newer else true) && awaited rest
  | _ => true
  end.

(** The labels that were minted, the first one first. *)
Definition minted_labels (cs : list Call) : list string :=
  omap label_of (rev cs).

(** The latest call of [cs], if there is one, is not a mint. *)
Definition settled (cs : list Call) : Prop :=
  match cs with
  | c :: _ => is_mint c = false
  | [] => True
  end.

(** What a script has called: every mint is awaited before the next
    call, is made for the account and carries the signature; there are no
    more waits than mints. *)
Definition sequenced (account : option string) (signed : Completion string)
    (cs : list Call) : Prop :=
  awaited cs = true /\
  (waits cs <= mints cs)%nat /\
  forall a lab sig,
    CSafeMint a lab sig ∈ cs -> a = account /\ signed = Normal sig.

(** What a script that was to mint [n] times, the labels [items] in
    order, has called: the mints are sequenced, there are at most [n], their
    labels are the first of [items], and a script that completed made them
    all. *)
Definition outcome (account : option string) (signed : Completion string)
    (n : nat) (items : list string) (r : Completion unit) (cs : list Call)
    : Prop :=
  sequenced account signed cs /\
  (mints cs <= n)%nat /\
  minted_labels cs `prefix_of` items /\
  forall u, r = Normal u ->
    mints cs = n /\ waits cs = n /\ minted_labels cs = items.

(** What one round of minting may have called, the latest first: nothing
    when the signature threw, else the mint, then the wait, then the
    balance; all three when the round completed. *)
Definition round_calls (account label : option string)
    (signed : Completion string) (r : Completion unit) (cs : list Call)
    : Prop :=
  match r with
  | Normal _ =>
      exists signature transaction,
        signed = Normal signature /\
        cs = [CBalanceOf account; CWait transaction;
              CSafeMint account label signature]
  | Throw _ =>
      cs = [] \/
      exists signature,
        signed = Normal signature /\
        (cs = [CSafeMint account label signature] \/
         exists transaction,
           cs = [CWait transaction; CSafeMint account label signature] \/
           cs = [CBalanceOf account; CWait transaction;
                 CSafeMint account label signature])
  end.

End Run.

End Scripts.

(** ** Further cases on the reference chain, and a gateway for the scripts *)

Module Cases.

(** A ledger whose entry for [Token] is the empty string. *)
Definition empty_entry_ledger : Ledger := <["Token" := ""]> ∅.

Definition empty_entry : State Ref.services :=
  Ref.state
    (<[Ref.testnet_log := Ref.print_ledger empty_entry_ledger]> ∅)
    (Ref.chain 100 true).

(** A ledger file that is not JSON. *)
Definition garbled : State Ref.services :=
  Ref.state (<[Ref.testnet_log := "garbled"]> ∅) (Ref.chain 100 true).

(** A constructor argument, which [Token] does not take. *)
Definition one_argument : option (list Arg) := Some [ArgBool true].

(** The chain of [Ref.with_proxy], and what it is after the upgrade of the
    proxy [0xA2] to the implementation [0xA3]. *)
Definition proxy_chain : Ref.Chain := remote Ref.with_proxy.

Definition upgraded_chain : Ref.Chain :=
  Ref.set_implementation "0xA2" "0xA3" (Ref.spend 1 proxy_chain).

(** The state of [Ref.with_proxy] with a wallet that cannot pay the fee. *)
Definition poor_chain : Ref.Chain :=
  {| Ref.compiled := [Ref.Token]; Ref.fee := 5; Ref.balance := 3;
     Ref.supply := ["0xA3"; "0xA4"];
     Ref.implementations := <["0xA2" := "0xA1"]> ∅;
     Ref.explorer_up := true |}.

Definition poor_proxy : State Ref.services :=
  Ref.state (files Ref.with_proxy) poor_chain.

(** The ledger of [Ref.with_proxy] with the two entries of another
    contract, [Vault]. *)
Definition shared_ledger : Ledger :=
  <["Vault_Implementation" := "0xB0"]> (<["Vault" := "0xB1"]>
    Ref.proxy_ledger).

Definition shared : State Ref.services :=
  Ref.state (<[Ref.testnet_log := Ref.print_ledger shared_ledger]> ∅)
    proxy_chain.

(** An artifact of the given name. *)
Definition compiled (name : string) : Artifact :=
  {| contractName := name; sourceName := "contracts/" +:+ name +:+ ".sol";
     abi := "[]"; bytecode := "0x00" |}.

(** A chain on which contracts named [toString] and [__proto__] are
    compiled beside [Token], and a network without ledger on it. *)
Definition odd_chain : Ref.Chain :=
  {| Ref.compiled := [Ref.Token; compiled "toString"; compiled "__proto__"];
     Ref.fee := 5; Ref.balance := 100;
     Ref.supply := ["0xA1"; "0xA2"; "0xA3"; "0xA4"];
     Ref.implementations := ∅; Ref.explorer_up := true |}.

Definition odd : State Ref.services := Ref.state ∅ odd_chain.

(** The log directory of a network whose name holds a slash. *)
Definition nested : string := "staging/eu".

(** A collection that mints while its supply lasts, and a source of
    randomness that goes round the four quarters. *)
Record Collection := {
  held : Z;
  remaining : nat;
  draws : nat;
}.

Definition mint (c : Collection)
    : Completion Scripts.Transaction * Collection :=
  match remaining c with
  | O => (Throw (JsError "execution reverted"), c)
  | S rest =>
      (Normal {| Scripts.hash := "0x" +:+ bigint_toString (held c) |},
       {| held := held c + 1; remaining := rest; draws := draws c |})
  end.

Definition draw (c : Collection) : Scripts.Quarter * Collection :=
  (match (draws c mod 4)%nat with
   | 0%nat => Scripts.Q0
   | 1%nat => Scripts.Q1
   | 2%nat => Scripts.Q2
   | _ => Scripts.Q3
   end,
   {| held := held c; remaining := remaining c; draws := S (draws c) |}).

Definition gateway : Scripts.Gateway :=
  {| Scripts.Net := Collection;
     Scripts.readArtifact := fun name c => (Normal (compiled name), c);
     Scripts.balanceOf := fun _ _ c => (Normal (held c), c);
     Scripts.safeMint_labelled := fun _ _ _ _ c => mint c;
     Scripts.safeMint_plain := fun _ _ _ c => mint c;
     Scripts.wait := fun _ c => (Normal tt, c);
     Scripts.random_quarter := draw |}.

Definition sign (account : option string) (category key : string)
    : Completion string :=
  Normal ("signed " +:+ category).

Definition configured : Scripts.Env :=
  {| Scripts.WITNESS_SINGER_PRIVATE_KEY := Some "0x01";
     Scripts.CONTRACT_ADDRESS := Some "0xB0";
     Scripts.ACCOUNT_ADDRESS := Some "0xAC";
     Scripts.TRADEMARK_CONTRACT_ADDRESS := Some "0x70" |}.

Definition unconfigured : Scripts.Env :=
  {| Scripts.WITNESS_SINGER_PRIVATE_KEY := None;
     Scripts.CONTRACT_ADDRESS := None;
     Scripts.ACCOUNT_ADDRESS := None;
     Scripts.TRADEMARK_CONTRACT_ADDRESS := None |}.

Definition deps (e : Scripts.Env) : Scripts.Deps :=
  {| Scripts.env := e; Scripts.host := Ref.host None;
     Scripts.getSignature := sign |}.

(** Nothing printed or called yet, and [supply] tokens left to mint. *)
Definition world (supply : nat) : Scripts.World gateway :=
  Scripts.Build_World gateway
    {| held := 0; remaining := supply; draws := 0 |} [] [].

End Cases.

(** * Reasoning rules *)

Section Rules.

Variable host : Host.
Variable svc : Services.

Local Abbreviation M := (M svc).
Local Abbreviation Post := (Post svc).

Lemma wpo_run {A} (m : M A) (Q : Post A) s :
  wpo m Q (files s) (remote s) (trace s) ->
  Q (m s).1 (files (m s).2) (remote (m s).2) (trace (m s).2).
Proof. intros H. now apply H. Qed.

Lemma wpo_ret {A} (a : A) (Q : Post A) fs rm t :
  Q (Normal a) fs rm t -> wpo (ret a) Q fs rm t.
Proof. intros H s <- <- <-. exact H. Qed.

Lemma wpo_throw {A} e (Q : Post A) fs rm t :
  Q (Throw e) fs rm t -> wpo (throw e) Q fs rm t.
Proof. intros H s <- <- <-. exact H. Qed.

Lemma wpo_lift {A} (c : Completion A) (Q : Post A) fs rm t :
  Q c fs rm t -> wpo (lift c) Q fs rm t.
Proof. intros H s <- <- <-. exact H. Qed.

Lemma wpo_bind {A B} (m : M A) (k : A -> M B) (Q : Post B) fs rm t :
  wpo m (after k Q) fs rm t -> wpo (bind m k) Q fs rm t.
Proof.
  intros H s Hf Hr Ht. specialize (H s Hf Hr Ht).
  unfold bind. destruct (m s) as [[a|e] s1]; simpl in *.
  - now apply H.
  - exact H.
Qed.

Lemma wpo_catch {A} (m : M A) handler (Q : Post A) fs rm t :
  wpo m (handled handler Q) fs rm t ->
  wpo (catch m handler) Q fs rm t.
Proof.
  intros H s Hf Hr Ht. specialize (H s Hf Hr Ht).
  unfold catch. destruct (m s) as [[a|e] s1]; simpl in *.
  - exact H.
  - now apply H.
Qed.

Lemma wpo_console_log msg (Q : Post unit) fs rm t :
  Q (Normal tt) fs rm t -> wpo (console_log msg) Q fs rm t.
Proof. intros H s <- <- <-. exact H. Qed.

Lemma wpo_console_error msg (Q : Post unit) fs rm t :
  Q (Normal tt) fs rm t -> wpo (console_error msg) Q fs rm t.
Proof. intros H s <- <- <-. exact H. Qed.

Lemma wpo_log options msg (Q : Post unit) fs rm t :
  Q (Normal tt) fs rm t -> wpo (log options msg) Q fs rm t.
Proof.
  intros H. unfold log.
  destruct (negb _); [now apply wpo_console_log | now apply wpo_ret].
Qed.

Lemma wpo_external {A} ev (call : Remote svc -> Completion A * Remote svc)
    (Q : Post A) fs rm t :
  Q (call rm).1 fs (call rm).2 (ev :: t) ->
  wpo (external ev call) Q fs rm t.
Proof.
  intros H s <- <- <-. unfold external.
  destruct (call (remote s)) as [r rm']. exact H.
Qed.

Lemma wpo_writeFileSync p data (Q : Post unit) fs rm t :
  Q (Normal tt) (<[p := data]> fs) rm t ->
  wpo (writeFileSync p data) Q fs rm t.
Proof. intros H s <- <- <-. exact H. Qed.

Lemma wpo_createOrGetDeployLog networkName (Q : Post (string * Ledger))
    fs rm t :
  Q (match read_ledger host networkName fs with
     | Normal l => Normal (deployLogPath_of host networkName, l)
     | Throw e => Throw e
     end) fs rm t ->
  wpo (createOrGetDeployLog host svc networkName) Q fs rm t.
Proof.
  intros H s <- <- <-. revert H.
  unfold createOrGetDeployLog, read_ledger, deployLogPath_of.
  unfold bind, console_log, mkdirSync, ret, lift. simpl.
  destruct (existsSync _ _ _); simpl;
    destruct (files s !! _) as [data|]; simpl; auto;
    destruct (JSON_parse host data); simpl; auto.
Qed.

End Rules.

Arguments wpo_run {svc A} m Q s.

(** * What the two functions do on each path *)

Section Paths.

Variable host : Host.
Variable svc : Services.

Local Abbreviation M := (M svc).
Local Abbreviation Post := (Post svc).

(** ** Keys of the ledger *)

Lemma append_String c (s t : string) : String c s +:+ t = String c (s +:+ t).
Proof. reflexivity. Qed.
Lemma append_empty (s : string) : s +:+ "" = s.
Proof. induction s as [|c s IH]; [reflexivity|]. now rewrite append_String, IH. Qed.
Lemma append_length (s1 s2 : string) :
  String.length (s1 +:+ s2) = (String.length s1 + String.length s2)%nat.
Proof. induction s1 as [|c s1 IH]; [reflexivity|]. rewrite append_String. simpl. now rewrite IH. Qed.

Lemma append_cancel_r (s1 s2 t : string) : s1 +:+ t = s2 +:+ t -> s1 = s2.
Proof.
  revert s2. induction s1 as [|c1 s1 IH]; intros [|c2 s2] H.
  - reflexivity.
  - apply (f_equal String.length) in H. rewrite !append_length in H.
    simpl in H. lia.
  - apply (f_equal String.length) in H. rewrite !append_length in H.
    simpl in H. lia.
  - rewrite !append_String in H. injection H as -> H. f_equal. now apply IH.
Qed.
Lemma implementation_key_ne (name : string) : implementation_key name <> name.
Proof.
  unfold implementation_key. intros H.
  apply (f_equal String.length) in H. rewrite append_length in H. simpl in H. lia.
Qed.

Lemma implementation_key_inj (n1 n2 : string) :
  implementation_key n1 = implementation_key n2 -> n1 = n2.
Proof. apply append_cancel_r. Qed.

(** ** Reading and assigning the ledger object *)

Lemma implementation_key_plain (name : string) :
  implementation_key name <> "__proto__".
Proof.
  unfold implementation_key. intros H.
  apply (f_equal String.length) in H. rewrite append_length in H.
  simpl in H. lia.
Qed.

(** The companion entry is always recorded. *)
Lemma assign_implementation (name value : string) (l : Ledger) :
  assign (implementation_key name) value l
  = <[implementation_key name := value]> l.
Proof.
  unfold assign.
  destruct (String.eqb_spec (implementation_key name) "__proto__") as [E|_];
    [now apply implementation_key_plain in E | reflexivity].
Qed.

Lemma assign_lookup_ne (k name value : string) (l : Ledger) :
  k <> name -> assign name value l !! k = l !! k.
Proof.
  intros Hk. unfold assign. destruct (_ && _); [reflexivity|].
  now rewrite lookup_insert_ne by congruence.
Qed.

(** An assignment records the entry, unless it is the first assignment to
    [__proto__]. *)
Lemma assign_lookup (name value : string) (l : Ledger) :
  name <> "__proto__" \/ is_Some (l !! name) ->
  assign name value l !! name = Some value.
Proof.
  intros Hname. unfold assign.
  destruct (String.eqb_spec name "__proto__") as [->|_];
    [|apply lookup_insert_eq].
  destruct Hname as [Hname|[v Hv]]; [congruence|].
  rewrite Hv, bool_decide_eq_false_2 by discriminate.
  apply lookup_insert_eq.
Qed.

Lemma assign_proto (value : string) (l : Ledger) :
  l !! "__proto__" = None -> assign "__proto__" value l = l.
Proof.
  intros Hnone. unfold assign.
  now rewrite String.eqb_refl, bool_decide_eq_true_2.
Qed.

Lemma property_Address (l : Ledger) (name p : string) :
  property l name = Address p <-> l !! name = Some p.
Proof.
  unfold property. destruct (l !! name) as [q|].
  - split; intros H; injection H as ->; reflexivity.
  - destruct (inherited name); split; discriminate.
Qed.

Lemma property_assign_ne (l : Ledger) (k name value : string) :
  k <> name -> property (assign name value l) k = property l k.
Proof. intros Hk. unfold property. now rewrite assign_lookup_ne. Qed.

(** The value read at the name of the contract is the same before and
    after the companion entry is assigned. *)
Lemma property_assign_implementation (l : Ledger) (name value : string) :
  property (assign (implementation_key name) value l) name
  = property l name.
Proof.
  apply property_assign_ne. intros H. symmetry in H.
  now apply implementation_key_ne in H.
Qed.

Lemma truthy_target_entry (l : Ledger) (name : string) :
  truthy_target (property l name) = true ->
  (exists p, l !! name = Some p /\ p <> "") \/
  (l !! name = None /\ inherited name = true).
Proof.
  unfold property. destruct (l !! name) as [[|ch p]|]; simpl.
  - discriminate.
  - intros _. left. eexists. split; [reflexivity | discriminate].
  - destruct (inherited name); [intros _; now right | discriminate].
Qed.

(** ** Stepping through a script *)

(** Use what is known of a test or of a call, or else split on it. *)
Ltac wp_case t :=
  first [ match goal with H : t = _ |- _ => rewrite H end
        | match goal with
          | H : ?lhs = _ |- _ =>
              lazymatch lhs with
              | _ _ =>
                  lazymatch t with
                  | context [lhs] =>
                      rewrite H;
                      cbn [negb andb truthy_string truthy_bool
                           truthy_target getAddress]
                  end
              end
          end
        | destruct t eqn:? ].

Ltac wp_case_call p :=
  first [ match goal with H : p = _ |- _ => rewrite H end
        | destruct p as [[?|?] ?] eqn:? ].

Ltac wp_rule :=
  lazymatch goal with
  | |- wpo (bind _ _) _ _ _ _ => apply wpo_bind
  | |- wpo (ret _) _ _ _ _ => apply wpo_ret
  | |- wpo (throw _) _ _ _ _ => apply wpo_throw
  | |- wpo (lift _) _ _ _ _ => apply wpo_lift
  | |- wpo (catch _ _) _ _ _ _ => apply wpo_catch
  | |- wpo (log _ _) _ _ _ _ => apply wpo_log
  | |- wpo (console_log _) _ _ _ _ => apply wpo_console_log
  | |- wpo (console_error _) _ _ _ _ => apply wpo_console_error
  | |- wpo (external _ _) _ _ _ _ => apply wpo_external
  | |- wpo (writeFileSync _ _) _ _ _ _ => apply wpo_writeFileSync
  | |- wpo (createOrGetDeployLog _ _ _) _ _ _ _ =>
      apply wpo_createOrGetDeployLog
  | |- wpo (if true then _ else _) _ _ _ _ => cbv iota
  | |- wpo (if false then _ else _) _ _ _ _ => cbv iota
  | |- wpo (if ?b then _ else _) _ _ _ _ => wp_case b
  end.

Ltac wp_split_on r :=
  lazymatch r with
  | fst ?p => wp_case_call p
  | match ?c with _ => _ end => wp_case c
  | _ => wp_case r
  end.

Ltac wp_split :=
  lazymatch goal with
  | |- after _ _ ?r _ _ _ => wp_split_on r
  | |- handled _ _ ?r _ _ _ => wp_split_on r
  end.

Ltac wp_simpl := cbn [after handled fst snd].

Ltac wp_step := first [wp_rule | progress wp_simpl | wp_split].

Ltac wp_run :=
  unfold deployContract, upgradeContract, verifyEnoughBalance,
    verifyContract;
  repeat wp_step.

(** Collect the facts of a path from the context. *)
Ltac path_facts :=
  repeat first [eexists | split]; eauto.

(** Open the description of a path into its equations. *)
Ltac open_prepared H :=
  let Hle := fresh "Hle" in
  destruct H as (? & ? & ? & ? & ? & ? & ? & ? & ? & ? & Hle & ?);
  apply Z.ltb_ge in Hle;
  unfold stored_ledger in *.

Lemma truthy_string_Some (o : option string) :
  truthy_string o = true -> exists s, o = Some s /\ s <> "".
Proof.
  destruct o as [[|c s]|]; simpl; try discriminate.
  intros _. eexists. split; [reflexivity | discriminate].
Qed.

Lemma ltb_false_le (balance fee : Z) :
  (balance <? fee)%Z = false -> (fee <= balance)%Z.
Proof. apply Z.ltb_ge. Qed.

Lemma grows_without_refl kind (t : list Event) : grows_without kind t t.
Proof. exists []. split; reflexivity. Qed.

Lemma grows_without_cons kind (t t' : list Event) e :
  kind e = false -> grows_without kind t t' -> grows_without kind t (e :: t').
Proof.
  intros He (evs & -> & Hevs). exists (e :: evs). split; [reflexivity|].
  simpl. now rewrite He, Hevs.
Qed.

(** The trace of a leaf: the calls made, none of the excluded kind. *)
Ltac trace_grows :=
  repeat (apply grows_without_cons; [reflexivity|]);
  apply grows_without_refl.

(** ** Every call, whatever its outcome *)

(** A [deployContract] call either throws and leaves the files alone, or
    goes through a deployment and writes its ledger; it then returns the
    handle, unless the verification throws. *)
Lemma deployContract_effect name args options initArgs (st : State svc) :
  wpo (deployContract host svc name args options initArgs)
    (fun r fs' _ _ =>
       ((exists e, r = Throw e) /\ fs' = files st) \/
       exists l a c encoded l' rm,
         deployment host svc name args options initArgs st
           l a c encoded l' rm /\
         ledger_written host (files st) l' fs' /\
         (r = Normal c \/ exists e, r = Throw e))
    (files st) (remote st) (trace st).
Proof.
  wp_run.
  all: try (left; split; [eexists; reflexivity | reflexivity]).
  all: right.
  all: match goal with H : (_ <? _)%Z = false |- _ =>
         apply ltb_false_le in H end.
  all: unfold deployment, prepared, stored_ledger, ledger_written.
  all: match goal with H : truthy_bool _ = _ |- _ => rewrite H end.
  all: eexists _, _, _, _, _, _.
  all: (split; [path_facts | split; [reflexivity | eauto]]).
Qed.

(** An [upgradeContract] call either throws and leaves the files alone, or
    goes through an upgrade and writes its ledger; it then returns a handle
    bound to the proxy, unless a later step throws. *)
Lemma upgradeContract_effect name args options (st : State svc) :
  wpo (upgradeContract host svc name args options)
    (fun r fs' _ _ =>
       ((exists e, r = Throw e) /\ fs' = files st) \/
       exists l a proxyAddress implementationAddress rm,
         upgrade host svc name args options st
           l a proxyAddress implementationAddress rm /\
         ledger_written host (files st)
           (<[implementation_key (contractName a) := implementationAddress]>
              l) fs' /\
         ((exists address,
             getAddress host proxyAddress = Normal address /\
             r = Normal {| contract_address := address;
                           contract_interface := abi a |})
          \/ exists e, r = Throw e))
    (files st) (remote st) (trace st).
Proof.
  wp_run.
  all: try (left; split; [eexists; reflexivity | reflexivity]).
  all: right.
  all: match goal with H : (_ <? _)%Z = false |- _ =>
         apply ltb_false_le in H end.
  all: match goal with H : negb (truthy_target _) = false |- _ =>
         apply negb_false_iff in H end.
  all: rewrite ?property_assign_implementation in *.
  all: rewrite ?assign_implementation in *.
  all: unfold upgrade, prepared, stored_ledger, ledger_written.
  all: eexists _, _, _, _, _.
  all: repeat match goal with u : unit |- _ => destruct u end.
  all: (split; [path_facts | split; [reflexivity | eauto]]).
Qed.

(** * The claims *)

(** C8.  For every network name, [createOrGetDeployLog] returns the path of
    the network's ledger file together with an empty mapping when the file
    does not exist, and with the parsed content of the file when it exists
    and parses; it leaves every file as it was. *)
Theorem createOrGetDeployLog_loads networkName (st : State svc) :
  let loaded := createOrGetDeployLog host svc networkName st in
  let deployLogPath := deployLogPath_of host networkName in
  (files st !! deployLogPath = None ->
   loaded.1 = Normal (deployLogPath, ∅)) /\
  (forall data l,
     files st !! deployLogPath = Some data ->
     JSON_parse host data = Normal l ->
     loaded.1 = Normal (deployLogPath, l)) /\
  files loaded.2 = files st.
Proof.
  cbv zeta.
  pose proof
    (wpo_run (createOrGetDeployLog host svc networkName)
       (fun r fs' _ _ =>
          r = match read_ledger host networkName (files st) with
              | Normal l => Normal (deployLogPath_of host networkName, l)
              | Throw e => Throw e
              end /\ fs' = files st) st) as H.
  destruct H as [Hr Hf].
  { apply wpo_createOrGetDeployLog. split; reflexivity. }
  rewrite Hr. unfold read_ledger. repeat split.
  - intros ->. reflexivity.
  - intros data l -> ->. reflexivity.
  - exact Hf.
Qed.

(** C1.  When the ledger loads, the signer and the artifact resolve, and
    the estimated deployment fee exceeds the balance of the wallet, both
    [deployContract] and [upgradeContract] throw the insufficient-balance
    error, which reports the required and the available amount; no call
    that submits a transaction ([deploy], [deployProxy], [upgradeProxy]) is
    made and no file is written. *)
Theorem balance_guard_blocks_submission name args options initArgs
    (st : State svc) l w a fee balance rm1 rm2 rm3 :
  stored_ledger host st = Normal l ->
  wallet_of host options = Normal w ->
  loadArtifact svc name (remote st) = (Normal a, rm1) ->
  estimateDeployFee svc w a (default [] args) rm1 = (Normal fee, rm2) ->
  getBalance svc w rm2 = (Normal balance, rm3) ->
  (balance < fee)%Z ->
  let error :=
    InsufficientBalance (formatEther host fee) (wallet_address w)
      (formatEther host balance) in
  let deployed := deployContract host svc name args options initArgs st in
  let upgraded := upgradeContract host svc name args options st in
  error
  = JsString
      ("⛔️ Wallet balance is too low! Required " +:+ formatEther host fee
       +:+ " ETH, but current " +:+ wallet_address w +:+ " balance is "
       +:+ formatEther host balance +:+ " ETH") /\
  (deployed.1 = Throw error /\ files deployed.2 = files st /\
   no_submission st deployed.2) /\
  (upgraded.1 = Throw error /\ files upgraded.2 = files st /\
   no_submission st upgraded.2).
Proof.
  intros Hl Hw Ha Hf Hb Hlt error. cbv zeta.
  apply Z.ltb_lt in Hlt. unfold stored_ledger in Hl.
  split; [reflexivity|].
  split.
  - apply (wpo_run (deployContract host svc name args options initArgs)
             (fun r fs' _ t' =>
                r = Throw error /\ fs' = files st /\
                grows_without is_submission (trace st) t')).
    wp_run. repeat split. trace_grows.
  - apply (wpo_run (upgradeContract host svc name args options)
             (fun r fs' _ t' =>
                r = Throw error /\ fs' = files st /\
                grows_without is_submission (trace st) t')).
    wp_run. repeat split. trace_grows.
Qed.


(** The ledger that a call wrote is the one that the next call loads, when
    [JSON.parse] reads back what [JSON.stringify] printed. *)
Lemma ledger_written_stored (st st' : State svc) l' :
  ledger_written host (files st) l' (files st') ->
  JSON_parse host (JSON_stringify host l') = Normal l' ->
  stored_ledger host st' = Normal l'.
Proof.
  unfold ledger_written, stored_ledger, read_ledger, ledger_path.
  intros -> Hjson. now rewrite lookup_insert_eq.
Qed.

(** What a deployment leaves in the ledger that it writes.  The name is
    recorded unless it is [__proto__] and the ledger had no such entry. *)
Lemma deployment_entries name args options initArgs (st : State svc)
    l a c encoded l' rm :
  deployment host svc name args options initArgs st l a c encoded l' rm ->
  stored_ledger host st = Normal l /\
  (exists rm1, loadArtifact svc name (remote st) = (Normal a, rm1)) /\
  (contractName a <> "__proto__" \/ is_Some (l !! contractName a) ->
   l' !! contractName a = Some (contract_address c)) /\
  (forall k, k <> contractName a -> k <> implementation_key (contractName a) ->
     l' !! k = l !! k) /\
  (truthy_bool (options ≫= upgradable) = true ->
   is_Some (l' !! implementation_key (contractName a))) /\
  (truthy_bool (options ≫= upgradable) = false ->
   l' !! implementation_key (contractName a)
   = l !! implementation_key (contractName a)).
Proof.
  intros (w & rm3 & Hp & _ & Hbranch).
  destruct Hp as (? & ? & ? & rm1 & ? & Hl & _ & Ha & _).
  split; [exact Hl|]. split; [now exists rm1|].
  pose proof (implementation_key_ne (contractName a)) as Hne.
  destruct (truthy_bool (options ≫= upgradable)).
  - destruct Hbranch as (? & impl & ? & _ & _ & _ & ->).
    rewrite assign_implementation.
    split; [|split; [|split]].
    + intros Hname. rewrite lookup_insert_ne by exact Hne.
      now apply assign_lookup.
    + intros k Hk1 Hk2. rewrite lookup_insert_ne by congruence.
      now apply assign_lookup_ne.
    + intros _. rewrite lookup_insert_eq. now exists impl.
    + discriminate.
  - destruct Hbranch as (_ & ->).
    split; [|split; [|split]].
    + intros Hname. now apply assign_lookup.
    + intros k Hk1 Hk2. now apply assign_lookup_ne.
    + discriminate.
    + intros _. now apply assign_lookup_ne.
Qed.

(** What an upgrade finds in the ledger that it loaded. *)
Lemma upgrade_entries name args options (st : State svc)
    l a proxyAddress implementationAddress rm :
  upgrade host svc name args options st
    l a proxyAddress implementationAddress rm ->
  stored_ledger host st = Normal l /\
  (exists rm1, loadArtifact svc name (remote st) = (Normal a, rm1)) /\
  property l (contractName a) = proxyAddress /\
  truthy_target proxyAddress = true.
Proof.
  intros (w & provider & rm3 & rm4 & Hp & _ & Hproxy & Htruthy & _).
  destruct Hp as (? & ? & ? & rm1 & ? & Hl & _ & Ha & _).
  split; [exact Hl|]. split; [now exists rm1|]. now split.
Qed.

(** An assignment to [name] keeps [n_Implementation] tied to [n] for every
    other name [n], unless [name] is itself [n_Implementation]. *)
Lemma assign_name_keeps_invariant (l : Ledger) name address n :
  n <> name ->
  name <> implementation_key n ->
  implementation_only_with_proxy n l ->
  implementation_only_with_proxy n (assign name address l).
Proof.
  unfold implementation_only_with_proxy. intros Hn Hne Hinv.
  now rewrite !assign_lookup_ne by congruence.
Qed.

(** A new entry for [name_Implementation] keeps the invariant of every
    other name. *)
Lemma insert_implementation_keeps_invariant (l : Ledger) name address n :
  n <> name ->
  implementation_only_with_proxy n l ->
  implementation_only_with_proxy n (<[implementation_key name := address]> l).
Proof.
  unfold implementation_only_with_proxy. intros Hn Hinv Hi.
  assert (implementation_key name <> implementation_key n) as Hk.
  { intros Hk. apply implementation_key_inj in Hk. congruence. }
  rewrite lookup_insert_ne in Hi by exact Hk.
  destruct (decide (implementation_key name = n)) as [<-|Hn'].
  - rewrite lookup_insert_eq. eauto.
  - rewrite lookup_insert_ne by exact Hn'. auto.
Qed.

(** X22.  An [upgradeContract] call with [options.upgradable] true, on an
    artifact whose contract name has no entry in the ledger that the call
    loads and is not the name of a member of [Object.prototype], throws,
    writes no file and submits no transaction; when the steps before the
    lookup succeed (signer, fee estimate, balance guard, printing of the
    arguments), what it throws is the proxy-not-found error. *)
Theorem upgrade_requires_prior_deploy name args options (st : State svc)
    l a rm1 :
  truthy_bool (options ≫= upgradable) = true ->
  stored_ledger host st = Normal l ->
  loadArtifact svc name (remote st) = (Normal a, rm1) ->
  l !! contractName a = None ->
  inherited (contractName a) = false ->
  let upgraded := upgradeContract host svc name args options st in
  (exists e, upgraded.1 = Throw e) /\
  files upgraded.2 = files st /\
  no_submission st upgraded.2 /\
  (forall w rm,
     prepared host svc name args options st l w a rm ->
     upgraded.1 = Throw ProxyNotFound).
Proof.
  intros Hup Hl Ha Hnone Hplain. cbv zeta. unfold stored_ledger in Hl.
  assert (Hread : property l (contractName a) = Undefined)
    by (unfold property; now rewrite Hnone, Hplain).
  assert (Hfails :
    let upgraded := upgradeContract host svc name args options st in
    (exists e, upgraded.1 = Throw e) /\ files upgraded.2 = files st /\
    no_submission st upgraded.2).
  { apply (wpo_run (upgradeContract host svc name args options)
             (fun r fs' _ t' =>
                (exists e, r = Throw e) /\ fs' = files st /\
                grows_without is_submission (trace st) t')).
    wp_run.
    all: (split; [eexists; reflexivity | split; [reflexivity|trace_grows]]). }
  destruct Hfails as (Hthrows & Hfiles & Hquiet).
  repeat (split; [assumption|]).
  - intros w rm Hp.
    destruct Hp as (fee & balance & argsText & rm1' & rm2 & _ & Hw & Ha'
                    & Hf & Hb & Hle & Hargs).
    rewrite Ha in Ha'. injection Ha' as <-. apply Z.ltb_ge in Hle.
    apply (wpo_run (upgradeContract host svc name args options)
             (fun r _ _ _ => r = Throw ProxyNotFound)).
    wp_run. reflexivity.
Qed.


(** C2 (amended).  After a deployment that succeeded and wrote the ledger,
    with [options.noVerify] unset and a [verifyURL] configured, a failure
    of the verification request is thrown on to the caller as it is:
    [deployContract] does not return the handle.  The ledger written for
    the deployment stays; for a contract that is not named [__proto__] it
    maps the contract name to the deployed address. *)
Theorem verification_failure_propagates name args options initArgs
    (st : State svc) l a c encoded l' rm e rm' :
  deployment host svc name args options initArgs st l a c encoded l' rm ->
  verification_requested host options = true ->
  run_verify svc
    {| v_address := contract_address c;
       v_contract := sourceName a +:+ ":" +:+ contractName a;
       v_constructorArguments := encoded;
       v_bytecode := bytecode a;
       v_noCompile := true |} rm
  = (Throw e, rm') ->
  let deployed := deployContract host svc name args options initArgs st in
  deployed.1 = Throw e /\
  ledger_written host (files st) l' (files deployed.2) /\
  (contractName a <> "__proto__" ->
   l' !! contractName a = Some (contract_address c)).
Proof.
  intros Hd Hreq Hv. cbv zeta.
  destruct (deployment_entries _ _ _ _ _ _ _ _ _ _ _ Hd)
    as (_ & _ & Hentry & _).
  enough (let deployed :=
            deployContract host svc name args options initArgs st in
          deployed.1 = Throw e /\
          ledger_written host (files st) l' (files deployed.2)) as [? ?]
    by (repeat split; auto).
  clear Hentry.
  destruct Hd as (w & rm3 & Hp & Henc & Hbranch). open_prepared Hp.
  unfold verification_requested in Hreq.
  destruct (truthy_bool (options ≫= upgradable)) eqn:Hup.
  - destruct Hbranch as (provider & impl & rm4 & Hdp & Hprov & Himpl & ->).
    apply (wpo_run (deployContract host svc name args options initArgs)
             (fun r fs' _ _ => r = Throw e /\ ledger_written host (files st) _ fs')).
    wp_run. split; reflexivity.
  - destruct Hbranch as (Hdp & ->).
    apply (wpo_run (deployContract host svc name args options initArgs)
             (fun r fs' _ _ => r = Throw e /\ ledger_written host (files st) _ fs')).
    wp_run. split; reflexivity.
Qed.

(** C3.  A successful [upgradeContract] call read, at the name of the
    contract, the proxy address that it upgraded: the address of the entry
    of that name in the ledger it loaded.  The ledger it writes holds that
    entry as it was and maps [name_Implementation] to the implementation
    address resolved after the upgrade; read at the name, it gives the
    same proxy address again, and the handle that the call returns is bound
    to it.  (For a name without an entry the value read is the member of
    [Object.prototype] of that name, and the same holds of it.) *)
Theorem upgrade_keeps_proxy_address name args options (st : State svc) c :
  let upgraded := upgradeContract host svc name args options st in
  upgraded.1 = Normal c ->
  exists l a proxyAddress implementationAddress rm,
    upgrade host svc name args options st
      l a proxyAddress implementationAddress rm /\
    let l' :=
      <[implementation_key (contractName a) := implementationAddress]> l in
    ledger_written host (files st) l' (files upgraded.2) /\
    property l (contractName a) = proxyAddress /\
    property l' (contractName a) = proxyAddress /\
    l' !! contractName a = l !! contractName a /\
    l' !! implementation_key (contractName a) = Some implementationAddress /\
    getAddress host proxyAddress = Normal (contract_address c) /\
    (forall p : string,
       l !! contractName a = Some p ->
       proxyAddress = Address p /\
       l' !! contractName a = Some p /\
       contract_address c = p).
Proof.
  cbv zeta. intros Hret.
  destruct (wpo_run _ _ st (upgradeContract_effect name args options st))
    as [[[e He] _]
       |(l & a & proxyAddress & impl & rm & Hu & Hw
         & [(address & Haddress & Hr)|[e He]])];
    rewrite Hret in *; try discriminate.
  injection Hr as ->.
  exists l, a, proxyAddress, impl, rm.
  destruct (upgrade_entries _ _ _ _ _ _ _ _ _ Hu) as (_ & _ & Hproxy & _).
  assert (Hkept :
    <[implementation_key (contractName a) := impl]> l !! contractName a
    = l !! contractName a)
    by (now rewrite lookup_insert_ne by apply implementation_key_ne).
  split; [exact Hu|]. split; [exact Hw|]. split; [exact Hproxy|].
  split.
  { rewrite <- assign_implementation, property_assign_implementation.
    exact Hproxy. }
  split; [exact Hkept|]. split; [apply lookup_insert_eq|].
  split; [exact Haddress|].
  intros p Hp. apply property_Address in Hp as Hread.
  rewrite Hproxy in Hread. rewrite Hread in Haddress.
  split; [exact Hread|]. split; [now rewrite Hkept|].
  now injection Haddress as ->.
Qed.

(** C6 (amended).  After a successful [deployContract] call on a contract
    that is not named [__proto__], the ledger written maps the contract
    name to the deployed address; it maps [name_Implementation] to an
    address when the deployment was upgradable, and otherwise holds for
    that key what the loaded ledger held, so an entry left by an earlier
    upgradable deployment stays.  Whatever their outcome, [deployContract]
    and [upgradeContract] either leave the files as they were or write a
    ledger in which the contract name is present, so [name_Implementation]
    is present only when [name] is: [deployContract] for every contract
    name but [__proto__], [upgradeContract] for every contract name that is
    not the name of a member of [Object.prototype].  The same holds in the
    written ledger for every other name [n] for which it held before,
    unless the contract is itself named [n_Implementation]. *)
Theorem ledger_after_deploy name args options initArgs (st : State svc) :
  let deployed := deployContract host svc name args options initArgs st in
  let upgraded := upgradeContract host svc name args options st in
  (forall c,
     deployed.1 = Normal c ->
     exists l a encoded l' rm,
       deployment host svc name args options initArgs st
         l a c encoded l' rm /\
       ledger_written host (files st) l' (files deployed.2) /\
       (contractName a <> "__proto__" ->
        l' !! contractName a = Some (contract_address c)) /\
       (truthy_bool (options ≫= upgradable) = true ->
        is_Some (l' !! implementation_key (contractName a))) /\
       (truthy_bool (options ≫= upgradable) = false ->
        l' !! implementation_key (contractName a)
        = l !! implementation_key (contractName a))) /\
  invariant_kept host svc (String.eqb "__proto__") name st
    (files deployed.2) /\
  invariant_kept host svc inherited name st (files upgraded.2).
Proof.
  cbv zeta. unfold invariant_kept. split; [|split].
  - intros c Hret.
    destruct (wpo_run _ _ st
                (deployContract_effect name args options initArgs st))
      as [[[e He] _]
         |(l & a & c' & encoded & l' & rm & Hd & Hw & [Hr|[e He]])];
      rewrite Hret in *; try discriminate.
    injection Hr as ->.
    exists l, a, encoded, l', rm.
    destruct (deployment_entries _ _ _ _ _ _ _ _ _ _ _ Hd)
      as (_ & _ & Hentry & _ & Hyes & Hno).
    repeat split; auto.
  - destruct (wpo_run _ _ st
                (deployContract_effect name args options initArgs st))
      as [[_ Hfiles]|(l & a & c & encoded & l' & rm & Hd & Hw & _)];
      [left; exact Hfiles | right].
    exists l, a, l'.
    destruct (deployment_entries _ _ _ _ _ _ _ _ _ _ _ Hd)
      as (Hl & Ha & Hentry & _).
    split; [exact Hl|]. split; [exact Ha|]. split; [exact Hw|]. split.
    + intros Hplain.
      assert (Hname : contractName a <> "__proto__")
        by (intros E; rewrite E in Hplain; discriminate Hplain).
      assert (Hsome : is_Some (l' !! contractName a))
        by (rewrite Hentry by (now left); eauto).
      split; [exact Hsome | intros _; exact Hsome].
    + intros n Hn Hne Hinv.
      destruct Hd as (w & rm3 & _ & _ & Hbranch).
      destruct (truthy_bool (options ≫= upgradable)).
      * destruct Hbranch as (? & impl & ? & _ & _ & _ & ->).
        rewrite assign_implementation.
        apply insert_implementation_keeps_invariant; [exact Hn|].
        now apply assign_name_keeps_invariant.
      * destruct Hbranch as (_ & ->).
        now apply assign_name_keeps_invariant.
  - destruct (wpo_run _ _ st (upgradeContract_effect name args options st))
      as [[_ Hfiles]|(l & a & proxyAddress & impl & rm & Hu & Hw & _)];
      [left; exact Hfiles | right].
    exists l, a, (<[implementation_key (contractName a) := impl]> l).
    destruct (upgrade_entries _ _ _ _ _ _ _ _ _ Hu)
      as (Hl & Ha & Hproxy & Htruthy).
    split; [exact Hl|]. split; [exact Ha|]. split; [exact Hw|]. split.
    + intros Hplain. rewrite <- Hproxy in Htruthy.
      apply truthy_target_entry in Htruthy
        as [(p & Hp & _)|[_ Hmember]]; [|congruence].
      assert (Hsome :
        is_Some (<[implementation_key (contractName a) := impl]> l
                 !! contractName a)).
      { rewrite lookup_insert_ne by apply implementation_key_ne.
        rewrite Hp. eauto. }
      split; [exact Hsome | intros _; exact Hsome].
    + intros n Hn _ Hinv.
      now apply insert_implementation_keeps_invariant.
Qed.

(** C10.  A successful [deployContract] or [upgradeContract] call loads the
    ledger, and the ledger it writes agrees with the loaded one on every
    key other than the contract name and [name_Implementation]: the entries
    of all other contracts survive. *)
Theorem other_entries_survive name args options initArgs (st : State svc) :
  let deployed := deployContract host svc name args options initArgs st in
  let upgraded := upgradeContract host svc name args options st in
  (forall c,
     deployed.1 = Normal c ->
     other_entries_kept host svc name st (files deployed.2)) /\
  (forall c,
     upgraded.1 = Normal c ->
     other_entries_kept host svc name st (files upgraded.2)).
Proof.
  cbv zeta. unfold other_entries_kept. split; intros c Hret.
  - destruct (wpo_run _ _ st
                (deployContract_effect name args options initArgs st))
      as [[[e He] _]
         |(l & a & c' & encoded & l' & rm & Hd & Hw & _)];
      [rewrite Hret in He; discriminate|].
    exists l, a, l'.
    destruct (deployment_entries _ _ _ _ _ _ _ _ _ _ _ Hd)
      as (Hl & Ha & _ & Hframe & _).
    repeat split; assumption.
  - destruct (wpo_run _ _ st (upgradeContract_effect name args options st))
      as [[[e He] _]
         |(l & a & proxyAddress & impl & rm & Hu & Hw & _)];
      [rewrite Hret in He; discriminate|].
    exists l, a, (<[implementation_key (contractName a) := impl]> l).
    destruct (upgrade_entries _ _ _ _ _ _ _ _ _ Hu) as (Hl & Ha & _).
    repeat split; try assumption.
    intros k _ Hk. now rewrite lookup_insert_ne by congruence.
Qed.

(** * Further properties of deploy/utils.ts *)

(** Rewrite with what is known wherever it occurs, also inside the
    arguments of a call. *)
Ltac wp_known :=
  match goal with
  | H : ?lhs = _ |- context [?lhs] =>
      lazymatch lhs with
      | _ _ =>
          rewrite H;
          cbn [from_option id negb andb truthy_string truthy_bool
               truthy_target getAddress]
      end
  end.

Ltac wp_run_known :=
  unfold deployContract, upgradeContract, verifyContractByName,
    verifyEnoughBalance, verifyContract;
  repeat first [ wp_rule | progress wp_simpl
               | progress cbn [contract_interface contract_address]
               | wp_known | wp_split ].

(** X1.  A wallet that [getWallet] returns is connected to the configured,
    non-empty RPC url.  It was opened with the key that was passed, even an
    empty one (the environment is then consulted for presence only), or,
    when no key was passed, with the non-empty key of the environment. *)
Theorem getWallet_returns (privateKey : option string) w :
  getWallet host privateKey = Normal w ->
  exists key provider,
    network_url host = Some provider /\ provider <> "" /\
    Wallet_new host key provider = Normal w /\
    match privateKey with
    | Some k =>
        key = k /\
        (k = "" -> truthy_string (env_WALLET_PRIVATE_KEY host) = true)
    | None => env_WALLET_PRIVATE_KEY host = Some key /\ key <> ""
    end.
Proof.
  unfold getWallet, getProvider.
  destruct (negb (truthy_string privateKey)
            && negb (truthy_string (env_WALLET_PRIVATE_KEY host))) eqn:Hkey;
    [discriminate|].
  destruct (truthy_string (network_url host)) eqn:Hurl; [|discriminate].
  apply truthy_string_Some in Hurl as (provider & Hprovider & Hne).
  rewrite Hprovider. simpl. intros Hw.
  destruct privateKey as [k|].
  - exists k, provider. repeat split; try assumption.
    intros ->. simpl in Hkey.
    now destruct (truthy_string (env_WALLET_PRIVATE_KEY host)).
  - simpl in Hkey.
    destruct (truthy_string (env_WALLET_PRIVATE_KEY host)) eqn:Henv;
      [|discriminate].
    apply truthy_string_Some in Henv as (key & Henv & Hk).
    rewrite Henv in Hw. exists key, provider. repeat split; assumption.
Qed.

(** X2.  [verifyEnoughBalance] reads the balance once and compares it
    strictly: a balance equal to the amount passes, a smaller one throws
    the insufficient-balance error; in both cases nothing is written and
    the only call made is [getBalance]. *)
Theorem verifyEnoughBalance_threshold w amount (st : State svc) balance rm :
  getBalance svc w (remote st) = (Normal balance, rm) ->
  let checked := verifyEnoughBalance host svc w amount st in
  ((amount <= balance)%Z -> checked.1 = Normal tt) /\
  ((balance < amount)%Z ->
   checked.1 = Throw (InsufficientBalance (formatEther host amount)
                        (wallet_address w) (formatEther host balance))) /\
  files checked.2 = files st /\
  remote checked.2 = rm /\
  trace checked.2 = EvGetBalance w :: trace st.
Proof.
  intros Hb. cbv zeta.
  apply (wpo_run (verifyEnoughBalance host svc w amount)
           (fun r fs' rm' t' =>
              ((amount <= balance)%Z -> r = Normal tt) /\
              ((balance < amount)%Z ->
               r = Throw (InsufficientBalance (formatEther host amount)
                            (wallet_address w) (formatEther host balance))) /\
              fs' = files st /\ rm' = rm /\
              t' = EvGetBalance w :: trace st)).
  wp_run.
  - match goal with Hlt : (_ <? _)%Z = true |- _ => apply Z.ltb_lt in Hlt end.
    repeat split; try reflexivity. lia.
  - match goal with Hge : (_ <? _)%Z = false |- _ => apply Z.ltb_ge in Hge end.
    repeat split; try reflexivity. lia.
Qed.

(** A deployment that succeeds up to the write of the ledger, and whose
    verification does not throw, completes. *)
Lemma deployment_completes name args options initArgs
    (st : State svc) l a c encoded l' rm :
  deployment host svc name args options initArgs st l a c encoded l' rm ->
  (verification_requested host options = false \/
   exists id rm',
     run_verify svc
       {| v_address := contract_address c;
          v_contract := sourceName a +:+ ":" +:+ contractName a;
          v_constructorArguments := encoded;
          v_bytecode := bytecode a;
          v_noCompile := true |} rm
     = (Normal id, rm')) ->
  let deployed := deployContract host svc name args options initArgs st in
  deployed.1 = Normal c /\
  ledger_written host (files st) l' (files deployed.2).
Proof.
  intros Hd Hv. cbv zeta.
  destruct Hd as (w & rm3 & Hp & Henc & Hbranch). open_prepared Hp.
  unfold verification_requested in Hv.
  destruct (truthy_bool (options ≫= upgradable)) eqn:Hup.
  - destruct Hbranch as (provider & impl & rm4 & Hdp & Hprov & Himpl & ->).
    destruct Hv as [Hv|(id & rm' & Hv)];
      apply (wpo_run (deployContract host svc name args options initArgs)
               (fun r fs' _ _ =>
                  r = Normal c /\ ledger_written host (files st) _ fs')).
    + wp_run. split; reflexivity.
    + wp_run; split; reflexivity.
  - destruct Hbranch as (Hdp & ->).
    destruct Hv as [Hv|(id & rm' & Hv)];
      apply (wpo_run (deployContract host svc name args options initArgs)
               (fun r fs' _ _ =>
                  r = Normal c /\ ledger_written host (files st) _ fs')).
    + wp_run. split; reflexivity.
    + wp_run; split; reflexivity.
Qed.

(** X3.  When a deployment succeeds up to the write of the ledger and the
    verification is not requested, or is requested and accepted,
    [deployContract] returns the handle of the deployment and leaves the
    ledger of the deployment written. *)
Theorem deployContract_returns_handle name args options initArgs
    (st : State svc) l a c encoded l' rm :
  deployment host svc name args options initArgs st l a c encoded l' rm ->
  (verification_requested host options = false \/
   exists id rm',
     run_verify svc
       {| v_address := contract_address c;
          v_contract := sourceName a +:+ ":" +:+ contractName a;
          v_constructorArguments := encoded;
          v_bytecode := bytecode a;
          v_noCompile := true |} rm
     = (Normal id, rm')) ->
  let deployed := deployContract host svc name args options initArgs st in
  deployed.1 = Normal c /\
  ledger_written host (files st) l' (files deployed.2).
Proof. apply deployment_completes. Qed.

(** X4.  When an upgrade succeeds up to the write of the ledger, the
    handle is built, the constructor arguments encode, and the verification
    is not requested, or is requested and accepted, [upgradeContract]
    returns a handle bound to the proxy address and to the interface of the
    artifact, and leaves the ledger of the upgrade written. *)
Theorem upgradeContract_returns_handle name args options (st : State svc)
    l a (proxyAddress : string) implementationAddress rm rm5 encoded :
  upgrade host svc name args options st
    l a proxyAddress implementationAddress rm ->
  getContractAt svc (abi a) proxyAddress rm = (Normal tt, rm5) ->
  encodeDeploy host (abi a) args = Normal encoded ->
  (verification_requested host options = false \/
   exists id rm',
     run_verify svc
       {| v_address := proxyAddress;
          v_contract := sourceName a +:+ ":" +:+ contractName a;
          v_constructorArguments := encoded;
          v_bytecode := bytecode a;
          v_noCompile := true |} rm5
     = (Normal id, rm')) ->
  let upgraded := upgradeContract host svc name args options st in
  upgraded.1 = Normal {| contract_address := proxyAddress;
                         contract_interface := abi a |} /\
  ledger_written host (files st)
    (<[implementation_key (contractName a) := implementationAddress]> l)
    (files upgraded.2).
Proof.
  intros Hu Hat Henc Hv. cbv zeta.
  destruct Hu as (w & provider & rm3 & rm4 & Hp & Hup & Hproxy & Hne & Hupg
                  & Hprov & Himpl).
  open_prepared Hp. unfold verification_requested in Hv.
  destruct proxyAddress as [|ch rest]; [discriminate Hne|].
  assert (Hkept :
    property
      (assign (implementation_key (contractName a)) implementationAddress l)
      (contractName a)
    = Address (String ch rest))
    by (now rewrite property_assign_implementation).
  rewrite <- assign_implementation.
  destruct Hv as [Hv|(id & rm' & Hv)];
    apply (wpo_run (upgradeContract host svc name args options)
             (fun r fs' _ _ =>
                r = Normal {| contract_address := String ch rest;
                              contract_interface := abi a |} /\
                ledger_written host (files st) _ fs')).
  all: wp_run.
  all: repeat match goal with
         | H : getContractAt _ _ (property _ _) _ = _ |- _ =>
             rewrite Hkept in H
         end.
  all: cbn [contract_interface] in *.
  all: try congruence.
  all: split; reflexivity.
Qed.

(** X5.  With [options.noVerify] set, or without a [verifyURL] for the
    network, neither [deployContract] nor [upgradeContract] calls the
    verification service, whatever else happens. *)
Theorem verification_skipped name args options initArgs (st : State svc) :
  verification_requested host options = false ->
  let deployed := deployContract host svc name args options initArgs st in
  let upgraded := upgradeContract host svc name args options st in
  grows_without is_verification (trace st) (trace deployed.2) /\
  grows_without is_verification (trace st) (trace upgraded.2).
Proof.
  unfold verification_requested. intros Hreq. cbv zeta. split.
  - apply (wpo_run (deployContract host svc name args options initArgs)
             (fun _ _ _ t' => grows_without is_verification (trace st) t')).
    wp_run; trace_grows.
  - apply (wpo_run (upgradeContract host svc name args options)
             (fun _ _ _ t' => grows_without is_verification (trace st) t')).
    wp_run; trace_grows.
Qed.

(** X6.  A ledger entry whose address is the empty string counts as
    missing: when the steps before the lookup succeed, [upgradeContract]
    throws the proxy-not-found error, submits nothing and writes
    nothing. *)
Theorem upgrade_refuses_empty_address name args options (st : State svc)
    l w a rm :
  truthy_bool (options ≫= upgradable) = true ->
  prepared host svc name args options st l w a rm ->
  l !! contractName a = Some "" ->
  let upgraded := upgradeContract host svc name args options st in
  upgraded.1 = Throw ProxyNotFound /\
  files upgraded.2 = files st /\
  no_submission st upgraded.2.
Proof.
  intros Hup Hp Hempty. cbv zeta. open_prepared Hp.
  apply property_Address in Hempty.
  apply (wpo_run (upgradeContract host svc name args options)
           (fun r fs' _ t' =>
              r = Throw ProxyNotFound /\ fs' = files st /\
              grows_without is_submission (trace st) t')).
  wp_run. repeat split. trace_grows.
Qed.

(** X7.  Whatever their outcome, [deployContract] and [upgradeContract]
    touch no file but the ledger of the configured network: every other
    path holds afterwards what it held before. *)
Theorem other_files_untouched name args options initArgs (st : State svc)
    (p : string) :
  p <> ledger_path host ->
  let deployed := deployContract host svc name args options initArgs st in
  let upgraded := upgradeContract host svc name args options st in
  files deployed.2 !! p = files st !! p /\
  files upgraded.2 !! p = files st !! p.
Proof.
  intros Hp. cbv zeta. split.
  - destruct (wpo_run _ _ st
                (deployContract_effect name args options initArgs st))
      as [[_ ->]|(l & a & c & encoded & l' & rm & _ & -> & _)];
      [reflexivity|].
    now rewrite lookup_insert_ne by congruence.
  - destruct (wpo_run _ _ st (upgradeContract_effect name args options st))
      as [[_ ->]|(l & a & proxyAddress & impl & rm & _ & -> & _)];
      [reflexivity|].
    now rewrite lookup_insert_ne by congruence.
Qed.

(** The calls of a leaf, split off the trace of the initial state. *)
Ltac trace_prefix t :=
  lazymatch t with
  | ?e :: ?older => let rest := trace_prefix older in constr:(e :: rest)
  | _ => constr:(@nil Event)
  end.

Ltac calls_of_leaf :=
  lazymatch goal with
  | |- exists evs, ?t' = (evs ++ _)%list /\ _ =>
      let evs := trace_prefix t' in
      exists evs; split; [reflexivity|]
  end.

(** The three preparatory calls hold no submission, so a guarded trace
    holds at most one. *)
Lemma submits_once_guarded_count name evs :
  submits_once_guarded name evs ->
  (length (filter (fun e => is_submission e = true) evs) <= 1)%nat.
Proof.
  induction evs as [|e older IH]; simpl; [lia|].
  destruct (is_submission e) eqn:He.
  - intros (w & a & ->). rewrite filter_cons_True by exact He. simpl. lia.
  - intros Hg. rewrite filter_cons_False by congruence. auto.
Qed.

(** X8.  Whatever its outcome, a [deployContract] or [upgradeContract]
    call submits at most one transaction, and submits it only right after
    it resolved the artifact, estimated the fee and read the balance. *)
Theorem one_guarded_submission name args options initArgs (st : State svc) :
  let deployed := deployContract host svc name args options initArgs st in
  let upgraded := upgradeContract host svc name args options st in
  (exists evs,
     calls_between st deployed.2 evs /\
     submits_once_guarded name evs /\
     (length (filter (fun e => is_submission e = true) evs) <= 1)%nat) /\
  (exists evs,
     calls_between st upgraded.2 evs /\
     submits_once_guarded name evs /\
     (length (filter (fun e => is_submission e = true) evs) <= 1)%nat).
Proof.
  cbv zeta. unfold calls_between.
  assert (Hboth :
    (exists evs,
       trace (deployContract host svc name args options initArgs st).2
       = (evs ++ trace st)%list /\ submits_once_guarded name evs) /\
    (exists evs,
       trace (upgradeContract host svc name args options st).2
       = (evs ++ trace st)%list /\ submits_once_guarded name evs)).
  { split.
    - apply (wpo_run (deployContract host svc name args options initArgs)
               (fun _ _ _ t' =>
                  exists evs,
                    t' = (evs ++ trace st)%list /\
                    submits_once_guarded name evs)).
      wp_run; calls_of_leaf; simpl; unfold preparatory; eauto.
    - apply (wpo_run (upgradeContract host svc name args options)
               (fun _ _ _ t' =>
                  exists evs,
                    t' = (evs ++ trace st)%list /\
                    submits_once_guarded name evs)).
      wp_run; calls_of_leaf; simpl; unfold preparatory; eauto. }
  destruct Hboth as [(evs1 & Ht1 & Hg1) (evs2 & Ht2 & Hg2)].
  split; [exists evs1 | exists evs2];
    eauto using submits_once_guarded_count.
Qed.

(** X9.  A deployment that was submitted is not recorded when a later
    step throws before the write: if the constructor arguments do not
    encode, or if the implementation address of a fresh proxy cannot be
    resolved, [deployContract] throws that error after [deploy] or
    [deployProxy] returned a handle, and the files are as they were. *)
Theorem submitted_deployment_unrecorded name args options initArgs
    (st : State svc) l w a rm3 c rm4 e :
  prepared host svc name args options st l w a rm3 ->
  (if truthy_bool (options ≫= upgradable) then
     deployProxy svc w a initArgs
       {| dp_initializer := "initialize";
          dp_kind := options ≫= kind;
          dp_unsafeAllow := options ≫= unsafeAllow;
          dp_constructorArgs := args |} rm3
   else deploy svc w a args rm3) = (Normal c, rm4) ->
  (encodeDeploy host (contract_interface c) args = Throw e \/
   (truthy_bool (options ≫= upgradable) = true /\
    exists encoded provider rm5,
      encodeDeploy host (contract_interface c) args = Normal encoded /\
      getProvider host = Normal provider /\
      getImplementationAddress svc provider (contract_address c) rm4
      = (Throw e, rm5))) ->
  let deployed := deployContract host svc name args options initArgs st in
  deployed.1 = Throw e /\
  files deployed.2 = files st /\
  exists evs,
    calls_between st deployed.2 evs /\
    existsb is_submission evs = true.
Proof.
  intros Hp Hsub Hfail. cbv zeta. unfold calls_between. open_prepared Hp.
  destruct (truthy_bool (options ≫= upgradable)) eqn:Hup;
    destruct Hfail
      as [Henc|(Htrue & encoded & provider & rm5 & Henc & Hprov & Himpl)];
    try discriminate Htrue;
    apply (wpo_run (deployContract host svc name args options initArgs)
             (fun r fs' _ t' =>
                r = Throw e /\ fs' = files st /\
                exists evs,
                  t' = (evs ++ trace st)%list /\
                  existsb is_submission evs = true));
    wp_run; (split; [reflexivity|]); (split; [reflexivity|]);
    calls_of_leaf; reflexivity.
Qed.

(** X10.  [verifyContractByName] writes no file and submits no
    transaction, whatever its outcome.  Given an empty proxy address it
    throws the proxy-not-found error once the wallet and the artifact are
    resolved, before any call to the chain gateway. *)
Theorem verifyContractByName_reads_only proxyAddress name args
    (st : State svc) :
  let verified := verifyContractByName host svc proxyAddress name args st in
  files verified.2 = files st /\
  no_submission st verified.2 /\
  (forall w a rm1,
     proxyAddress = "" ->
     getWallet host None = Normal w ->
     loadArtifact svc name (remote st) = (Normal a, rm1) ->
     verified.1 = Throw ProxyNotFound /\ no_chain_call st verified.2).
Proof.
  cbv zeta.
  assert (Hquiet :
    let verified :=
      verifyContractByName host svc proxyAddress name args st in
    files verified.2 = files st /\ no_submission st verified.2).
  { apply (wpo_run (verifyContractByName host svc proxyAddress name args)
             (fun _ fs' _ t' =>
                fs' = files st /\
                grows_without is_submission (trace st) t')).
    wp_run_known; (split; [reflexivity | trace_grows]). }
  destruct Hquiet as [Hfiles Hsub].
  split; [exact Hfiles|]. split; [exact Hsub|].
  intros w a rm1 -> Hw Ha.
  apply (wpo_run (verifyContractByName host svc "" name args)
           (fun r _ _ t' =>
              r = Throw ProxyNotFound /\
              grows_without is_chain_call (trace st) t')).
  wp_run_known. split; [reflexivity | trace_grows].
Qed.

(** X11.  [verifyContractByName] requests the verification whether or not
    the network has a [verifyURL]: when the steps before it succeed, its
    last call is the verification request for the proxy address with the
    source and the bytecode of the artifact, and it completes as that
    request does. *)
Theorem verifyContractByName_always_requests proxyAddress name args
    (st : State svc) w a rm1 provider impl rm2 rm3 encoded :
  proxyAddress <> "" ->
  getWallet host None = Normal w ->
  loadArtifact svc name (remote st) = (Normal a, rm1) ->
  getProvider host = Normal provider ->
  getImplementationAddress svc provider proxyAddress rm1
  = (Normal impl, rm2) ->
  getContractAt svc (abi a) proxyAddress rm2 = (Normal tt, rm3) ->
  encodeDeploy host (abi a) args = Normal encoded ->
  let request :=
    {| v_address := proxyAddress;
       v_contract := sourceName a +:+ ":" +:+ contractName a;
       v_constructorArguments := encoded;
       v_bytecode := bytecode a;
       v_noCompile := true |} in
  let verified := verifyContractByName host svc proxyAddress name args st in
  verified.1 = match (run_verify svc request rm3).1 with
               | Normal _ => Normal tt
               | Throw e => Throw e
               end /\
  calls_between st verified.2
    [EvVerify request; EvGetContractAt proxyAddress;
     EvGetImplementationAddress proxyAddress; EvLoadArtifact name].
Proof.
  intros Hne Hw Ha Hprov Himpl Hat Henc. cbv zeta. unfold calls_between.
  destruct proxyAddress as [|ch rest]; [congruence|].
  apply (wpo_run (verifyContractByName host svc (String ch rest) name args)
           (fun r _ _ t' =>
              r = match
                    (run_verify svc
                       {| v_address := String ch rest;
                          v_contract :=
                            sourceName a +:+ ":" +:+ contractName a;
                          v_constructorArguments := encoded;
                          v_bytecode := bytecode a;
                          v_noCompile := true |} rm3).1
                  with
                  | Normal _ => Normal tt
                  | Throw e => Throw e
                  end /\
              t' = ([EvVerify
                       {| v_address := String ch rest;
                          v_contract :=
                            sourceName a +:+ ":" +:+ contractName a;
                          v_constructorArguments := encoded;
                          v_bytecode := bytecode a;
                          v_noCompile := true |};
                     EvGetContractAt (String ch rest);
                     EvGetImplementationAddress (String ch rest);
                     EvLoadArtifact name] ++ trace st)%list)).
  wp_run_known; split; reflexivity.
Qed.

(** The directories that [mkdirSync] makes for [p] are [p] and
    directories above it. *)
Lemma parents_head fuel (p : string) : p ∈ parents host fuel p.
Proof. destruct fuel; simpl; apply elem_of_cons; now left. Qed.

Lemma parents_above fuel (p d : string) :
  d ∈ parents host fuel p ->
  exists n, d = Nat.iter n (path_dirname host) p.
Proof.
  revert p. induction fuel as [|fuel IH]; intros p Hd; simpl in Hd.
  - apply list_elem_of_singleton in Hd as ->. now exists 0%nat.
  - apply elem_of_cons in Hd as [->|Hd]; [now exists 0%nat|].
    destruct (String.eqb _ _); [now apply elem_of_nil in Hd|].
    destruct (IH _ Hd) as [n ->]. exists (Datatypes.S n).
    now rewrite Nat.iter_succ_r.
Qed.

(** X12.  [createOrGetDeployLog] makes sure that the log directory exists:
    when it is missing, the call creates it together with its parents
    ([recursive: true]), and it creates no directory that is not the log
    directory or above it; when it exists, no directory is created.  The
    call reaches no external service; on a ledger file that does not parse
    it throws the error of [JSON.parse]. *)
Theorem createOrGetDeployLog_directory networkName (st : State svc) :
  let loaded := createOrGetDeployLog host svc networkName st in
  let deployLogPath := deployLogPath_of host networkName in
  let logPath := path_dirname host deployLogPath in
  existsSync svc logPath loaded.2 = true /\
  (existsSync svc logPath st = true -> dirs loaded.2 = dirs st) /\
  (existsSync svc logPath st = false ->
   dirs loaded.2
   = list_to_set (parents host (String.length logPath) logPath) ∪ dirs st) /\
  (forall d,
     d ∈ dirs loaded.2 ->
     d ∈ dirs st \/ exists n, d = Nat.iter n (path_dirname host) logPath) /\
  remote loaded.2 = remote st /\ trace loaded.2 = trace st /\
  (forall data e,
     files st !! deployLogPath = Some data ->
     JSON_parse host data = Throw e ->
     loaded.1 = Throw e).
Proof.
  cbv zeta.
  unfold createOrGetDeployLog, deployLogPath_of, bind, console_log, ret,
    lift.
  set (deployLogPath := zkLinkRoot host +:+ "/log/" +:+ networkName +:+ ".log").
  set (logPath := path_dirname host deployLogPath).
  cbn [fst snd].
  match goal with
  | |- context [existsSync svc logPath ?s] =>
      lazymatch s with
      | st => fail
      | _ => change (existsSync svc logPath s) with (existsSync svc logPath st)
      end
  end.
  pose proof (parents_head (String.length logPath) logPath) as Hhead.
  destruct (existsSync svc logPath st) eqn:Hex; unfold mkdirSync;
    cbn [fst snd files];
    destruct (files st !! deployLogPath) as [data|] eqn:Hfile;
    cbn [fst snd]; try destruct (JSON_parse host data) eqn:Hparse;
    cbn [fst snd dirs files remote trace].
  all: split;
    [first [ exact Hex
           | unfold existsSync; cbn [dirs files];
             rewrite bool_decide_eq_true_2 by set_solver; reflexivity ]|].
  all: split; [intros; congruence || reflexivity|].
  all: split; [intros; congruence || reflexivity|].
  all: split;
    [intros d Hd;
     first [ now left
           | apply elem_of_union in Hd as [Hd|Hd]; [|now left];
             apply elem_of_list_to_set in Hd; right;
             exact (parents_above _ _ _ Hd) ]|].
  all: split; [reflexivity|]. all: split; [reflexivity|].
  all: intros; congruence.
Qed.

(** ** What [silent] changes *)

Lemma same_but_console_refl (s : State svc) : same_but_console s s.
Proof. repeat split. Qed.

Lemma agree_ret {A} (a : A) : agree (svc := svc) (ret a) (ret a).
Proof. intros s1 s2 Hs. split; [reflexivity | exact Hs]. Qed.

Lemma agree_throw {A} e : agree (svc := svc) (A := A) (throw e) (throw e).
Proof. intros s1 s2 Hs. split; [reflexivity | exact Hs]. Qed.

Lemma agree_lift {A} (c : Completion A) :
  agree (svc := svc) (lift c) (lift c).
Proof. intros s1 s2 Hs. split; [reflexivity | exact Hs]. Qed.

Lemma agree_bind {A B} (m1 m2 : M A) (k1 k2 : A -> M B) :
  agree m1 m2 -> (forall a, agree (k1 a) (k2 a)) ->
  agree (bind m1 k1) (bind m2 k2).
Proof.
  intros Hm Hk s1 s2 Hs. unfold bind.
  destruct (Hm s1 s2 Hs) as [Hr Hs'].
  destruct (m1 s1) as [[a1|e1] s1'], (m2 s2) as [[a2|e2] s2'];
    simpl in Hr, Hs'; try discriminate.
  - injection Hr as ->. now apply Hk.
  - injection Hr as ->. split; [reflexivity | exact Hs'].
Qed.

Lemma agree_catch {A} (m1 m2 : M A) (h1 h2 : JsValue -> M A) :
  agree m1 m2 -> (forall e, agree (h1 e) (h2 e)) ->
  agree (catch m1 h1) (catch m2 h2).
Proof.
  intros Hm Hh s1 s2 Hs. unfold catch.
  destruct (Hm s1 s2 Hs) as [Hr Hs'].
  destruct (m1 s1) as [[a1|e1] s1'], (m2 s2) as [[a2|e2] s2'];
    simpl in Hr, Hs'; try discriminate.
  - injection Hr as ->. split; [reflexivity | exact Hs'].
  - injection Hr as ->. now apply Hh.
Qed.

Lemma agree_log o1 o2 msg1 msg2 :
  agree (svc := svc) (log o1 msg1) (log o2 msg2).
Proof.
  intros s1 s2 Hs. unfold log, console_log, ret.
  destruct (negb _), (negb _); split; try reflexivity; exact Hs.
Qed.

Lemma agree_console_log msg :
  agree (svc := svc) (console_log msg) (console_log msg).
Proof. intros s1 s2 Hs. split; [reflexivity | exact Hs]. Qed.

Lemma agree_console_error msg :
  agree (svc := svc) (console_error msg) (console_error msg).
Proof. intros s1 s2 Hs. split; [reflexivity | exact Hs]. Qed.

Lemma agree_external {A} ev
    (call : Remote svc -> Completion A * Remote svc) :
  agree (external ev call) (external ev call).
Proof.
  intros s1 s2 (Hf & Hd & Hr & Ht). unfold external. rewrite Hr.
  destruct (call (remote s2)) as [r rm']. simpl.
  split; [reflexivity|]. repeat split; simpl; congruence.
Qed.

Lemma agree_writeFileSync p data :
  agree (svc := svc) (writeFileSync p data) (writeFileSync p data).
Proof.
  intros s1 s2 (Hf & Hd & Hr & Ht). split; [reflexivity|].
  repeat split; simpl; congruence.
Qed.

Lemma agree_createOrGetDeployLog networkName :
  agree (createOrGetDeployLog host svc networkName)
        (createOrGetDeployLog host svc networkName).
Proof.
  intros s1 s2 (Hf & Hd & Hr & Ht).
  unfold createOrGetDeployLog, bind, console_log, ret, mkdirSync, lift,
    existsSync.
  cbn [fst snd files dirs]. rewrite Hf, Hd.
  destruct (bool_decide _ || bool_decide _); cbn [fst snd files];
    rewrite ?Hf;
    destruct (files s2 !! _) as [data|]; cbn [fst snd];
    try destruct (JSON_parse host data); cbn [fst snd];
    (split; [reflexivity|]); repeat split; simpl; congruence.
Qed.

Ltac agree_step :=
  lazymatch goal with
  | |- agree (bind _ _) (bind _ _) =>
      apply agree_bind; [|intros ?; cbv beta]
  | |- agree (catch _ _) (catch _ _) =>
      apply agree_catch; [|intros ?; cbv beta]
  | |- agree (log _ _) (log _ _) => apply agree_log
  | |- agree (console_log _) (console_log _) => apply agree_console_log
  | |- agree (console_error _) (console_error _) =>
      apply agree_console_error
  | |- agree (external _ _) (external _ _) => apply agree_external
  | |- agree (writeFileSync _ _) (writeFileSync _ _) =>
      apply agree_writeFileSync
  | |- agree (createOrGetDeployLog _ _ _) (createOrGetDeployLog _ _ _) =>
      apply agree_createOrGetDeployLog
  | |- agree (ret _) (ret _) => apply agree_ret
  | |- agree (throw _) (throw _) => apply agree_throw
  | |- agree (lift _) (lift _) => apply agree_lift
  | |- agree (if ?b then _ else _) (if ?b then _ else _) => destruct b
  | |- agree (let (_, _) := ?x in _) _ => destruct x
  end.

(** X13.  [options.silent] changes what is printed and nothing else: with
    the flag replaced by any other value, [deployContract] and
    [upgradeContract] complete with the same value or the same error and
    leave the same files, directories, services and calls. *)
Theorem silent_changes_console_only name args options initArgs b
    (st : State svc) :
  let options' := with_silent b options in
  let deployed := deployContract host svc name args options initArgs st in
  let deployed' := deployContract host svc name args options' initArgs st in
  let upgraded := upgradeContract host svc name args options st in
  let upgraded' := upgradeContract host svc name args options' st in
  (deployed.1 = deployed'.1 /\ same_but_console deployed.2 deployed'.2) /\
  (upgraded.1 = upgraded'.1 /\ same_but_console upgraded.2 upgraded'.2).
Proof.
  cbv zeta. split.
  - enough (Hagree :
        agree (deployContract host svc name args options initArgs)
          (deployContract host svc name args (with_silent b options)
             initArgs))
      by (apply Hagree, same_but_console_refl).
    unfold deployContract, verifyEnoughBalance, verifyContract, wallet_of,
      with_silent.
    cbn [mbind option_bind noVerify wallet upgradable kind unsafeAllow].
    repeat agree_step.
  - enough (Hagree :
        agree (upgradeContract host svc name args options)
          (upgradeContract host svc name args (with_silent b options)))
      by (apply Hagree, same_but_console_refl).
    unfold upgradeContract, verifyEnoughBalance, verifyContract, wallet_of,
      with_silent.
    cbn [mbind option_bind noVerify wallet upgradable kind unsafeAllow].
    repeat agree_step.
Qed.

(** ** One call after another *)

(** X14.  After a [deployContract] call that returned, the next call loads
    the ledger that it wrote, when [JSON.parse] reads back what
    [JSON.stringify] printed.  A further successful deployment then maps
    its own contract name to its own address, so the latest deployment of a
    name wins; it keeps the entry of the earlier deployment when the
    earlier name is neither the name of the later contract nor that name
    followed by [_Implementation].  A successful upgrade of the same
    contract name returns a handle bound to the address that the
    deployment recorded.  All three are said of contracts that are not
    named [__proto__], the one name that a deployment does not record. *)
Theorem next_call_sees_deployment name args options initArgs
    (st : State svc) l a c encoded l' rm :
  deployment host svc name args options initArgs st l a c encoded l' rm ->
  (verification_requested host options = false \/
   exists id rm',
     run_verify svc
       {| v_address := contract_address c;
          v_contract := sourceName a +:+ ":" +:+ contractName a;
          v_constructorArguments := encoded;
          v_bytecode := bytecode a;
          v_noCompile := true |} rm
     = (Normal id, rm')) ->
  JSON_parse host (JSON_stringify host l') = Normal l' ->
  let st1 := (deployContract host svc name args options initArgs st).2 in
  stored_ledger host st1 = Normal l' /\
  (forall name2 args2 options2 initArgs2 c2,
     let deployed :=
       deployContract host svc name2 args2 options2 initArgs2 st1 in
     deployed.1 = Normal c2 ->
     exists a2 l2,
       (exists rm2, loadArtifact svc name2 (remote st1) = (Normal a2, rm2)) /\
       ledger_written host (files st1) l2 (files deployed.2) /\
       (contractName a2 <> "__proto__" ->
        l2 !! contractName a2 = Some (contract_address c2)) /\
       (contractName a <> "__proto__" ->
        contractName a <> contractName a2 ->
        contractName a <> implementation_key (contractName a2) ->
        l2 !! contractName a = Some (contract_address c))) /\
  (forall name2 args2 options2 c2,
     (upgradeContract host svc name2 args2 options2 st1).1 = Normal c2 ->
     exists a2,
       (exists rm2, loadArtifact svc name2 (remote st1) = (Normal a2, rm2)) /\
       (contractName a <> "__proto__" ->
        contractName a2 = contractName a ->
        contract_address c2 = contract_address c)).
Proof.
  intros Hd Hv Hjson. cbv zeta.
  destruct (deployment_entries _ _ _ _ _ _ _ _ _ _ _ Hd)
    as (_ & _ & Hentry & _).
  destruct (deployment_completes _ _ _ _ _ _ _ _ _ _ _ Hd Hv)
    as [_ Hwritten].
  pose proof (ledger_written_stored _ _ _ Hwritten Hjson) as Hstored.
  set (st1 := (deployContract host svc name args options initArgs st).2)
    in *.
  split; [exact Hstored|]. split.
  - intros name2 args2 options2 initArgs2 c2 Hret.
    destruct (wpo_run _ _ st1
                (deployContract_effect name2 args2 options2 initArgs2 st1))
      as [[[e He] _]
         |(l1 & a2 & c' & encoded2 & l2 & rm2 & Hd2 & Hw2 & [Hr|[e He]])];
      rewrite Hret in *; try discriminate.
    injection Hr as ->.
    destruct (deployment_entries _ _ _ _ _ _ _ _ _ _ _ Hd2)
      as (Hl1 & Ha2 & Hentry2 & Hframe & _).
    rewrite Hstored in Hl1. injection Hl1 as <-.
    exists a2, l2. split; [exact Ha2|]. split; [exact Hw2|]. split.
    + intros Hplain. apply Hentry2. now left.
    + intros Hplain Hn1 Hn2. rewrite Hframe by assumption.
      apply Hentry. now left.
  - intros name2 args2 options2 c2 Hret.
    destruct (wpo_run _ _ st1
                (upgradeContract_effect name2 args2 options2 st1))
      as [[[e He] _]
         |(l1 & a2 & proxyAddress & impl & rm2 & Hu & _
           & [(address & Haddress & Hr)|[e He]])];
      rewrite Hret in *; try discriminate.
    injection Hr as ->.
    destruct (upgrade_entries _ _ _ _ _ _ _ _ _ Hu)
      as (Hl1 & Ha2 & Hproxy & _).
    rewrite Hstored in Hl1. injection Hl1 as <-.
    exists a2. split; [exact Ha2|].
    intros Hplain Hname. rewrite Hname in Hproxy.
    assert (Hread : property l' (contractName a)
                    = Address (contract_address c))
      by (apply property_Address, Hentry; now left).
    rewrite Hread in Hproxy. rewrite <- Hproxy in Haddress.
    simpl in *. congruence.
Qed.

(** ** Which resolver errors are translated *)

Lemma prefix_iff (needle hay : string) :
  String.prefix needle hay = true <-> exists post, hay = needle +:+ post.
Proof.
  revert needle. induction hay as [|d hay IH]; intros [|c needle]; simpl.
  - split; [intros _; now exists "" | reflexivity].
  - split; [discriminate | intros [post Hpost]; discriminate Hpost].
  - split; [intros _; now exists (String d hay) | reflexivity].
  - destruct (ascii_dec c d) as [->|Hcd].
    + rewrite IH. split; intros [post Hpost]; exists post.
      * rewrite append_String. now f_equal.
      * rewrite append_String in Hpost. now injection Hpost.
    + split; [discriminate|].
      intros [post Hpost]. rewrite append_String in Hpost.
      injection Hpost as -> _. contradiction.
Qed.

Lemma includes_cons needle c hay :
  includes needle (String c hay)
  = String.prefix needle (String c hay) || includes needle hay.
Proof. reflexivity. Qed.

Lemma includes_iff (needle hay : string) :
  includes needle hay = true <->
  exists pre post, hay = pre +:+ needle +:+ post.
Proof.
  induction hay as [|c hay IH].
  - change (includes needle "") with (String.prefix needle "" || false).
    rewrite orb_false_r, prefix_iff. split.
    + intros [post Hpost]. now exists "", post.
    + intros ([|d pre] & post & Hpre).
      * now exists post.
      * rewrite append_String in Hpre. discriminate Hpre.
  - rewrite includes_cons, orb_true_iff, prefix_iff, IH. split.
    + intros [[post Hpost]|(pre & post & Hpre)].
      * now exists "", post.
      * exists (String c pre), post. rewrite append_String. now f_equal.
    + intros ([|d pre] & post & Hpre).
      * left. now exists post.
      * right. rewrite append_String in Hpre. injection Hpre as -> Hpre.
        now exists pre, post.
Qed.

(** The test of the three handlers holds exactly of the [Error] objects
    whose message holds the sentence. *)
Lemma artifact_not_found_iff name e :
  artifact_not_found name e = true <->
  exists pre post,
    e = JsError (pre +:+ ("Artifact for contract " +:+ dq +:+ name +:+ dq
                          +:+ " not found.") +:+ post).
Proof.
  unfold artifact_not_found. destruct e as [s|m|tag]; simpl.
  - split; [discriminate | intros (pre & post & Hpre); discriminate Hpre].
  - rewrite includes_iff. split; intros (pre & post & Hpre);
      exists pre, post; congruence.
  - split; [discriminate | intros (pre & post & Hpre); discriminate Hpre].
Qed.

(** X15.  When the artifact resolver throws, [deployContract],
    [upgradeContract] and [verifyContractByName] replace its error by
    their own string exactly when the error is an [Error] object whose
    message holds, anywhere in it, the sentence
    [Artifact for contract "<name>" not found.] with the name as it was
    passed.  Any other value that the resolver throws (a string, a value
    without message, an [Error] with another message) is thrown on as it
    is by all three. *)
Theorem resolver_errors_translated name args options initArgs proxyAddress
    (st : State svc) l w w' e rm1 :
  stored_ledger host st = Normal l ->
  wallet_of host options = Normal w ->
  getWallet host None = Normal w' ->
  loadArtifact svc name (remote st) = (Throw e, rm1) ->
  let sentence :=
    "Artifact for contract " +:+ dq +:+ name +:+ dq +:+ " not found." in
  let deployed := deployContract host svc name args options initArgs st in
  let upgraded := upgradeContract host svc name args options st in
  let verified := verifyContractByName host svc proxyAddress name args st in
  ((exists pre post, e = JsError (pre +:+ sentence +:+ post)) ->
   deployed.1
   = Throw (JsString
       "⛔️ Please make sure you have compiled your contracts or specified the correct contract name!")
   /\
   upgraded.1
   = Throw (JsString
       "Please make sure you have compiled your contracts or specified the correct contract name!")
   /\
   verified.1
   = Throw (JsString
       "Please make sure you have compiled your contracts or specified the correct contract name!"))
  /\
  (~ (exists pre post, e = JsError (pre +:+ sentence +:+ post)) ->
   deployed.1 = Throw e /\ upgraded.1 = Throw e /\ verified.1 = Throw e).
Proof.
  intros Hl Hw Hw' Ha. cbv zeta. unfold stored_ledger in Hl.
  rewrite <- artifact_not_found_iff.
  assert (Hd :
    (deployContract host svc name args options initArgs st).1
    = Throw (if artifact_not_found name e
             then ArtifactNotFound_deploy else e)).
  { apply (wpo_run (deployContract host svc name args options initArgs)
             (fun r _ _ _ =>
                r = Throw (if artifact_not_found name e
                           then ArtifactNotFound_deploy else e))).
    wp_run; reflexivity. }
  assert (Hu :
    (upgradeContract host svc name args options st).1
    = Throw (if artifact_not_found name e
             then ArtifactNotFound_upgrade else e)).
  { apply (wpo_run (upgradeContract host svc name args options)
             (fun r _ _ _ =>
                r = Throw (if artifact_not_found name e
                           then ArtifactNotFound_upgrade else e))).
    wp_run; reflexivity. }
  assert (Hv :
    (verifyContractByName host svc proxyAddress name args st).1
    = Throw (if artifact_not_found name e
             then ArtifactNotFound_upgrade else e)).
  { apply (wpo_run (verifyContractByName host svc proxyAddress name args)
             (fun r _ _ _ =>
                r = Throw (if artifact_not_found name e
                           then ArtifactNotFound_upgrade else e))).
    unfold verifyContractByName. wp_run; reflexivity. }
  rewrite Hd, Hu, Hv.
  split; intros Hnf.
  - rewrite Hnf. repeat split.
  - apply not_true_is_false in Hnf. rewrite Hnf. repeat split.
Qed.

(** X20.  A ledger file that does not parse, or a wallet that cannot be
    opened, stops [deployContract] and [upgradeContract] at once: they
    throw that error, call no external service and write no file. *)
Theorem configuration_errors_block_calls name args options initArgs
    (st : State svc) e :
  stored_ledger host st = Throw e \/
  ((exists l, stored_ledger host st = Normal l) /\
   wallet_of host options = Throw e) ->
  let deployed := deployContract host svc name args options initArgs st in
  let upgraded := upgradeContract host svc name args options st in
  (deployed.1 = Throw e /\ files deployed.2 = files st /\
   remote deployed.2 = remote st /\ trace deployed.2 = trace st) /\
  (upgraded.1 = Throw e /\ files upgraded.2 = files st /\
   remote upgraded.2 = remote st /\ trace upgraded.2 = trace st).
Proof.
  intros Hstop. cbv zeta. unfold stored_ledger in Hstop.
  split.
  - apply (wpo_run (deployContract host svc name args options initArgs)
             (fun r fs' rm' t' =>
                r = Throw e /\ fs' = files st /\ rm' = remote st /\
                t' = trace st) st).
    destruct Hstop as [Hl | [[l Hl] Hw]]; wp_run; repeat split.
  - apply (wpo_run (upgradeContract host svc name args options)
             (fun r fs' rm' t' =>
                r = Throw e /\ fs' = files st /\ rm' = remote st /\
                t' = trace st) st).
    destruct Hstop as [Hl | [[l Hl] Hw]]; wp_run; repeat split.
Qed.

(** X21.  The kind of submission follows the function and the flag:
    [deployContract] never calls [upgradeProxy], calls [deployProxy] only
    when [options.upgradable] is set and [deploy] only when it is not;
    [upgradeContract] calls neither [deploy] nor [deployProxy]. *)
Theorem submission_follows_flag name args options initArgs (st : State svc) :
  let deployed := deployContract host svc name args options initArgs st in
  let upgraded := upgradeContract host svc name args options st in
  grows_without is_proxy_upgrade (trace st) (trace deployed.2) /\
  grows_without
    (if truthy_bool (options ≫= upgradable) then is_plain_deployment
     else is_proxy_deployment)
    (trace st) (trace deployed.2) /\
  grows_without is_plain_deployment (trace st) (trace upgraded.2) /\
  grows_without is_proxy_deployment (trace st) (trace upgraded.2).
Proof.
  cbv zeta. split; [|split; [|split]].
  - apply (wpo_run (deployContract host svc name args options initArgs)
             (fun _ _ _ t' => grows_without is_proxy_upgrade (trace st) t')).
    wp_run; trace_grows.
  - destruct (truthy_bool (options ≫= upgradable)) eqn:Hup.
    + apply (wpo_run (deployContract host svc name args options initArgs)
               (fun _ _ _ t' =>
                  grows_without is_plain_deployment (trace st) t')).
      wp_run; trace_grows.
    + apply (wpo_run (deployContract host svc name args options initArgs)
               (fun _ _ _ t' =>
                  grows_without is_proxy_deployment (trace st) t')).
      wp_run; trace_grows.
  - apply (wpo_run (upgradeContract host svc name args options)
             (fun _ _ _ t' =>
                grows_without is_plain_deployment (trace st) t')).
    wp_run; trace_grows.
  - apply (wpo_run (upgradeContract host svc name args options)
             (fun _ _ _ t' =>
                grows_without is_proxy_deployment (trace st) t')).
    wp_run; trace_grows.
Qed.

End Paths.

(** * Properties of the minting scripts *)

Section ScriptProofs.

Variable deps : Scripts.Deps.
Variable gw : Scripts.Gateway.

Local Abbreviation World := (Scripts.World gw).

(** ** Counting and ordering calls *)

Lemma mints_app (cs2 cs1 : list Scripts.Call) :
  Scripts.mints (cs2 ++ cs1) = (Scripts.mints cs2 + Scripts.mints cs1)%nat.
Proof. unfold Scripts.mints. now rewrite filter_app, length_app. Qed.

Lemma waits_app (cs2 cs1 : list Scripts.Call) :
  Scripts.waits (cs2 ++ cs1) = (Scripts.waits cs2 + Scripts.waits cs1)%nat.
Proof. unfold Scripts.waits. now rewrite filter_app, length_app. Qed.

Lemma minted_labels_app (cs2 cs1 : list Scripts.Call) :
  Scripts.minted_labels (cs2 ++ cs1)
  = (Scripts.minted_labels cs1 ++ Scripts.minted_labels cs2)%list.
Proof. unfold Scripts.minted_labels. now rewrite rev_app_distr, omap_app. Qed.

Lemma awaited_app (cs2 cs1 : list Scripts.Call) :
  Scripts.awaited cs2 = true -> Scripts.awaited cs1 = true -> Scripts.settled cs1 ->
  Scripts.awaited (cs2 ++ cs1) = true.
Proof.
  intros H2 H1 Hs. induction cs2 as [|x [|y rest] IH].
  - exact H1.
  - destruct cs1 as [|c cs1]; [reflexivity|].
    simpl in *. now rewrite Hs.
  - simpl in H2. apply andb_true_iff in H2 as [Hxy Hrest].
    change (Scripts.awaited ((x :: y :: rest) ++ cs1))
      with ((if Scripts.is_mint y then Scripts.is_wait x else true)
            && Scripts.awaited ((y :: rest) ++ cs1)).
    rewrite Hxy. simpl. now apply IH.
Qed.

(** ** One round of minting *)

(** Sign, mint and settle: the body of both loops and the tail of the
    NovaNFT script. *)
Lemma round_made contract account label signed
    (mint : string -> Scripts.Net gw ->
            Completion Scripts.Transaction * Scripts.Net gw)
    (s : World) :
  let round :=
    Scripts.seq gw (Scripts.attempt gw signed)
      (fun signature =>
         Scripts.seq gw
           (Scripts.await gw (Scripts.CSafeMint account label signature)
              (mint signature))
           (fun transaction =>
              Scripts.settle gw contract account transaction)) in
  exists cs,
    Scripts.made gw s (round s).2 cs /\
    Scripts.round_calls account label signed (round s).1 cs.
Proof.
  cbv zeta.
  unfold Scripts.settle, Scripts.seq, Scripts.attempt, Scripts.await,
    Scripts.print, Scripts.pure, Scripts.made, Scripts.round_calls.
  destruct signed as [signature|e]; cbn [fst snd Scripts.calls Scripts.net].
  2: { exists []. split; [reflexivity | now left]. }
  destruct (mint signature (Scripts.net gw s)) as [[transaction|e] n1];
    cbn [fst snd Scripts.calls Scripts.net].
  2: { eexists [_]. split; [reflexivity|]. right. eauto. }
  destruct (Scripts.wait gw transaction n1) as [[[]|e] n2];
    cbn [fst snd Scripts.calls Scripts.net].
  2: { eexists [_; _]. split; [reflexivity|]. right. eauto 6. }
  destruct (Scripts.balanceOf gw contract account n2) as [[balance|e] n3];
    cbn [fst snd Scripts.calls Scripts.net].
  - eexists [_; _; _]. split; [reflexivity|]. eauto.
  - eexists [_; _; _]. split; [reflexivity|]. right. eauto 7.
Qed.

(** Find a mint in an explicit list of calls. *)
Ltac mint_in :=
  let Hin := fresh "Hin" in
  intros ? ? ? Hin;
  repeat (apply elem_of_cons in Hin as [Hin|Hin];
          [try discriminate Hin; try (injection Hin as -> -> ->; auto)|]);
  apply elem_of_nil in Hin; contradiction.

(** What the calls of one round add up to. *)
Lemma round_calls_facts account label signed r cs :
  Scripts.round_calls account label signed r cs ->
  Scripts.awaited cs = true /\
  (Scripts.mints cs <= 1)%nat /\
  (Scripts.waits cs <= Scripts.mints cs)%nat /\
  (forall a lab sig,
     Scripts.CSafeMint a lab sig ∈ cs ->
     a = account /\ lab = label /\ signed = Normal sig) /\
  (Scripts.minted_labels cs = [] \/
   Scripts.minted_labels cs = option_list label) /\
  (forall u, r = Normal u ->
     Scripts.mints cs = 1%nat /\ Scripts.waits cs = 1%nat /\
     Scripts.settled cs /\
     Scripts.minted_labels cs = option_list label).
Proof.
  assert (Hlabels : forall signature,
    Scripts.minted_labels [Scripts.CSafeMint account label signature]
    = option_list label) by (intros; now destruct label).
  assert (Hlabels2 : forall signature transaction,
    Scripts.minted_labels
      [Scripts.CWait transaction; Scripts.CSafeMint account label signature]
    = option_list label) by (intros; now destruct label).
  assert (Hlabels3 : forall signature transaction,
    Scripts.minted_labels
      [Scripts.CBalanceOf account; Scripts.CWait transaction;
       Scripts.CSafeMint account label signature]
    = option_list label) by (intros; now destruct label).
  unfold Scripts.round_calls.
  destruct r as [u|e].
  - intros (signature & transaction & -> & ->).
    split; [reflexivity|]. split; [cbv; lia|]. split; [cbv; lia|].
    split; [mint_in|]. split; [right; apply Hlabels3|].
    intros _ _. repeat split; apply Hlabels3.
  - intros [->|(signature & -> & [->|(transaction & [->| ->])])].
    all: split; [reflexivity|]; split; [cbv; lia|]; split; [cbv; lia|].
    all: split; [mint_in|]; split; [auto|discriminate].
Qed.

(** ** The loops *)

Lemma sequenced_nil account signed : Scripts.sequenced account signed [].
Proof.
  split; [reflexivity|]. split; [reflexivity|].
  intros a lab sig Hin. now apply elem_of_nil in Hin.
Qed.

Lemma sequenced_app account signed cs2 cs1 :
  Scripts.sequenced account signed cs2 ->
  Scripts.sequenced account signed cs1 ->
  Scripts.settled cs1 ->
  Scripts.sequenced account signed (cs2 ++ cs1).
Proof.
  intros (Ha2 & Hw2 & Hm2) (Ha1 & Hw1 & Hm1) Hs.
  split; [now apply awaited_app|]. split.
  - rewrite waits_app, mints_app. lia.
  - intros a lab sig Hin. apply elem_of_app in Hin as [Hin|Hin]; eauto.
Qed.

Lemma settled_app (cs2 cs1 : list Scripts.Call) :
  Scripts.settled cs2 -> Scripts.settled cs1 -> Scripts.settled (cs2 ++ cs1).
Proof. destruct cs2; simpl; auto. Qed.

Lemma made_trans (s s1 s2 : World) cs1 cs2 :
  Scripts.made gw s s1 cs1 -> Scripts.made gw s1 s2 cs2 ->
  Scripts.made gw s s2 (cs2 ++ cs1).
Proof.
  unfold Scripts.made. intros H1 H2. now rewrite H2, H1, app_assoc.
Qed.

(** Nothing was called. *)
Lemma outcome_nil account signed n items e :
  Scripts.outcome account signed n items (Throw e) [].
Proof.
  split; [apply sequenced_nil|]. split; [cbv; lia|].
  split; [apply prefix_nil|]. intros u Hu. discriminate Hu.
Qed.

Lemma outcome_done account signed u :
  Scripts.outcome account signed 0 [] (Normal u) [].
Proof.
  split; [apply sequenced_nil|]. split; [reflexivity|].
  split; [reflexivity|]. intros _ _. repeat split.
Qed.

Lemma outcome_throw account signed n items r cs e :
  Scripts.outcome account signed n items r cs ->
  Scripts.outcome account signed n items (Throw e) cs.
Proof.
  intros (Hseq & Hle & Hprefix & _).
  split; [exact Hseq|]. split; [exact Hle|]. split; [exact Hprefix|].
  intros u Hu. discriminate Hu.
Qed.

(** One round. *)
Lemma outcome_round account label signed r cs :
  Scripts.round_calls account label signed r cs ->
  Scripts.outcome account signed 1 (option_list label) r cs /\
  (forall u, r = Normal u -> Scripts.settled cs).
Proof.
  intros Hr.
  destruct (round_calls_facts _ _ _ _ _ Hr)
    as (Ha & Hone & Hw & Hm & Hlabels & Hdone).
  split; [split; [|split; [|split]]|].
  - split; [exact Ha|]. split; [exact Hw|].
    intros a lab sig Hin. now destruct (Hm a lab sig Hin) as (? & ? & ?).
  - exact Hone.
  - destruct Hlabels as [-> | ->]; [apply prefix_nil | reflexivity].
  - intros u Hu. destruct (Hdone u Hu) as (? & ? & _ & ?). now repeat split.
  - intros u Hu. now destruct (Hdone u Hu) as (_ & _ & ? & _).
Qed.

(** A round that completed, and then what follows it. *)
Lemma outcome_after account signed n1 items1 n2 items2 u r cs1 cs2 :
  Scripts.outcome account signed n1 items1 (Normal u) cs1 ->
  Scripts.settled cs1 ->
  Scripts.outcome account signed n2 items2 r cs2 ->
  Scripts.outcome account signed (n1 + n2) (items1 ++ items2) r (cs2 ++ cs1).
Proof.
  intros (Hseq1 & _ & _ & Hdone1) Hs1 (Hseq2 & Hle2 & Hprefix2 & Hdone2).
  destruct (Hdone1 u eq_refl) as (Hm1 & Hw1 & Hl1).
  split; [now apply sequenced_app|].
  rewrite mints_app, waits_app, minted_labels_app, Hl1.
  split; [lia|]. split; [now apply prefix_app|].
  intros u' Hu. destruct (Hdone2 u' Hu) as (Hm2 & Hw2 & Hl2).
  rewrite Hl2. repeat split; lia.
Qed.

(** More was to be minted than the calls made so far were to mint. *)
Lemma outcome_more account signed n1 items1 n2 items2 e cs :
  Scripts.outcome account signed n1 items1 (Throw e) cs ->
  Scripts.outcome account signed (n1 + n2) (items1 ++ items2) (Throw e) cs.
Proof.
  intros (Hseq & Hle & Hprefix & _).
  split; [exact Hseq|]. split; [lia|].
  split; [now apply prefix_app_r|]. intros u Hu. discriminate Hu.
Qed.

(** A call that is neither a mint nor a wait, made before the others. *)
Lemma outcome_opened account signed n items r cs c :
  Scripts.is_mint c = false -> Scripts.is_wait c = false ->
  Scripts.outcome account signed n items r cs ->
  Scripts.outcome account signed n items r (cs ++ [c]).
Proof.
  intros Hc Hw (Hseq & Hle & Hprefix & Hdone).
  assert (Hm0 : Scripts.mints [c] = 0%nat)
    by (unfold Scripts.mints; now rewrite filter_cons_False by congruence).
  assert (Hw0 : Scripts.waits [c] = 0%nat)
    by (unfold Scripts.waits; now rewrite filter_cons_False by congruence).
  assert (Hl0 : Scripts.minted_labels [c] = [])
    by (destruct c; try reflexivity; discriminate Hc).
  split.
  { apply sequenced_app; [exact Hseq| |exact Hc].
    split; [reflexivity|]. split; [lia|].
    intros a lab sig Hin.
    apply elem_of_cons in Hin as [<-|Hin]; [discriminate Hc|].
    now apply elem_of_nil in Hin. }
  rewrite mints_app, waits_app, minted_labels_app, Hm0, Hw0, Hl0.
  rewrite !Nat.add_0_r. simpl. repeat split; try assumption.
  all: intros; now apply Hdone with u.
Qed.

(** [times n] of a round mints at most [n] times, and exactly [n] times
    when it completes. *)
Lemma times_made account signed (body : Scripts.Run gw unit) n :
  (forall s, exists cs,
     Scripts.made gw s (body s).2 cs /\
     Scripts.round_calls account None signed (body s).1 cs) ->
  forall s : World,
    let looped := Scripts.times gw n body s in
    exists cs,
      Scripts.made gw s looped.2 cs /\
      Scripts.outcome account signed n [] looped.1 cs /\
      (forall u, looped.1 = Normal u -> Scripts.settled cs).
Proof.
  intros Hbody. induction n as [|n IH]; intros s; cbv zeta.
  - exists []. split; [reflexivity|]. split; [apply outcome_done|].
    intros u _. exact I.
  - change (Scripts.times gw (S n) body)
      with (Scripts.seq gw body (fun _ => Scripts.times gw n body)).
    unfold Scripts.seq.
    destruct (Hbody s) as (cs1 & Hmade1 & Hround).
    destruct (outcome_round _ _ _ _ _ Hround) as (Hout1 & Hs1).
    destruct (body s) as [[u|e] s1]; cbn [fst snd] in *.
    + destruct (IH s1) as (cs2 & Hmade2 & Hout2 & Hs2).
      exists (cs2 ++ cs1)%list.
      split; [now apply (made_trans _ s1)|]. split.
      * apply (outcome_after _ _ 1 [] n [] u); eauto.
      * intros u' Hu. apply settled_app; eauto.
    + exists cs1. split; [exact Hmade1|]. split.
      * apply (outcome_more _ _ 1 [] n []). exact Hout1.
      * intros u Hu. discriminate Hu.
Qed.

(** [for_each items] of a round mints the items in order, and all of them
    when it completes. *)
Lemma for_each_made account signed (body : string -> Scripts.Run gw unit)
    items :
  (forall item s, exists cs,
     Scripts.made gw s (body item s).2 cs /\
     Scripts.round_calls account (Some item) signed (body item s).1 cs) ->
  forall s : World,
    let looped := Scripts.for_each gw items body s in
    exists cs,
      Scripts.made gw s looped.2 cs /\
      Scripts.outcome account signed (length items) items looped.1 cs /\
      (forall u, looped.1 = Normal u -> Scripts.settled cs).
Proof.
  intros Hbody. induction items as [|item items IH]; intros s; cbv zeta.
  - exists []. split; [reflexivity|]. split; [apply outcome_done|].
    intros u _. exact I.
  - change (Scripts.for_each gw (item :: items) body)
      with (Scripts.seq gw (body item)
              (fun _ => Scripts.for_each gw items body)).
    unfold Scripts.seq.
    destruct (Hbody item s) as (cs1 & Hmade1 & Hround).
    destruct (outcome_round _ _ _ _ _ Hround) as (Hout1 & Hs1).
    destruct (body item s) as [[u|e] s1]; cbn [fst snd] in *.
    + destruct (IH s1) as (cs2 & Hmade2 & Hout2 & Hs2).
      exists (cs2 ++ cs1)%list.
      split; [now apply (made_trans _ s1)|]. split.
      * apply (outcome_after _ _ 1 [item] (length items) items u); eauto.
      * intros u' Hu. apply settled_app; eauto.
    + exists cs1. split; [exact Hmade1|]. split.
      * apply (outcome_more _ _ 1 [item] (length items) items). exact Hout1.
      * intros u Hu. discriminate Hu.
Qed.

(** ** The scripts *)

Lemma character_at_listed q :
  Scripts.character_at q ∈ Scripts.characters.
Proof.
  destruct q; unfold Scripts.character_at, Scripts.characters; simpl;
    repeat constructor.
Qed.

(** X16.  Each script stops before its first call when it lacks an input.
    The two scripts that read the contract address from the environment
    throw when the address is missing or empty, before they print
    anything; all three throw when the key of the witness signer is
    missing or empty, having called nothing. *)
Theorem scripts_stop_without_inputs (s : World) :
  let address_missing :=
    JsString "⛔️ Provide address of the contract to interact with!" in
  let key_missing := JsString "⛔️ Provide WITNESS_SINGER_PRIVATE_KEY" in
  let e := Scripts.env deps in
  (truthy_string (Scripts.CONTRACT_ADDRESS e) = false ->
   Scripts.interact_MysteryBoxNFT deps gw s = (Throw address_missing, s)) /\
  (truthy_string (Scripts.TRADEMARK_CONTRACT_ADDRESS e) = false ->
   Scripts.interact_TrademarkNFT deps gw s = (Throw address_missing, s)) /\
  (truthy_string (Scripts.WITNESS_SINGER_PRIVATE_KEY e) = false ->
   let nova := Scripts.interact_NovaNFT deps gw s in
   let mystery := Scripts.interact_MysteryBoxNFT deps gw s in
   let trademark := Scripts.interact_TrademarkNFT deps gw s in
   (nova.1 = Throw key_missing /\ Scripts.made gw s nova.2 [] /\
    Scripts.net gw nova.2 = Scripts.net gw s) /\
   (truthy_string (Scripts.CONTRACT_ADDRESS e) = true ->
    mystery.1 = Throw key_missing /\ Scripts.made gw s mystery.2 [] /\
    Scripts.net gw mystery.2 = Scripts.net gw s) /\
   (truthy_string (Scripts.TRADEMARK_CONTRACT_ADDRESS e) = true ->
    trademark.1 = Throw key_missing /\ Scripts.made gw s trademark.2 [] /\
    Scripts.net gw trademark.2 = Scripts.net gw s)).
Proof.
  cbv zeta.
  unfold Scripts.interact_NovaNFT, Scripts.interact_MysteryBoxNFT,
    Scripts.interact_TrademarkNFT, Scripts.module_guard, Scripts.seq,
    Scripts.attempt, Scripts.print, Scripts.raise, Scripts.made.
  split; [intros ->; reflexivity|]. split; [intros ->; reflexivity|].
  intros ->. cbn [negb fst snd truthy_string].
  split; [repeat split|]. split; intros ->; repeat split.
Qed.


(** Stepping through a script, one statement at a time. *)
Lemma seq_attempt {A B} (c : Completion A) (k : A -> Scripts.Run gw B) s :
  Scripts.seq gw (Scripts.attempt gw c) k s
  = match c with
    | Normal a => k a s
    | Throw e => (Throw e, s)
    end.
Proof. unfold Scripts.seq, Scripts.attempt. now destruct c. Qed.

Lemma seq_print {B} message (k : unit -> Scripts.Run gw B) s :
  Scripts.seq gw (Scripts.print gw message) k s
  = k tt {| Scripts.net := Scripts.net gw s;
            Scripts.printed := StdOut message :: Scripts.printed gw s;
            Scripts.calls := Scripts.calls gw s |}.
Proof. reflexivity. Qed.

Lemma seq_await {A B} c
    (call : Scripts.Net gw -> Completion A * Scripts.Net gw)
    (k : A -> Scripts.Run gw B) s :
  Scripts.seq gw (Scripts.await gw c call) k s
  = let s' net' :=
      {| Scripts.net := net'; Scripts.printed := Scripts.printed gw s;
         Scripts.calls := c :: Scripts.calls gw s |} in
    match (call (Scripts.net gw s)).1 with
    | Normal a => k a (s' (call (Scripts.net gw s)).2)
    | Throw e => (Throw e, s' (call (Scripts.net gw s)).2)
    end.
Proof.
  unfold Scripts.seq, Scripts.await.
  now destruct (call (Scripts.net gw s)) as [[a|e] net'].
Qed.

Lemma seq_random {B} (k : Scripts.Quarter -> Scripts.Run gw B) s :
  Scripts.seq gw (Scripts.random gw) k s
  = k (Scripts.random_quarter gw (Scripts.net gw s)).1
      {| Scripts.net := (Scripts.random_quarter gw (Scripts.net gw s)).2;
         Scripts.printed := Scripts.printed gw s;
         Scripts.calls := Scripts.calls gw s |}.
Proof.
  unfold Scripts.seq, Scripts.random.
  now destruct (Scripts.random_quarter gw (Scripts.net gw s)).
Qed.

(** The calls that open a script are neither mints nor waits: they keep
    any property [Q] of the outcome that holds when nothing was called and
    survives such a call made first. *)
Section Opening.

Variable Q : Completion unit -> list Scripts.Call -> Prop.
Hypothesis Q_stopped : forall e, Q (Throw e) [].
Hypothesis Q_opened :
  forall r cs c,
    Scripts.is_mint c = false -> Scripts.is_wait c = false ->
    Q r cs -> Q r (cs ++ [c])%list.

(** One such call, and then [rest]. *)
Lemma await_then_made {A} c
    (call : Scripts.Net gw -> Completion A * Scripts.Net gw)
    (rest : A -> Scripts.Run gw unit) (s : World) :
  Scripts.is_mint c = false -> Scripts.is_wait c = false ->
  (forall a s1, exists cs,
     Scripts.made gw s1 (rest a s1).2 cs /\ Q (rest a s1).1 cs) ->
  let script := Scripts.seq gw (Scripts.await gw c call) rest in
  exists cs, Scripts.made gw s (script s).2 cs /\ Q (script s).1 cs.
Proof.
  intros Hc Hw Hrest. cbv zeta. rewrite seq_await. cbv zeta.
  destruct (call (Scripts.net gw s)) as [[a|e] n1]; cbn [fst snd].
  - match goal with
    | |- context [rest a ?s1] =>
        destruct (Hrest a s1) as (cs & Hmade & Hout)
    end.
    exists (cs ++ [c])%list. split.
    + unfold Scripts.made in *. rewrite Hmade. cbn [Scripts.calls].
      now rewrite <- app_assoc.
    + now apply Q_opened.
  - exists ([] ++ [c])%list. split; [reflexivity|].
    apply Q_opened; [exact Hc | exact Hw | apply Q_stopped].
Qed.

(** What the three scripts share: the guards, the artifact and the
    wallet, and then the minting [rest]. *)
Lemma opening_made name address_of
    (rest : string -> Artifact -> Wallet -> Scripts.Run gw unit)
    (s : World) :
  (forall address artifact wallet s1, exists cs,
     Scripts.made gw s1 (rest address artifact wallet s1).2 cs /\
     Q (rest address artifact wallet s1).1 cs) ->
  let script :=
    Scripts.seq gw (Scripts.attempt gw (Scripts.module_guard address_of))
      (fun address =>
         Scripts.seq gw
           (Scripts.print gw
              ("Running script to interact with contract " +:+ address))
           (fun _ =>
              if negb (truthy_string
                         (Scripts.WITNESS_SINGER_PRIVATE_KEY
                            (Scripts.env deps)))
              then
                Scripts.raise gw
                  (JsString "⛔️ Provide WITNESS_SINGER_PRIVATE_KEY")
              else
                Scripts.seq gw
                  (Scripts.await gw (Scripts.CReadArtifact name)
                     (Scripts.readArtifact gw name))
                  (fun artifact =>
                     Scripts.seq gw
                       (Scripts.attempt gw
                          (getWallet (Scripts.host deps) None))
                       (fun wallet => rest address artifact wallet)))) in
  exists cs, Scripts.made gw s (script s).2 cs /\ Q (script s).1 cs.
Proof.
  intros Hrest. cbv zeta.
  rewrite seq_attempt.
  destruct (Scripts.module_guard address_of) as [address|e];
    [|exists []; split; [reflexivity | apply Q_stopped]].
  rewrite seq_print.
  destruct (negb _);
    [exists []; split; [reflexivity | apply Q_stopped]|].
  match goal with
  | |- context [Scripts.seq gw (Scripts.await gw ?c ?call) ?k ?s1] =>
      destruct (await_then_made c call k s1 eq_refl eq_refl)
        as (cs & Hmade & Hout)
  end.
  - intros artifact s1. rewrite seq_attempt.
    destruct (getWallet (Scripts.host deps) None) as [wallet|e];
      [apply Hrest | exists []; split; [reflexivity | apply Q_stopped]].
  - exists cs. split; [exact Hmade | exact Hout].
Qed.

End Opening.

(** X17.  Whatever the gateway answers, the MysteryBoxNFT script calls
    [safeMint] at most twelve times, and exactly twelve times when it
    completes.  Every such call is made for the account of the environment
    with the signature that [getSignature] gives for the category
    [NOVA-MYSTERY-BOX-1], and the call that follows it, if there is one, is
    the wait for a transaction. *)
Theorem mystery_box_mints_twelve (s : World) :
  let ran := Scripts.interact_MysteryBoxNFT deps gw s in
  let account := Scripts.ACCOUNT_ADDRESS (Scripts.env deps) in
  let signed :=
    Scripts.getSignature deps account "NOVA-MYSTERY-BOX-1"
      (Scripts.witness_key deps) in
  exists cs,
    Scripts.made gw s ran.2 cs /\
    Scripts.sequenced account signed cs /\
    (Scripts.mints cs <= 12)%nat /\
    (forall u, ran.1 = Normal u ->
       Scripts.mints cs = 12%nat /\ Scripts.waits cs = 12%nat).
Proof.
  cbv zeta.
  enough (exists cs,
            Scripts.made gw s (Scripts.interact_MysteryBoxNFT deps gw s).2 cs
            /\ Scripts.outcome (Scripts.ACCOUNT_ADDRESS (Scripts.env deps))
                 (Scripts.getSignature deps
                    (Scripts.ACCOUNT_ADDRESS (Scripts.env deps))
                    "NOVA-MYSTERY-BOX-1" (Scripts.witness_key deps))
                 12 [] (Scripts.interact_MysteryBoxNFT deps gw s).1 cs)
    as (cs & Hmade & Hseq & Hle & _ & Hdone).
  { exists cs. split; [exact Hmade|]. split; [exact Hseq|].
    split; [exact Hle|]. intros u Hu.
    destruct (Hdone u Hu) as (? & ? & _). now split. }
  unfold Scripts.interact_MysteryBoxNFT.
  apply opening_made;
    [intros; apply outcome_nil | intros; now apply outcome_opened |].
  intros address artifact wallet s1.
  apply await_then_made;
    [intros; apply outcome_nil | intros; now apply outcome_opened
    | reflexivity | reflexivity |].
  intros response s2. rewrite seq_print.
  match goal with
  | |- context [Scripts.times gw 12 ?body ?s3] =>
      destruct (times_made (Scripts.ACCOUNT_ADDRESS (Scripts.env deps))
                  _ body 12 (round_made _ _ None _ _) s3)
        as (cs & Hmade & Hout & _)
  end.
  exists cs. split; [exact Hmade | exact Hout].
Qed.

(** X18.  Whatever the gateway answers, the TrademarkNFT script calls
    [safeMint] for the trademarks [0], [1], [2], [3] in this order and
    stops at the first step that throws: the labels it passed are the first
    of the four, and all four when it completes.  Every such call is made
    for the account of the environment with the signature for the category
    [NOVA-TradeMark-1], and the call that follows it, if there is one, is
    the wait for a transaction. *)
Theorem trademarks_minted_in_order (s : World) :
  let ran := Scripts.interact_TrademarkNFT deps gw s in
  let account := Scripts.ACCOUNT_ADDRESS (Scripts.env deps) in
  let signed :=
    Scripts.getSignature deps account "NOVA-TradeMark-1"
      (Scripts.witness_key deps) in
  exists cs,
    Scripts.made gw s ran.2 cs /\
    Scripts.sequenced account signed cs /\
    Scripts.minted_labels cs `prefix_of` ["0"; "1"; "2"; "3"] /\
    (forall u, ran.1 = Normal u ->
       Scripts.minted_labels cs = ["0"; "1"; "2"; "3"] /\
       Scripts.waits cs = 4%nat).
Proof.
  cbv zeta.
  enough (exists cs,
            Scripts.made gw s (Scripts.interact_TrademarkNFT deps gw s).2 cs
            /\ Scripts.outcome (Scripts.ACCOUNT_ADDRESS (Scripts.env deps))
                 (Scripts.getSignature deps
                    (Scripts.ACCOUNT_ADDRESS (Scripts.env deps))
                    "NOVA-TradeMark-1" (Scripts.witness_key deps))
                 4 Scripts.trademarks
                 (Scripts.interact_TrademarkNFT deps gw s).1 cs)
    as (cs & Hmade & Hseq & _ & Hprefix & Hdone).
  { exists cs. split; [exact Hmade|]. split; [exact Hseq|].
    split; [exact Hprefix|]. intros u Hu.
    destruct (Hdone u Hu) as (_ & ? & ?). now split. }
  unfold Scripts.interact_TrademarkNFT.
  apply opening_made;
    [intros; apply outcome_nil | intros; now apply outcome_opened |].
  intros address artifact wallet s1.
  apply await_then_made;
    [intros; apply outcome_nil | intros; now apply outcome_opened
    | reflexivity | reflexivity |].
  intros response s2. rewrite seq_print.
  match goal with
  | |- context [Scripts.for_each gw Scripts.trademarks ?body ?s3] =>
      destruct (for_each_made (Scripts.ACCOUNT_ADDRESS (Scripts.env deps))
                  _ body Scripts.trademarks
                  (fun item => round_made _ _ (Some item) _ _) s3)
        as (cs & Hmade & Hout & _)
  end.
  exists cs. split; [exact Hmade | exact Hout].
Qed.

(** X19.  Whatever the gateway answers, the NovaNFT script calls
    [safeMint] at most once, and once when it completes; the label it
    passes is one of the four characters, the account is the one written in
    the script and the signature is the one for the category [NOVA-SBT-1];
    the call that follows it, if there is one, is the wait for a
    transaction. *)
Theorem nova_mints_one_character (s : World) :
  let ran := Scripts.interact_NovaNFT deps gw s in
  let account := Some "0xe269B18099A71599994312757fEf8DEBE7518C31" in
  let signed :=
    Scripts.getSignature deps account "NOVA-SBT-1"
      (Scripts.witness_key deps) in
  exists cs,
    Scripts.made gw s ran.2 cs /\
    Scripts.sequenced account signed cs /\
    (Scripts.mints cs <= 1)%nat /\
    (forall label, label ∈ Scripts.minted_labels cs ->
       label ∈ Scripts.characters) /\
    (forall u, ran.1 = Normal u ->
       Scripts.mints cs = 1%nat /\ Scripts.waits cs = 1%nat).
Proof.
  cbv zeta.
  set (account := Some "0xe269B18099A71599994312757fEf8DEBE7518C31").
  set (signed := Scripts.getSignature deps account "NOVA-SBT-1"
                   (Scripts.witness_key deps)).
  pose (Q := fun r cs =>
              exists q,
                Scripts.outcome account signed 1 [Scripts.character_at q]
                  r cs).
  assert (Q_stopped : forall e, Q (Throw e) [])
    by (intros e; exists Scripts.Q0; apply outcome_nil).
  assert (Q_opened : forall r cs c,
             Scripts.is_mint c = false -> Scripts.is_wait c = false ->
             Q r cs -> Q r (cs ++ [c])%list)
    by (intros r cs c Hc Hw [q Hq]; exists q; now apply outcome_opened).
  enough (exists cs,
            Scripts.made gw s (Scripts.interact_NovaNFT deps gw s).2 cs /\
            Q (Scripts.interact_NovaNFT deps gw s).1 cs)
    as (cs & Hmade & q & Hseq & Hle & Hprefix & Hdone).
  { exists cs. split; [exact Hmade|]. split; [exact Hseq|].
    split; [exact Hle|]. split.
    - intros label Hin. destruct Hprefix as [rest Hrest].
      assert (Hq : label ∈ [Scripts.character_at q])
        by (rewrite Hrest; apply elem_of_app; now left).
      apply list_elem_of_singleton in Hq as ->. apply character_at_listed.
    - intros u Hu. destruct (Hdone u Hu) as (? & ? & _). now split. }
  unfold Scripts.interact_NovaNFT.
  apply (opening_made Q Q_stopped Q_opened).
  intros address artifact wallet s1.
  apply (await_then_made Q Q_stopped Q_opened);
    [reflexivity | reflexivity |].
  (* the character is drawn after the first reading of the balance *)
  intros response s2. rewrite seq_print, seq_random, seq_print.
  match goal with
  | |- context [Scripts.character_at ?q] => set (drawn := q)
  end.
  match goal with
  | |- context [Scripts.seq gw (Scripts.attempt gw ?c)
                  (fun signature =>
                     Scripts.seq gw (Scripts.await gw _ (@?mint signature))
                       _) ?s3] =>
      destruct (round_made
                  {| Scripts.target := address;
                     Scripts.interface := abi artifact;
                     Scripts.runner := wallet |}
                  account (Some (Scripts.character_at drawn)) signed
                  mint s3)
        as (cs & Hmade & Hround)
  end.
  destruct (outcome_round _ _ _ _ _ Hround) as (Hout & _).
  exists cs. split; [exact Hmade|]. exists drawn. exact Hout.
Qed.

End ScriptProofs.

(** * The claims on the reference host *)

Local Abbreviation H := (Ref.host None).
Local Abbreviation HE := (Ref.host Ref.explorer).
Local Abbreviation S := Ref.services.

(** On a funded chain the first steps of a call on [Token] succeed. *)
Lemma prepared_Token options (fs : gmap string string) l funds up :
  wallet_of H options = Normal Ref.rich ->
  read_ledger H "testnet" fs = Normal l ->
  (5 <= funds)%Z ->
  prepared H S "Token" None options (Ref.state fs (Ref.chain funds up))
    l Ref.rich Ref.Token (Ref.chain funds up).
Proof.
  intros Hw Hl Hfunds.
  exists 5%Z, funds, "undefined", (Ref.chain funds up), (Ref.chain funds up).
  repeat split; assumption || reflexivity.
Qed.

(** Witness of C8: no ledger file, then a ledger file. *)
Lemma createOrGetDeployLog_loads_witness :
  (files (Ref.fresh true) !! deployLogPath_of H "testnet" = None /\
   (createOrGetDeployLog H S "testnet" (Ref.fresh true)).1
   = Normal (Ref.testnet_log, ∅)) /\
  (files Ref.with_proxy !! deployLogPath_of H "testnet"
   = Some (Ref.print_ledger Ref.proxy_ledger) /\
   JSON_parse H (Ref.print_ledger Ref.proxy_ledger)
   = Normal Ref.proxy_ledger /\
   (createOrGetDeployLog H S "testnet" Ref.with_proxy).1
   = Normal (Ref.testnet_log, Ref.proxy_ledger)).
Proof.
  split.
  - split; [reflexivity|].
    apply (proj1 (createOrGetDeployLog_loads H S "testnet" (Ref.fresh true))).
    reflexivity.
  - split; [reflexivity|]. split; [vm_compute; reflexivity|].
    apply (proj1 (proj2
             (createOrGetDeployLog_loads H S "testnet" Ref.with_proxy))
             (Ref.print_ledger Ref.proxy_ledger) Ref.proxy_ledger).
    + reflexivity.
    + vm_compute; reflexivity.
Defined.

(** Witness of C1: a fee of 5 wei against a balance of 3 wei, for an
    upgradable deployment of [Token] and for the upgrade of its proxy. *)
Lemma balance_guard_blocks_submission_witness :
  stored_ledger H Cases.poor_proxy = Normal Ref.proxy_ledger /\
  truthy_bool (Ref.quiet_proxy ≫= upgradable) = true /\
  Ref.proxy_ledger !! "Token" = Some "0xA2" /\
  (3 < 5)%Z /\
  (deployContract H S "Token" None Ref.quiet_proxy None Cases.poor_proxy).1
  = Throw (JsString
      "⛔️ Wallet balance is too low! Required 0.000000000000000005 ETH, but current 0x36615Cf349d7F6344891B1e7CA7C72883F5dc049 balance is 0.000000000000000003 ETH")
  /\
  (upgradeContract H S "Token" None Ref.quiet_proxy Cases.poor_proxy).1
  = Throw (JsString
      "⛔️ Wallet balance is too low! Required 0.000000000000000005 ETH, but current 0x36615Cf349d7F6344891B1e7CA7C72883F5dc049 balance is 0.000000000000000003 ETH")
  /\
  no_submission Cases.poor_proxy
    (upgradeContract H S "Token" None Ref.quiet_proxy Cases.poor_proxy).2.
Proof.
  assert (Hl : stored_ledger H Cases.poor_proxy = Normal Ref.proxy_ledger)
    by (vm_compute; reflexivity).
  assert (Hw : wallet_of H Ref.quiet_proxy = Normal Ref.rich) by reflexivity.
  assert (Hlt : (3 < 5)%Z) by reflexivity.
  destruct
    (balance_guard_blocks_submission H S "Token" None Ref.quiet_proxy None
       Cases.poor_proxy Ref.proxy_ledger Ref.rich Ref.Token 5 3
       Cases.poor_chain Cases.poor_chain Cases.poor_chain
       Hl Hw eq_refl eq_refl eq_refl Hlt)
    as (Htext & (Hd & _) & (Hu & _ & Hquiet)).
  split; [exact Hl|]. split; [reflexivity|].
  split; [vm_compute; reflexivity|]. split; [exact Hlt|].
  split; [|split; [|exact Hquiet]].
  - rewrite Hd, Htext. reflexivity.
  - rewrite Hu, Htext. reflexivity.
Defined.


(** C4, at the failing input.  The contract is named [toString] and the
    network has no ledger: the name has no entry, yet the value read under
    it is the member of [Object.prototype], which is truthy.
    [upgradeContract] passes it to [upgradeProxy] as the proxy address, and
    what it throws is the error of that call, not the proxy-not-found
    error. *)
Lemma upgrade_on_inherited_name :
  let upgraded :=
    upgradeContract H S "toString" None Ref.quiet_proxy Cases.odd in
  truthy_bool (Ref.quiet_proxy ≫= upgradable) = true /\
  stored_ledger H Cases.odd = Normal ∅ /\
  (∅ : Ledger) !! "toString" = None /\
  property ∅ "toString" = Inherited "toString" /\
  trace upgraded.2
  = [EvUpgradeProxy (Inherited "toString") (Cases.compiled "toString");
     EvGetBalance Ref.rich;
     EvEstimateDeployFee (Cases.compiled "toString");
     EvLoadArtifact "toString"] /\
  upgraded.1 = Throw (JsError "transaction rejected") /\
  upgraded.1 <> Throw ProxyNotFound /\
  ~ no_submission Cases.odd upgraded.2.
Proof.
  cbv zeta.
  split; [reflexivity|]. split; [reflexivity|]. split; [reflexivity|].
  split; [reflexivity|]. split; [vm_compute; reflexivity|].
  split; [vm_compute; reflexivity|]. split.
  - vm_compute. discriminate.
  - intros (evs & Htrace & Hnone).
    assert (Hrun :
      trace (upgradeContract H S "toString" None Ref.quiet_proxy
               Cases.odd).2
      = ([EvUpgradeProxy (Inherited "toString") (Cases.compiled "toString");
          EvGetBalance Ref.rich;
          EvEstimateDeployFee (Cases.compiled "toString");
          EvLoadArtifact "toString"] ++ trace Cases.odd)%list)
      by (vm_compute; reflexivity).
    rewrite Hrun in Htrace. apply app_inv_tail in Htrace. subst evs.
    discriminate Hnone.
Qed.

(** Witness of X22: an upgrade of [Token], whose name is no member of
    [Object.prototype], on a network without ledger. *)
Lemma upgrade_requires_prior_deploy_witness :
  truthy_bool (Ref.quiet_proxy ≫= upgradable) = true /\
  stored_ledger H (Ref.fresh true) = Normal ∅ /\
  (∅ : Ledger) !! contractName Ref.Token = None /\
  inherited (contractName Ref.Token) = false /\
  (upgradeContract H S "Token" None Ref.quiet_proxy (Ref.fresh true)).1
  = Throw ProxyNotFound /\
  files (upgradeContract H S "Token" None Ref.quiet_proxy (Ref.fresh true)).2
  = files (Ref.fresh true).
Proof.
  assert (Hup : truthy_bool (Ref.quiet_proxy ≫= upgradable) = true)
    by reflexivity.
  assert (Hl : stored_ledger H (Ref.fresh true) = Normal ∅) by reflexivity.
  assert (Hnone : (∅ : Ledger) !! contractName Ref.Token = None)
    by reflexivity.
  assert (Hplain : inherited (contractName Ref.Token) = false)
    by reflexivity.
  destruct
    (upgrade_requires_prior_deploy H S "Token" None Ref.quiet_proxy
       (Ref.fresh true) ∅ Ref.Token (Ref.chain 100 true)
       Hup Hl eq_refl Hnone Hplain)
    as (_ & Hfiles & _ & Herror).
  split; [exact Hup|]. split; [exact Hl|]. split; [exact Hnone|].
  split; [exact Hplain|]. split; [|exact Hfiles].
  apply (Herror Ref.rich (Ref.chain 100 true)).
  apply prepared_Token; reflexivity || discriminate.
Defined.



(** Counterexample to C2: [options.noVerify] is unset, the deployment of
    [Token] is submitted and the ledger is written, the explorer refuses
    the verification request; [deployContract] throws that failure and
    returns no handle. *)
Lemma verification_failure_swallowed_counterexample :
  Ref.quiet ≫= noVerify = None /\
  trace (deployContract HE S "Token" None Ref.quiet None (Ref.fresh false)).2
  = [EvVerify {| v_address := "0xA1";
                 v_contract := "contracts/Token.sol:Token";
                 v_constructorArguments := "0x";
                 v_bytecode := "0x00";
                 v_noCompile := true |};
     EvDeploy Ref.Token; EvGetBalance Ref.rich;
     EvEstimateDeployFee Ref.Token; EvLoadArtifact "Token"] /\
  files (deployContract HE S "Token" None Ref.quiet None (Ref.fresh false)).2
    !! Ref.testnet_log
  = Some (Ref.print_ledger (<["Token" := "0xA1"]> ∅)) /\
  (deployContract HE S "Token" None Ref.quiet None (Ref.fresh false)).1
  = Throw (JsError "verification request failed") /\
  ~ exists c,
      (deployContract HE S "Token" None Ref.quiet None (Ref.fresh false)).1
      = Normal c.
Proof.
  split; [reflexivity|]. split; [vm_compute; reflexivity|].
  split; [vm_compute; reflexivity|]. split; [vm_compute; reflexivity|].
  intros [c Hc]. vm_compute in Hc. discriminate Hc.
Qed.

(** The plain deployment of [Token] on the fresh chain. *)
Lemma deployment_Token up :
  deployment HE S "Token" None Ref.quiet None (Ref.fresh up)
    ∅ Ref.Token {| contract_address := "0xA1"; contract_interface := "[]" |}
    "0x" (<["Token" := "0xA1"]> ∅) (Ref.spend 1 (Ref.chain 100 up)).
Proof.
  exists Ref.rich, (Ref.chain 100 up). split; [|split; [reflexivity|]].
  - apply prepared_Token; reflexivity || discriminate.
  - split; reflexivity.
Qed.

(** Witness of C2 (amended). *)
Lemma verification_failure_propagates_witness :
  verification_requested HE Ref.quiet = true /\
  (deployContract HE S "Token" None Ref.quiet None (Ref.fresh false)).1
  = Throw (JsError "verification request failed") /\
  ledger_written HE (files (Ref.fresh false)) (<["Token" := "0xA1"]> ∅)
    (files
       (deployContract HE S "Token" None Ref.quiet None (Ref.fresh false)).2)
  /\
  (<["Token" := "0xA1"]> ∅ : Ledger) !! "Token" = Some "0xA1".
Proof.
  assert (Hreq : verification_requested HE Ref.quiet = true) by reflexivity.
  destruct
    (verification_failure_propagates HE S "Token" None Ref.quiet None
       (Ref.fresh false) _ _ _ _ _ _
       (JsError "verification request failed")
       (Ref.spend 1 (Ref.chain 100 false))
       (deployment_Token false) Hreq eq_refl)
    as (Hthrow & Hwritten & Hentry).
  split; [exact Hreq|]. split; [exact Hthrow|]. split; [exact Hwritten|].
  apply Hentry. discriminate.
Defined.

(** Witness of C3: the proxy [0xA2] is upgraded from [0xA1] to [0xA3]. *)
Lemma upgrade_keeps_proxy_address_witness :
  (upgradeContract H S "Token" None Ref.quiet_proxy Ref.with_proxy).1
  = Normal {| contract_address := "0xA2"; contract_interface := "[]" |} /\
  stored_ledger H Ref.with_proxy = Normal Ref.proxy_ledger /\
  Ref.proxy_ledger !! "Token" = Some "0xA2" /\
  exists l a proxyAddress implementationAddress rm,
    upgrade H S "Token" None Ref.quiet_proxy Ref.with_proxy
      l a proxyAddress implementationAddress rm /\
    let l' :=
      <[implementation_key (contractName a) := implementationAddress]> l in
    ledger_written H (files Ref.with_proxy) l'
      (files
         (upgradeContract H S "Token" None Ref.quiet_proxy
            Ref.with_proxy).2) /\
    property l (contractName a) = proxyAddress /\
    property l' (contractName a) = proxyAddress /\
    l' !! contractName a = l !! contractName a /\
    l' !! implementation_key (contractName a) = Some implementationAddress /\
    getAddress H proxyAddress = Normal "0xA2" /\
    (forall p : string,
       l !! contractName a = Some p ->
       proxyAddress = Address p /\
       l' !! contractName a = Some p /\
       "0xA2" = p).
Proof.
  assert (Hret :
    (upgradeContract H S "Token" None Ref.quiet_proxy Ref.with_proxy).1
    = Normal {| contract_address := "0xA2"; contract_interface := "[]" |})
    by (vm_compute; reflexivity).
  split; [exact Hret|]. split; [vm_compute; reflexivity|].
  split; [vm_compute; reflexivity|].
  exact (upgrade_keeps_proxy_address H S "Token" None Ref.quiet_proxy
           Ref.with_proxy _ Hret).
Defined.

(** The scenario of the design: after the upgrade the ledger file holds
    the proxy address as before and the new implementation address. *)
Example upgrade_scenario :
  files (upgradeContract H S "Token" None Ref.quiet_proxy Ref.with_proxy).2
    !! Ref.testnet_log
  = Some (Ref.print_ledger Ref.upgraded_ledger) /\
  Ref.upgraded_ledger !! "Token" = Some "0xA2" /\
  Ref.upgraded_ledger !! "Token_Implementation" = Some "0xA3".
Proof. repeat split; vm_compute; reflexivity. Qed.

(** Counterexample to C6: the ledger holds [Token] and
    [Token_Implementation] from an upgradable deployment; a deployment of
    [Token] that is not upgradable succeeds, and the ledger it writes still
    holds the key [Token_Implementation]. *)
Lemma implementation_iff_upgradable_counterexample :
  truthy_bool (Ref.quiet ≫= upgradable) = false /\
  (deployContract H S "Token" None Ref.quiet None Ref.with_proxy).1
  = Normal {| contract_address := "0xA3"; contract_interface := "[]" |} /\
  files (deployContract H S "Token" None Ref.quiet None Ref.with_proxy).2
    !! Ref.testnet_log
  = Some (Ref.print_ledger Ref.redeployed_ledger) /\
  JSON_parse H (Ref.print_ledger Ref.redeployed_ledger)
  = Normal Ref.redeployed_ledger /\
  Ref.redeployed_ledger !! "Token" = Some "0xA3" /\
  Ref.redeployed_ledger !! "Token_Implementation" = Some "0xA1" /\
  ~ (is_Some (Ref.redeployed_ledger !! implementation_key "Token") <->
     truthy_bool (Ref.quiet ≫= upgradable) = true).
Proof.
  split; [reflexivity|]. split; [vm_compute; reflexivity|].
  split; [vm_compute; reflexivity|]. split; [vm_compute; reflexivity|].
  split; [vm_compute; reflexivity|]. split; [vm_compute; reflexivity|].
  intros [Hiff _].
  assert (Hkey : is_Some (Ref.redeployed_ledger !! implementation_key "Token"))
    by (exists "0xA1"; vm_compute; reflexivity).
  apply Hiff in Hkey. discriminate Hkey.
Qed.

(** Witness of C6 (amended): the first, upgradable deployment of [Token]. *)
Lemma ledger_after_deploy_witness :
  (deployContract H S "Token" None Ref.quiet_proxy None (Ref.fresh true)).1
  = Normal {| contract_address := "0xA2"; contract_interface := "[]" |} /\
  exists l a encoded l' rm,
    deployment H S "Token" None Ref.quiet_proxy None (Ref.fresh true)
      l a {| contract_address := "0xA2"; contract_interface := "[]" |}
      encoded l' rm /\
    ledger_written H (files (Ref.fresh true)) l'
      (files
         (deployContract H S "Token" None Ref.quiet_proxy None
            (Ref.fresh true)).2) /\
    (contractName a <> "__proto__" -> l' !! contractName a = Some "0xA2") /\
    (truthy_bool (Ref.quiet_proxy ≫= upgradable) = true ->
     is_Some (l' !! implementation_key (contractName a))) /\
    (truthy_bool (Ref.quiet_proxy ≫= upgradable) = false ->
     l' !! implementation_key (contractName a)
     = l !! implementation_key (contractName a)).
Proof.
  assert (Hret :
    (deployContract H S "Token" None Ref.quiet_proxy None (Ref.fresh true)).1
    = Normal {| contract_address := "0xA2"; contract_interface := "[]" |})
    by (vm_compute; reflexivity).
  split; [exact Hret|].
  exact (proj1 (ledger_after_deploy H S "Token" None Ref.quiet_proxy None
                  (Ref.fresh true)) _ Hret).
Defined.

(** Witness of C10: the ledger holds the entries of [Token] and those of
    another contract, [Vault]; a plain deployment of [Token] and an upgrade
    of its proxy both return, and both leave the entries of [Vault] as they
    were. *)
Lemma other_entries_survive_witness :
  let deployed := deployContract H S "Token" None Ref.quiet None Cases.shared in
  let upgraded := upgradeContract H S "Token" None Ref.quiet_proxy Cases.shared in
  stored_ledger H Cases.shared = Normal Cases.shared_ledger /\
  Cases.shared_ledger !! "Vault" = Some "0xB1" /\
  Cases.shared_ledger !! "Vault_Implementation" = Some "0xB0" /\
  deployed.1
  = Normal {| contract_address := "0xA3"; contract_interface := "[]" |} /\
  other_entries_kept H S "Token" Cases.shared (files deployed.2) /\
  stored_ledger H deployed.2
  = Normal (<["Token" := "0xA3"]> Cases.shared_ledger) /\
  upgraded.1
  = Normal {| contract_address := "0xA2"; contract_interface := "[]" |} /\
  other_entries_kept H S "Token" Cases.shared (files upgraded.2) /\
  stored_ledger H upgraded.2
  = Normal (<["Token_Implementation" := "0xA3"]> Cases.shared_ledger).
Proof.
  cbv zeta.
  assert (Hdeployed :
    (deployContract H S "Token" None Ref.quiet None Cases.shared).1
    = Normal {| contract_address := "0xA3"; contract_interface := "[]" |})
    by (vm_compute; reflexivity).
  assert (Hupgraded :
    (upgradeContract H S "Token" None Ref.quiet_proxy Cases.shared).1
    = Normal {| contract_address := "0xA2"; contract_interface := "[]" |})
    by (vm_compute; reflexivity).
  split; [vm_compute; reflexivity|]. split; [vm_compute; reflexivity|].
  split; [vm_compute; reflexivity|]. split; [exact Hdeployed|]. split.
  { exact (proj1 (other_entries_survive H S "Token" None Ref.quiet None
                    Cases.shared) _ Hdeployed). }
  split; [vm_compute; reflexivity|]. split; [exact Hupgraded|]. split.
  { exact (proj2 (other_entries_survive H S "Token" None Ref.quiet_proxy None
                    Cases.shared) _ Hupgraded). }
  vm_compute; reflexivity.
Defined.

(** A contract named [__proto__] is deployed and nothing is recorded for
    it: the ledger written is the empty one. *)
Example proto_deployment_unrecorded :
  let deployed :=
    deployContract H S "__proto__" None Ref.quiet None Cases.odd in
  deployed.1
  = Normal {| contract_address := "0xA1"; contract_interface := "[]" |} /\
  files deployed.2 !! Ref.testnet_log = Some "{}" /\
  stored_ledger H deployed.2 = Normal ∅.
Proof. cbv zeta. repeat split; vm_compute; reflexivity. Qed.

(** The scenario of the design from an empty network: an upgradable
    deployment of [Token], then its upgrade.  The ledger file ends with the
    proxy address of the deployment and a new implementation address. *)
Example deploy_then_upgrade_scenario :
  let deployed :=
    deployContract H S "Token" None Ref.quiet_proxy None (Ref.fresh true) in
  let upgraded :=
    upgradeContract H S "Token" None Ref.quiet_proxy deployed.2 in
  stored_ledger H deployed.2 = Normal Ref.proxy_ledger /\
  stored_ledger H upgraded.2 = Normal Ref.upgraded_ledger /\
  upgraded.1 = deployed.1 /\
  Ref.proxy_ledger !! "Token" = Ref.upgraded_ledger !! "Token" /\
  Ref.proxy_ledger !! "Token_Implementation"
  <> Ref.upgraded_ledger !! "Token_Implementation".
Proof.
  cbv zeta.
  split; [vm_compute; reflexivity|]. split; [vm_compute; reflexivity|].
  split; [vm_compute; reflexivity|]. split; [vm_compute; reflexivity|].
  vm_compute. discriminate.
Qed.

(** * Further properties on the reference host *)

(** Witness of X1: the key of the environment opens the first rich
    wallet. *)
Lemma getWallet_returns_witness :
  getWallet H None = Normal Ref.rich /\
  exists key provider,
    network_url H = Some provider /\ provider <> "" /\
    Wallet_new H key provider = Normal Ref.rich /\
    env_WALLET_PRIVATE_KEY H = Some key /\ key <> "".
Proof.
  assert (Hw : getWallet H None = Normal Ref.rich) by reflexivity.
  split; [exact Hw|].
  exact (getWallet_returns H None Ref.rich Hw).
Defined.

(** Witness of X2: 5 wei are asked of a wallet that holds 3. *)
Lemma verifyEnoughBalance_threshold_witness :
  getBalance S Ref.rich (remote Ref.poor) = (Normal 3%Z, Ref.chain 3 true) /\
  (verifyEnoughBalance H S Ref.rich 3 Ref.poor).1 = Normal tt /\
  (verifyEnoughBalance H S Ref.rich 5 Ref.poor).1
  = Throw (InsufficientBalance (formatEther H 5) (wallet_address Ref.rich)
             (formatEther H 3)).
Proof.
  assert (Hb : getBalance S Ref.rich (remote Ref.poor)
               = (Normal 3%Z, Ref.chain 3 true)) by reflexivity.
  split; [exact Hb|]. split.
  - apply (verifyEnoughBalance_threshold H S Ref.rich 3 Ref.poor 3 _ Hb). lia.
  - apply (verifyEnoughBalance_threshold H S Ref.rich 5 Ref.poor 3 _ Hb). lia.
Defined.

(** Witness of X3: the explorer accepts the verification of [Token]. *)
Lemma deployContract_returns_handle_witness :
  verification_requested HE Ref.quiet = true /\
  (deployContract HE S "Token" None Ref.quiet None (Ref.fresh true)).1
  = Normal {| contract_address := "0xA1"; contract_interface := "[]" |} /\
  ledger_written HE (files (Ref.fresh true)) (<["Token" := "0xA1"]> ∅)
    (files
       (deployContract HE S "Token" None Ref.quiet None (Ref.fresh true)).2).
Proof.
  split; [reflexivity|].
  apply (deployContract_returns_handle HE S "Token" None Ref.quiet None
           (Ref.fresh true) _ _ _ _ _ _ (deployment_Token true)).
  right. exists 1%Z, (Ref.spend 1 (Ref.chain 100 true)). reflexivity.
Defined.

(** The upgrade of the proxy [0xA2] of [Token]. *)
Lemma upgrade_Token :
  upgrade H S "Token" None Ref.quiet_proxy Ref.with_proxy
    Ref.proxy_ledger Ref.Token "0xA2" "0xA3" Cases.upgraded_chain.
Proof.
  exists Ref.rich, "http://127.0.0.1:8011", Cases.proxy_chain,
    Cases.upgraded_chain.
  split.
  { exists 5%Z, 95%Z, "undefined", Cases.proxy_chain, Cases.proxy_chain.
    split; [vm_compute; reflexivity|].
    repeat split; reflexivity || discriminate. }
  split; [reflexivity|]. split; [vm_compute; reflexivity|].
  split; [reflexivity|]. split; [vm_compute; reflexivity|].
  split; [reflexivity|]. vm_compute. reflexivity.
Qed.

(** Witness of X4: the network has no [verifyURL]. *)
Lemma upgradeContract_returns_handle_witness :
  verification_requested H Ref.quiet_proxy = false /\
  (upgradeContract H S "Token" None Ref.quiet_proxy Ref.with_proxy).1
  = Normal {| contract_address := "0xA2"; contract_interface := "[]" |} /\
  ledger_written H (files Ref.with_proxy)
    (<["Token_Implementation" := "0xA3"]> Ref.proxy_ledger)
    (files
       (upgradeContract H S "Token" None Ref.quiet_proxy Ref.with_proxy).2).
Proof.
  assert (Hno : verification_requested H Ref.quiet_proxy = false)
    by reflexivity.
  split; [exact Hno|].
  apply (upgradeContract_returns_handle H S "Token" None Ref.quiet_proxy
           Ref.with_proxy Ref.proxy_ledger Ref.Token "0xA2" "0xA3"
           Cases.upgraded_chain Cases.upgraded_chain "0x" upgrade_Token).
  - reflexivity.
  - reflexivity.
  - left. exact Hno.
Defined.

(** Witness of X5: the network has no [verifyURL]. *)
Lemma verification_skipped_witness :
  verification_requested H Ref.quiet_proxy = false /\
  grows_without is_verification (trace (Ref.fresh true))
    (trace (deployContract H S "Token" None Ref.quiet_proxy None
              (Ref.fresh true)).2) /\
  grows_without is_verification (trace Ref.with_proxy)
    (trace (upgradeContract H S "Token" None Ref.quiet_proxy
              Ref.with_proxy).2).
Proof.
  assert (Hno : verification_requested H Ref.quiet_proxy = false)
    by reflexivity.
  split; [exact Hno|]. split.
  - apply (verification_skipped H S "Token" None Ref.quiet_proxy None
             (Ref.fresh true) Hno).
  - apply (verification_skipped H S "Token" None Ref.quiet_proxy None
             Ref.with_proxy Hno).
Defined.

(** Witness of X6: the ledger maps [Token] to the empty string. *)
Lemma upgrade_refuses_empty_address_witness :
  stored_ledger H Cases.empty_entry = Normal Cases.empty_entry_ledger /\
  Cases.empty_entry_ledger !! contractName Ref.Token = Some "" /\
  (upgradeContract H S "Token" None Ref.quiet_proxy Cases.empty_entry).1
  = Throw ProxyNotFound /\
  files (upgradeContract H S "Token" None Ref.quiet_proxy Cases.empty_entry).2
  = files Cases.empty_entry.
Proof.
  assert (Hl : stored_ledger H Cases.empty_entry
               = Normal Cases.empty_entry_ledger)
    by (vm_compute; reflexivity).
  assert (Hentry : Cases.empty_entry_ledger !! contractName Ref.Token
                   = Some "") by reflexivity.
  assert (Hprepared :
    prepared H S "Token" None Ref.quiet_proxy Cases.empty_entry
      Cases.empty_entry_ledger Ref.rich Ref.Token (Ref.chain 100 true))
    by (apply prepared_Token; [reflexivity | exact Hl | discriminate]).
  destruct
    (upgrade_refuses_empty_address H S "Token" None Ref.quiet_proxy
       Cases.empty_entry Cases.empty_entry_ledger Ref.rich Ref.Token
       (Ref.chain 100 true) eq_refl Hprepared Hentry)
    as (Hthrow & Hfiles & _).
  split; [exact Hl|]. split; [exact Hentry|].
  split; [exact Hthrow | exact Hfiles].
Defined.

(** Witness of X7: a file beside the ledger. *)
Lemma other_files_untouched_witness :
  "/zklink/log/mainnet.log" <> ledger_path H /\
  files (deployContract H S "Token" None Ref.quiet None Ref.with_proxy).2
    !! "/zklink/log/mainnet.log"
  = files Ref.with_proxy !! "/zklink/log/mainnet.log".
Proof.
  assert (Hp : "/zklink/log/mainnet.log" <> ledger_path H)
    by (vm_compute; discriminate).
  split; [exact Hp|].
  apply (other_files_untouched H S "Token" None Ref.quiet None
           Ref.with_proxy "/zklink/log/mainnet.log" Hp).
Defined.

(** Witness of X9: [Token] is deployed with an argument that its
    constructor does not take; the deployment is submitted and the encoding
    of the arguments throws. *)
Lemma submitted_deployment_unrecorded_witness :
  deploy S Ref.rich Ref.Token Cases.one_argument (Ref.chain 100 true)
  = (Normal {| contract_address := "0xA1"; contract_interface := "[]" |},
     Ref.spend 1 (Ref.chain 100 true)) /\
  (deployContract H S "Token" Cases.one_argument Ref.quiet None
     (Ref.fresh true)).1
  = Throw (JsError "incorrect number of arguments to constructor") /\
  files (deployContract H S "Token" Cases.one_argument Ref.quiet None
           (Ref.fresh true)).2
  = files (Ref.fresh true).
Proof.
  assert (Hdeploy :
    deploy S Ref.rich Ref.Token Cases.one_argument (Ref.chain 100 true)
    = (Normal {| contract_address := "0xA1"; contract_interface := "[]" |},
       Ref.spend 1 (Ref.chain 100 true))) by reflexivity.
  assert (Hprepared :
    prepared H S "Token" Cases.one_argument Ref.quiet (Ref.fresh true)
      ∅ Ref.rich Ref.Token (Ref.chain 100 true)).
  { exists 5%Z, 100%Z,
      ("[" +:+ nl +:+ "  true" +:+ nl +:+ "]"),
      (Ref.chain 100 true), (Ref.chain 100 true).
    repeat split; reflexivity || discriminate. }
  destruct
    (submitted_deployment_unrecorded H S "Token" Cases.one_argument
       Ref.quiet None (Ref.fresh true) ∅ Ref.rich Ref.Token
       (Ref.chain 100 true)
       {| contract_address := "0xA1"; contract_interface := "[]" |}
       (Ref.spend 1 (Ref.chain 100 true))
       (JsError "incorrect number of arguments to constructor")
       Hprepared Hdeploy (or_introl eq_refl))
    as (Hthrow & Hfiles & _).
  split; [exact Hdeploy|]. split; [exact Hthrow | exact Hfiles].
Defined.

(** Witness of X10: an empty proxy address. *)
Lemma verifyContractByName_reads_only_witness :
  (verifyContractByName H S "" "Token" None Ref.with_proxy).1
  = Throw ProxyNotFound /\
  no_chain_call Ref.with_proxy
    (verifyContractByName H S "" "Token" None Ref.with_proxy).2.
Proof.
  apply (proj2 (proj2 (verifyContractByName_reads_only H S "" "Token" None
                         Ref.with_proxy))
           Ref.rich Ref.Token Cases.proxy_chain);
    reflexivity.
Defined.

(** Witness of X11: the proxy [0xA2] on a network without [verifyURL]. *)
Lemma verifyContractByName_always_requests_witness :
  network_verifyURL H = None /\
  (verifyContractByName H S "0xA2" "Token" None Ref.with_proxy).1
  = Normal tt /\
  calls_between Ref.with_proxy
    (verifyContractByName H S "0xA2" "Token" None Ref.with_proxy).2
    [EvVerify {| v_address := "0xA2";
                 v_contract := "contracts/Token.sol:Token";
                 v_constructorArguments := "0x";
                 v_bytecode := "0x00";
                 v_noCompile := true |};
     EvGetContractAt "0xA2"; EvGetImplementationAddress "0xA2";
     EvLoadArtifact "Token"].
Proof.
  split; [reflexivity|].
  apply (verifyContractByName_always_requests H S "0xA2" "Token" None
           Ref.with_proxy Ref.rich Ref.Token Cases.proxy_chain
           "http://127.0.0.1:8011" "0xA1" Cases.proxy_chain
           Cases.proxy_chain "0x");
    (reflexivity || discriminate || (vm_compute; reflexivity)).
Defined.

(** Witness of X12: the ledger file is not JSON; and a network whose name
    holds a slash, whose log directory is made with its parent. *)
Lemma createOrGetDeployLog_directory_witness :
  (files Cases.garbled !! deployLogPath_of H "testnet" = Some "garbled" /\
   JSON_parse H "garbled" = Throw (JsError "Unexpected token in JSON") /\
   (createOrGetDeployLog H S "testnet" Cases.garbled).1
   = Throw (JsError "Unexpected token in JSON")) /\
  (existsSync S "/zklink/log/staging" (Ref.fresh true) = false /\
   "/zklink/log/staging"
     ∈ dirs (createOrGetDeployLog H S Cases.nested (Ref.fresh true)).2 /\
   "/zklink/log"
     ∈ dirs (createOrGetDeployLog H S Cases.nested (Ref.fresh true)).2).
Proof.
  assert (Hfile : files Cases.garbled !! deployLogPath_of H "testnet"
                  = Some "garbled") by reflexivity.
  assert (Hparse : JSON_parse H "garbled"
                   = Throw (JsError "Unexpected token in JSON"))
    by reflexivity.
  destruct (createOrGetDeployLog_directory H S "testnet" Cases.garbled)
    as (_ & _ & _ & _ & _ & _ & Hthrow).
  split.
  { split; [exact Hfile|]. split; [exact Hparse|].
    exact (Hthrow "garbled" _ Hfile Hparse). }
  assert (Hmissing :
    existsSync S "/zklink/log/staging" (Ref.fresh true) = false)
    by (vm_compute; reflexivity).
  destruct (createOrGetDeployLog_directory H S Cases.nested (Ref.fresh true))
    as (_ & _ & Hmade & _).
  split; [exact Hmissing|].
  rewrite (Hmade Hmissing).
  split; apply elem_of_union; left; apply elem_of_list_to_set;
    vm_compute; repeat constructor.
Defined.

(** Witness of X14: the ledger that the deployment of [Token] wrote. *)
Lemma next_call_sees_deployment_witness :
  JSON_parse HE (JSON_stringify HE (<["Token" := "0xA1"]> ∅))
  = Normal (<["Token" := "0xA1"]> ∅) /\
  stored_ledger HE
    (deployContract HE S "Token" None Ref.quiet None (Ref.fresh true)).2
  = Normal (<["Token" := "0xA1"]> ∅).
Proof.
  assert (Hround :
    JSON_parse HE (JSON_stringify HE (<["Token" := "0xA1"]> ∅))
    = Normal (<["Token" := "0xA1"]> ∅)) by (vm_compute; reflexivity).
  split; [exact Hround|].
  apply (next_call_sees_deployment HE S "Token" None Ref.quiet None
           (Ref.fresh true) _ _ _ _ _ _ (deployment_Token true)).
  - right. exists 1%Z, (Ref.spend 1 (Ref.chain 100 true)). reflexivity.
  - exact Hround.
Defined.

(** Witness of X15: [Missing] was never compiled, and the error of the
    resolver says so after its code. *)
Lemma resolver_errors_translated_witness :
  loadArtifact S "Missing" (Ref.chain 100 true)
  = (Throw (Ref.HH700 "Missing"), Ref.chain 100 true) /\
  Ref.HH700 "Missing"
  = JsError ("HH700: " +:+ ("Artifact for contract " +:+ dq +:+ "Missing"
                            +:+ dq +:+ " not found.") +:+ " ") /\
  (deployContract H S "Missing" None Ref.quiet None (Ref.fresh true)).1
  = Throw (JsString
      "⛔️ Please make sure you have compiled your contracts or specified the correct contract name!")
  /\
  (upgradeContract H S "Missing" None Ref.quiet (Ref.fresh true)).1
  = Throw (JsString
      "Please make sure you have compiled your contracts or specified the correct contract name!")
  /\
  (verifyContractByName H S "0xA2" "Missing" None (Ref.fresh true)).1
  = Throw (JsString
      "Please make sure you have compiled your contracts or specified the correct contract name!").
Proof.
  assert (Ha : loadArtifact S "Missing" (Ref.chain 100 true)
               = (Throw (Ref.HH700 "Missing"), Ref.chain 100 true))
    by reflexivity.
  split; [exact Ha|]. split; [reflexivity|].
  apply (proj1 (resolver_errors_translated H S "Missing" None Ref.quiet None
                  "0xA2" (Ref.fresh true) ∅ Ref.rich Ref.rich
                  (Ref.HH700 "Missing") (Ref.chain 100 true)
                  eq_refl eq_refl eq_refl Ha)).
  exists "HH700: ", " ". reflexivity.
Defined.

(** Witness of X20: the ledger file is not JSON. *)
Lemma configuration_errors_block_calls_witness :
  stored_ledger H Cases.garbled = Throw (JsError "Unexpected token in JSON") /\
  (deployContract H S "Token" None Ref.quiet None Cases.garbled).1
  = Throw (JsError "Unexpected token in JSON") /\
  trace (deployContract H S "Token" None Ref.quiet None Cases.garbled).2
  = trace Cases.garbled.
Proof.
  assert (Hl : stored_ledger H Cases.garbled
               = Throw (JsError "Unexpected token in JSON")) by reflexivity.
  destruct (configuration_errors_block_calls H S "Token" None Ref.quiet None
              Cases.garbled _ (or_introl Hl))
    as ((Hthrow & _ & _ & Htrace) & _).
  split; [exact Hl|]. split; [exact Hthrow | exact Htrace].
Defined.

(** * The minting scripts on the reference gateway *)

(** Witness of X16: nothing is configured. *)
Lemma scripts_stop_without_inputs_witness :
  Scripts.interact_MysteryBoxNFT (Cases.deps Cases.unconfigured)
    Cases.gateway (Cases.world 12)
  = (Throw (JsString "⛔️ Provide address of the contract to interact with!"),
     Cases.world 12) /\
  (Scripts.interact_NovaNFT (Cases.deps Cases.unconfigured)
     Cases.gateway (Cases.world 12)).1
  = Throw (JsString "⛔️ Provide WITNESS_SINGER_PRIVATE_KEY").
Proof.
  destruct (scripts_stop_without_inputs (Cases.deps Cases.unconfigured)
              Cases.gateway (Cases.world 12))
    as (Hbox & _ & Hkey).
  split; [exact (Hbox eq_refl)|].
  destruct (Hkey eq_refl) as ((Hnova & _) & _). exact Hnova.
Defined.

(** The MysteryBoxNFT script mints twelve times when the supply lasts, and
    stops at the mint that reverts when it does not. *)
Example mystery_box_runs :
  let full :=
    Scripts.interact_MysteryBoxNFT (Cases.deps Cases.configured)
      Cases.gateway (Cases.world 20) in
  let short :=
    Scripts.interact_MysteryBoxNFT (Cases.deps Cases.configured)
      Cases.gateway (Cases.world 5) in
  full.1 = Normal tt /\
  Scripts.mints (Scripts.calls Cases.gateway full.2) = 12%nat /\
  short.1 = Throw (JsError "execution reverted") /\
  Scripts.mints (Scripts.calls Cases.gateway short.2) = 6%nat /\
  Scripts.waits (Scripts.calls Cases.gateway short.2) = 5%nat.
Proof. cbv zeta. repeat split; vm_compute; reflexivity. Qed.

(** The TrademarkNFT script with a supply of two, and the NovaNFT
    script. *)
Example labelled_runs :
  let short :=
    Scripts.interact_TrademarkNFT (Cases.deps Cases.configured)
      Cases.gateway (Cases.world 2) in
  let nova :=
    Scripts.interact_NovaNFT (Cases.deps Cases.configured)
      Cases.gateway (Cases.world 1) in
  short.1 = Throw (JsError "execution reverted") /\
  Scripts.minted_labels (Scripts.calls Cases.gateway short.2)
  = ["0"; "1"; "2"] /\
  Scripts.waits (Scripts.calls Cases.gateway short.2) = 2%nat /\
  nova.1 = Normal tt /\
  Scripts.minted_labels (Scripts.calls Cases.gateway nova.2) = ["ISTP"].
Proof. cbv zeta. repeat split; vm_compute; reflexivity. Qed.
